(** * Session and access control plane of node-mongoose-crud

    A shallow embedding of the server-side control plane of the repository:

    - [utils/ApiError.js]                       (module [ApiError]),
    - [middlewares/rateLimiter.middleware.js]   (module [RateLimiter]),
    - [models/user.model.js],
      [middlewares/auth.middleware.js] and
      [controllers/auth.controller.js]          (module [Auth]),
    - [services/cache.service.js] and
      [events/user.events.js]                   (module [Cache]).

    Clock readings ([Date.now()]) are integers (milliseconds since the epoch),
    JavaScript [Map]s and the MongoDB collection are finite maps, thrown
    [ApiError]s are the [Throw] branch of a result type. *)

From Stdlib Require Import ZArith Lia String.
From stdpp Require Import base option list gmap strings numbers.

Local Open Scope string_scope.
Local Open Scope list_scope.
Local Open Scope Z_scope.

(** ** utils/ApiError.js *)

Module ApiError.

Record t := mk { statusCode : Z; message : string }.

#[global] Instance t_eq_dec : EqDecision t.
Proof. solve_decision. Defined.

Definition badRequest (message : string) : t := mk 400 message.
Definition unauthorized (message : string) : t := mk 401 message.
Definition forbidden (message : string) : t := mk 403 message.
Definition notFound (message : string) : t := mk 404 message.
Definition tooManyRequests (message : string) : t := mk 429 message.

End ApiError.

(** The outcome of a middleware or of a controller step: either it hands over
    a value (the middleware calls [next()]), or it throws an [ApiError], or an
    exception of a library ([Raise], with the name of the error class). *)
Inductive result (A : Type) : Type :=
| Ok (a : A)
| Throw (e : ApiError.t)
| Raise (name : string).
Arguments Ok {A} a.
Arguments Throw {A} e.
Arguments Raise {A} name.

Definition isOk {A} (r : result A) : bool :=
  match r with Ok _ => true | _ => false end.

(** ** middlewares/rateLimiter.middleware.js : createSlidingWindowLimiter *)

Module RateLimiter.

(** [const { windowMs = 60000, maxRequests = 10 } = options] *)
Record Options := mkOptions {
  opt_windowMs : option Z;
  opt_maxRequests : option Z
}.

Definition windowMs (options : Options) : Z := default 60000 (opt_windowMs options).
Definition maxRequests (options : Options) : Z := default 10 (opt_maxRequests options).

(** The error of a rejected call (the specification's [RateExceeded]). *)
Definition RateExceeded : ApiError.t :=
  ApiError.tooManyRequests "Rate limit exceeded. Please wait before retrying.".

(** [userRequests.filter((time) => now - time < windowMs)] *)
Definition inWindow (options : Options) (now : Z) (userRequests : list Z) : list Z :=
  filter (λ time, now - time < windowMs options) userRequests.

(** [v.every((time) => time < cutoff)] *)
Definition agedOut (cutoff : Z) (v : list Z) : bool :=
  forallb (λ time, time <? cutoff) v.

(** The loop [for (const [k, v] of requests.entries()) if (v.every(..)) requests.delete(k)]. *)
Definition cleanup (options : Options) (now : Z) (requests : gmap string (list Z))
  : gmap string (list Z) :=
  let cutoff := now - windowMs options in
  filter (λ kv, agedOut cutoff kv.2 = false) requests.

(** One call of the middleware returned by [createSlidingWindowLimiter options],
    for the request key [key] ([req.user._id] or [req.ip]) at clock reading
    [now].  The closure variable [requests] is passed in and out. *)
Definition slidingWindowLimiter (options : Options)
    (requests : gmap string (list Z)) (key : string) (now : Z)
  : result unit * gmap string (list Z) :=
  let userRequests := default [] (requests !! key) in
  let userRequests := inWindow options now userRequests in
  if bool_decide (maxRequests options ≤ Z.of_nat (length userRequests)) then
    (Throw RateExceeded, requests)
  else
    let userRequests := userRequests ++ [now] in
    let requests := <[key := userRequests]> requests in
    let requests :=
      if bool_decide (10000 < Z.of_nat (size requests))
      then cleanup options now requests
      else requests in
    (Ok tt, requests).

(** The same middleware with the clean-up block left out: the reference
    against which the clean-up is compared. *)
Definition slidingWindowLimiterNoCleanup (options : Options)
    (requests : gmap string (list Z)) (key : string) (now : Z)
  : result unit * gmap string (list Z) :=
  let userRequests := default [] (requests !! key) in
  let userRequests := inWindow options now userRequests in
  if bool_decide (maxRequests options ≤ Z.of_nat (length userRequests)) then
    (Throw RateExceeded, requests)
  else
    (Ok tt, <[key := userRequests ++ [now]]> requests).

(** The specification's wording of the same call, for comparison: "drop all
    timestamps older than now - windowSize; if the remaining count is at
    least the ceiling, reject with RateExceeded; otherwise append now and
    return Admitted".  A timestamp exactly [windowSize] old is not older than
    [now - windowSize], and stays. *)
Definition spec_remaining (options : Options) (now : Z) (userRequests : list Z) : list Z :=
  filter (λ time, now - windowMs options ≤ time) userRequests.

Definition spec_admit (options : Options)
    (requests : gmap string (list Z)) (key : string) (now : Z)
  : result unit * gmap string (list Z) :=
  let remaining := spec_remaining options now (default [] (requests !! key)) in
  if bool_decide (maxRequests options ≤ Z.of_nat (length remaining)) then
    (Throw RateExceeded, requests)
  else
    (Ok tt, <[key := remaining ++ [now]]> requests).

(** A sequence of calls, each with its key and clock reading; the decisions
    in call order. *)
Fixpoint run (step : gmap string (list Z) → string → Z → result unit * gmap string (list Z))
    (requests : gmap string (list Z)) (calls : list (string * Z))
  : list (result unit) * gmap string (list Z) :=
  match calls with
  | [] => ([], requests)
  | (key, now) :: calls =>
      let '(r, requests) := step requests key now in
      let '(rs, requests) := run step requests calls in
      (r :: rs, requests)
  end.

(** Clock readings never go back: every call is at or after [t]. *)
Fixpoint monotoneFrom (t : Z) (calls : list (string * Z)) : Prop :=
  match calls with
  | [] => True
  | (_, now) :: calls => t ≤ now ∧ monotoneFrom now calls
  end.

(** The decisions, out of [results], of the calls made for [key]. *)
Definition decisionsFor (key : string) (calls : list (string * Z))
    (results : list (result unit)) : list (result unit) :=
  (filter (λ cr, cr.1.1 = key) (zip calls results)).*2.

(** Two states of the key map are indistinguishable from clock reading [t]
    on when every key has the same timestamps within the window at [t]. *)
Definition sameWindow (options : Options) (t : Z)
    (m1 m2 : gmap string (list Z)) : Prop :=
  ∀ k, inWindow options t (default [] (m1 !! k)) =
       inWindow options t (default [] (m2 !! k)).

End RateLimiter.

(** ** The [jsonwebtoken] library, as far as the repository uses it

    A token string is [header.payload.signature].  Signing is deterministic
    (HS256): the string is a function of the payload, of the [iat] and [exp]
    claims and of the secret, so two token strings are byte-equal exactly when
    these are equal.  A presented string that is no JWT at all is
    [Malformed]. *)

Module Jwt.

Record Claims := mkClaims {
  _id : string;
  email : option string;
  role : option string;
  iat : Z;
  exp : Z
}.

Inductive Token :=
| Malformed (raw : string)
| Signed (secret : string) (claims : Claims).

#[global] Instance Claims_eq_dec : EqDecision Claims.
Proof. solve_decision. Defined.
#[global] Instance Token_eq_dec : EqDecision Token.
Proof. solve_decision. Defined.

(** JavaScript truthiness of a token string: only the empty string is falsy. *)
Definition truthy (token : Token) : bool :=
  match token with
  | Malformed "" => false
  | _ => true
  end.

(** [jwt.sign(payload, secret, { expiresIn })] at clock reading [now]:
    [iat = Math.floor(Date.now() / 1000)], [exp = iat + expiresIn], with
    [expiresIn] in seconds. *)
Definition sign (_id : string) (email role : option string)
    (secret : string) (expiresIn : Z) (now : Z) : Token :=
  let timestamp := now `div` 1000 in
  Signed secret (mkClaims _id email role timestamp (timestamp + expiresIn)).

Inductive Verified :=
| Decoded (decoded : Claims)
| TokenExpiredError
| JsonWebTokenError.

(** [jwt.verify(token, secret)] at clock reading [now]: the format and the
    signature are checked first, then [clockTimestamp >= payload.exp]. *)
Definition verify (token : Token) (secret : string) (now : Z) : Verified :=
  match token with
  | Malformed _ => JsonWebTokenError
  | Signed secret' claims =>
      if bool_decide (secret' = secret) then
        if bool_decide (exp claims ≤ now `div` 1000) then TokenExpiredError
        else Decoded claims
      else JsonWebTokenError
  end.

End Jwt.

(** ** ObjectIds as the routes and Mongoose read them *)

Module ObjectId.

Import Stdlib.Strings.Ascii.

(** One character of [[0-9a-fA-F]]. *)
Definition isHexDigit (a : ascii) : bool :=
  let n := nat_of_ascii a in
  ((48 <=? n) && (n <=? 57) || (65 <=? n) && (n <=? 70)
   || (97 <=? n) && (n <=? 102))%nat.

(** [/^[0-9a-fA-F]{24}$/], the pattern of [objectIdSchema]
    (user.validator.js) that [validateParams] applies to the route
    parameter [id]. *)
Definition isValid (id : string) : bool :=
  bool_decide (String.length id = 24%nat)
  && forallb isHexDigit (list_ascii_of_string id).

Definition toLower (a : ascii) : ascii :=
  let n := nat_of_ascii a in
  if ((65 <=? n) && (n <=? 70))%nat then ascii_of_nat (n + 32) else a.

(** What Mongoose's cast of a valid [id] to an ObjectId is, written as
    [_id.toString()] writes it: the hexadecimal digits are read in either
    case and written in lower case. *)
Fixpoint cast (id : string) : string :=
  match id with
  | EmptyString => EmptyString
  | String a rest => String (toLower a) (cast rest)
  end.

End ObjectId.

(** ** models/user.model.js, middlewares/auth.middleware.js,
       controllers/auth.controller.js *)

Module Auth.

(** [config.jwt]; the expiries ('15m', '7d' by default) in seconds. *)
Record Config := mkConfig {
  accessTokenSecret : string;
  accessTokenExpiry : Z;
  refreshTokenSecret : string;
  refreshTokenExpiry : Z
}.

(** A user document.  [password] and [refreshToken] are [select: false]:
    a loaded document carries them only when the query selects them.
    [passwordChangedAt] is a [Date] (milliseconds) or [null]. *)
Record User := mkUser {
  _id : string;
  email : string;
  password : option string;
  role : string;
  isActive : bool;
  refreshToken : option Jwt.Token;
  passwordChangedAt : option Z
}.

#[global] Instance User_eq_dec : EqDecision User.
Proof. solve_decision. Defined.

Definition set_password (v : option string) (u : User) : User :=
  mkUser (_id u) (email u) v (role u) (isActive u) (refreshToken u) (passwordChangedAt u).
Definition set_role (v : string) (u : User) : User :=
  mkUser (_id u) (email u) (password u) v (isActive u) (refreshToken u) (passwordChangedAt u).
Definition set_isActive (v : bool) (u : User) : User :=
  mkUser (_id u) (email u) (password u) (role u) v (refreshToken u) (passwordChangedAt u).
Definition set_refreshToken (v : option Jwt.Token) (u : User) : User :=
  mkUser (_id u) (email u) (password u) (role u) (isActive u) v (passwordChangedAt u).
Definition set_passwordChangedAt (v : option Z) (u : User) : User :=
  mkUser (_id u) (email u) (password u) (role u) (isActive u) (refreshToken u) v.

(** *** The collection and its query middleware *)

Inductive Cond := CondEq (b : bool) | CondNe (b : bool).

Record Query := mkQuery {
  q_id : string;
  q_isActive : option Cond;
  includeInactive : bool
}.

(** [userSchema.pre(/^find/, ...)]: runs before [find], [findOne] (hence
    [findById]), [findOneAndUpdate] (hence [findByIdAndUpdate]), ... *)
Definition preFind (q : Query) : Query :=
  if includeInactive q then q
  else if bool_decide (is_Some (q_isActive q)) then q
  else mkQuery (q_id q) (Some (CondNe false)) (includeInactive q).

Definition holds (c : option Cond) (v : bool) : bool :=
  match c with
  | None => true
  | Some (CondEq b) => bool_decide (v = b)
  | Some (CondNe b) => bool_decide (v ≠ b)
  end.

Definition findOne (db : gmap string User) (q : Query) : option User :=
  let q := preFind q in
  match db !! q_id q with
  | Some u => if holds (q_isActive q) (isActive u) then Some u else None
  | None => None
  end.

(** Documents are stored under their own [_id]. *)
Definition wellKeyed (db : gmap string User) : Prop :=
  map_Forall (λ id u, _id u = id) db.

#[global] Instance wellKeyed_dec (db : gmap string User) : Decision (wellKeyed db).
Proof. unfold wellKeyed. apply map_Forall_dec. intros id u. apply _. Defined.

(** [.select(...)] on the [select: false] paths. *)
Definition select (withPassword withRefreshToken : bool) (u : User) : User :=
  let u := if withPassword then u else set_password None u in
  if withRefreshToken then u else set_refreshToken None u.

Definition findById (db : gmap string User) (id : string) : option User :=
  findOne db (mkQuery id None false).

(** [user.save()] of a loaded document after the assignment [update]: the
    modified paths are written to the stored document. *)
Definition save (db : gmap string User) (id : string) (update : User → User)
  : result (gmap string User) :=
  match db !! id with
  | Some stored => Ok (<[id := update stored]> db)
  | None => Raise "DocumentNotFoundError"
  end.

(** *** Instance methods *)

Definition generateAccessToken (config : Config) (this : User) (now : Z) : Jwt.Token :=
  Jwt.sign (_id this) (Some (email this)) (Some (role this))
    (accessTokenSecret config) (accessTokenExpiry config) now.

Definition generateRefreshToken (config : Config) (this : User) (now : Z) : Jwt.Token :=
  Jwt.sign (_id this) None None
    (refreshTokenSecret config) (refreshTokenExpiry config) now.

(** [parseInt(this.passwordChangedAt.getTime() / 1000, 10)] truncates
    towards zero. *)
Definition changedPasswordAfter (this : User) (tokenIssuedAt : Z) : bool :=
  match passwordChangedAt this with
  | Some getTime =>
      let changedTimestamp := getTime `quot` 1000 in
      bool_decide (tokenIssuedAt < changedTimestamp)
  | None => false
  end.

(** *** Middlewares *)

(** The errors, under the names of the specification's taxonomy. *)
Definition AccountInactive : ApiError.t :=
  ApiError.unauthorized "User account has been deactivated".
Definition StaleCredential : ApiError.t :=
  ApiError.unauthorized "Password was changed. Please login again".
Definition RevokedCredential : ApiError.t :=
  ApiError.unauthorized "Refresh token has been revoked".
Definition UserNotFound : ApiError.t :=
  ApiError.unauthorized "User not found or has been deleted".

(** [authenticate]; [token] is what the cookie or the Authorization header
    carried, if anything.  On success the user is attached to the request.
    The collection answers every read: the [ApiError]s thrown inside the
    [try] pass the [catch] block as they are ([throw error]); a rejection of
    [User.findById] itself, which would pass it too, does not occur here. *)
Definition authenticate (config : Config) (db : gmap string User) (now : Z)
    (token : option Jwt.Token) : result User :=
  match token with
  | None => Throw (ApiError.unauthorized "Access token is required")
  | Some token =>
      if negb (Jwt.truthy token) then
        Throw (ApiError.unauthorized "Access token is required")
      else
        match Jwt.verify token (accessTokenSecret config) now with
        | Jwt.TokenExpiredError =>
            Throw (ApiError.unauthorized "Access token has expired")
        | Jwt.JsonWebTokenError =>
            Throw (ApiError.unauthorized "Invalid access token")
        | Jwt.Decoded decoded =>
            match select false false <$> findById db (Jwt._id decoded) with
            | None => Throw UserNotFound
            | Some user =>
                if negb (isActive user) then Throw AccountInactive
                else if changedPasswordAfter user (Jwt.iat decoded) then
                  Throw StaleCredential
                else Ok user
            end
        end
  end.

(** [verifyRefreshToken]; [refreshToken] comes from the cookie or the body.
    As in [authenticate], the collection answers every read. *)
Definition verifyRefreshToken (config : Config) (db : gmap string User) (now : Z)
    (refreshToken' : option Jwt.Token) : result User :=
  match refreshToken' with
  | None => Throw (ApiError.unauthorized "Refresh token is required")
  | Some token =>
      if negb (Jwt.truthy token) then
        Throw (ApiError.unauthorized "Refresh token is required")
      else
        match Jwt.verify token (refreshTokenSecret config) now with
        | Jwt.TokenExpiredError =>
            Throw (ApiError.unauthorized "Refresh token has expired. Please login again")
        | Jwt.JsonWebTokenError =>
            Throw (ApiError.unauthorized "Invalid refresh token")
        | Jwt.Decoded decoded =>
            match select false true <$> findById db (Jwt._id decoded) with
            | None => Throw (ApiError.unauthorized "Invalid refresh token")
            | Some user =>
                if bool_decide (refreshToken user ≠ Some token) then
                  Throw RevokedCredential
                else if negb (isActive user) then Throw AccountInactive
                else Ok user
            end
        end
  end.

(** The part of the request the authorization middlewares read. *)
Record Request := mkRequest {
  user : option User;
  params : gmap string string
}.

Fixpoint join (sep : string) (l : list string) : string :=
  match l with
  | [] => ""
  | [x] => x
  | x :: l => x +:+ sep +:+ join sep l
  end.

(** [authorize(...allowedRoles)] *)
Definition authorize (allowedRoles : list string) (req : Request) : result unit :=
  match user req with
  | None => Throw (ApiError.unauthorized "Authentication required")
  | Some u =>
      if negb (bool_decide (role u ∈ allowedRoles)) then
        Throw (ApiError.forbidden
                 ("Access denied. Required role: " +:+ join " or " allowedRoles))
      else Ok tt
  end.

Definition Forbidden : ApiError.t :=
  ApiError.forbidden "You do not have permission to access this resource".

(** [isOwnerOrAdmin(paramName)] *)
Definition isOwnerOrAdmin (paramName : string) (req : Request) : result unit :=
  match user req with
  | None => Throw (ApiError.unauthorized "Authentication required")
  | Some u =>
      let resourceOwnerId := params req !! paramName in
      let isOwner := bool_decide (Some (_id u) = resourceOwnerId) in
      let isAdmin := bool_decide (role u = "admin") in
      if negb isOwner && negb isAdmin then Throw Forbidden
      else Ok tt
  end.

(** *** Controllers *)

(** [generateTokensAndSetCookies(user, res)]: the token pair (also set as
    cookies on the response) and the collection after [user.save]. *)
Definition generateTokensAndSetCookies (config : Config) (db : gmap string User)
    (user : User) (now : Z) : result (Jwt.Token * Jwt.Token * gmap string User) :=
  let accessToken := generateAccessToken config user now in
  let refreshToken' := generateRefreshToken config user now in
  match save db (_id user) (set_refreshToken (Some refreshToken')) with
  | Ok db => Ok (accessToken, refreshToken', db)
  | Throw e => Throw e
  | Raise name => Raise name
  end.

(** [refreshAccessToken], behind [verifyRefreshToken] which attached
    [req.user]. *)
Definition refreshAccessToken (config : Config) (db : gmap string User)
    (user : User) (now : Z) : result (Jwt.Token * Jwt.Token * gmap string User) :=
  generateTokensAndSetCookies config db user now.

(** The refresh endpoint: the middleware, then the controller. *)
Definition refreshEndpoint (config : Config) (db : gmap string User) (now : Z)
    (refreshToken' : option Jwt.Token)
  : result (Jwt.Token * Jwt.Token * gmap string User) :=
  match verifyRefreshToken config db now refreshToken' with
  | Ok user => refreshAccessToken config db user now
  | Throw e => Throw e
  | Raise name => Raise name
  end.

(** [logout]: [User.findByIdAndUpdate(userId, { $unset: { refreshToken: 1 } })],
    one update operation of the store. *)
Definition logout (db : gmap string User) (userId : string) : gmap string User :=
  match findOne db (mkQuery userId None false) with
  | Some u => <[userId := set_refreshToken None u]> db
  | None => db
  end.

(** [deleteUser] (soft delete) of user.controller.js.  [id] is the route
    parameter, which [validateParams(objectIdSchema)] has let through.  The
    guard compares it, a string, with [req.user._id.toString()];
    [User.findById(id)] casts it to an ObjectId.  The documents are stored
    under their [_id.toString()]. *)
Definition deleteUser (db : gmap string User) (caller : User) (id : string)
  : result (gmap string User) :=
  if bool_decide (_id caller = id) then
    Throw (ApiError.badRequest "You cannot delete your own account")
  else
    match findById db (ObjectId.cast id) with
    | None => Throw (ApiError.notFound ("User not found with id: " +:+ id))
    | Some _ =>
        save db (ObjectId.cast id) (λ u, set_refreshToken None (set_isActive false u))
    end.

(** The roles of the schema's [enum]. *)
Definition roles : list string := ["user"; "admin"; "moderator"].

(** [updateUser] of user.controller.js for the request body [{ role }]:
    no password to delete and no e-mail to check; the role may be changed by
    an admin only, and [User.findByIdAndUpdate(id, { $set: { role } },
    { new: true, runValidators: true })] runs under the [/^find/] hook. *)
Definition updateUser (db : gmap string User) (reqUser : User) (id : string)
    (updateData_role : string) : result (gmap string User) :=
  if negb (bool_decide (updateData_role = ""))
     && negb (bool_decide (role reqUser = "admin")) then
    Throw (ApiError.forbidden "Only admins can change user roles")
  else if negb (bool_decide (updateData_role ∈ roles)) then
    Raise "ValidationError"
  else
    match findById db (ObjectId.cast id) with
    | None => Throw (ApiError.notFound ("User not found with id: " +:+ id))
    | Some user => Ok (<[ObjectId.cast id := set_role updateData_role user]> db)
    end.

Section ChangePassword.

(** [bcrypt.hash(password, 12)] and [bcrypt.compare(candidate, hash)]. *)
Variable hash : string → string.
Variable compare : string → string → bool.

Definition isPasswordCorrect (this : User) (candidatePassword : string) : bool :=
  match password this with
  | Some hashed => compare candidatePassword hashed
  | None => false
  end.

(** [changePassword] up to and including its first [user.save()], which
    runs the pre-save middleware: the password is hashed and, the
    document not being new, [passwordChangedAt = new Date()]. *)
Definition changePassword_savePassword (db : gmap string User) (userId : string)
    (currentPassword newPassword : string) (now : Z) : result (gmap string User) :=
  match select true false <$> findById db userId with
  | None => Throw (ApiError.notFound "User not found")
  | Some user =>
      if negb (isPasswordCorrect user currentPassword) then
        Throw (ApiError.unauthorized "Current password is incorrect")
      else if isPasswordCorrect user newPassword then
        Throw (ApiError.badRequest
                 "New password must be different from current password")
      else if bool_decide (String.length newPassword < 8)%nat then
        Raise "ValidationError"
      else
        save db userId
          (λ u, set_passwordChangedAt (Some now)
                  (set_password (Some (hash newPassword)) u))
  end.

(** The rest of [changePassword]: [user.refreshToken = undefined] and the
    second [user.save]. *)
Definition changePassword_clearSessions (db : gmap string User) (userId : string)
  : result (gmap string User) :=
  save db userId (set_refreshToken None).

Definition changePassword (db : gmap string User) (userId : string)
    (currentPassword newPassword : string) (now : Z) : result (gmap string User) :=
  match changePassword_savePassword db userId currentPassword newPassword now with
  | Ok db => changePassword_clearSessions db userId
  | other => other
  end.

End ChangePassword.

(** [optionalAuth]: the user it attaches to the request, if any.  Token
    errors are ignored and the request goes on either way. *)
Definition optionalAuth (config : Config) (db : gmap string User) (now : Z)
    (token : option Jwt.Token) : option User :=
  match token with
  | None => None
  | Some token =>
      if negb (Jwt.truthy token) then None
      else
        match Jwt.verify token (accessTokenSecret config) now with
        | Jwt.Decoded decoded =>
            match select false false <$> findById db (Jwt._id decoded) with
            | Some user => if isActive user then Some user else None
            | None => None
            end
        | Jwt.TokenExpiredError => None
        | Jwt.JsonWebTokenError => None
        end
  end.

(** [getCurrentUser] of auth.controller.js, behind [authenticate]. *)
Definition getCurrentUser (db : gmap string User) (reqUser : User) : result User :=
  match select false false <$> findById db (_id reqUser) with
  | None => Throw (ApiError.notFound "User not found")
  | Some user => Ok user
  end.

(** [restoreUser] of user.controller.js: the query opts out of the
    active-only filter with [setOptions({ includeInactive: true })]; the
    route parameter [id] is cast as in [deleteUser]. *)
Definition restoreUser (db : gmap string User) (id : string)
  : result (gmap string User) :=
  match findOne db (mkQuery (ObjectId.cast id) None true) with
  | None => Throw (ApiError.notFound ("User not found with id: " +:+ id))
  | Some user =>
      if isActive user then Throw (ApiError.badRequest "User is already active")
      else save db (ObjectId.cast id) (set_isActive true)
  end.

End Auth.

(** ** services/cache.service.js and events/user.events.js *)

Module Cache.

(** The values the cache holds: what [JSON.stringify] writes and
    [JSON.parse] reads back. *)
#[local] Unset Elimination Schemes.
Inductive json :=
| JNull
| JBool (b : bool)
| JNumber (n : Z)
| JString (s : string)
| JArray (elements : list json)
| JObject (members : list (string * json)).
#[local] Set Elimination Schemes.

(** [cached !== null] *)
Definition isNull (v : json) : bool :=
  match v with JNull => true | _ => false end.

(** The Redis server: under each key the stored value and the clock reading
    (milliseconds) at which the key expires. *)
Record Entry := mkEntry { value : json; expiresAt : Z }.

(** The connection state of the [CacheService] singleton; [client] is
    [null] or a Redis client. *)
Record CacheService := mkCacheService {
  client : bool;
  isConnected : bool;
  defaultTTL : Z;
  prefix : string
}.

(** The state the constructor sets up, once connected. *)
Definition connected : CacheService := mkCacheService true true 3600 "app:".
Definition disconnected : CacheService := mkCacheService false false 3600 "app:".

Definition usable (this : CacheService) : bool :=
  negb (negb (isConnected this) || negb (client this)).

Definition getKey (this : CacheService) (key : string) : string :=
  prefix this +:+ key.

(** Redis [GET]: an expired key is absent. *)
Definition redisGet (redis : gmap string Entry) (now : Z) (key : string) : option json :=
  match redis !! key with
  | Some e => if bool_decide (now < expiresAt e) then Some (value e) else None
  | None => None
  end.

(** Redis [SETEX key seconds value]; a time to live that is not positive
    is an error of the command. *)
Definition redisSetex (redis : gmap string Entry) (now : Z)
    (key : string) (seconds : Z) (v : json) : option (gmap string Entry) :=
  if bool_decide (0 < seconds) then
    Some (<[key := mkEntry v (now + seconds * 1000)]> redis)
  else None.

(** [get(key)] *)
Definition get (this : CacheService) (redis : gmap string Entry) (now : Z)
    (key : string) : json :=
  if negb (usable this) then JNull
  else
    match redisGet redis now (getKey this key) with
    | Some data => data
    | None => JNull
    end.

(** [set(key, value, ttl = this.defaultTTL)]: the flag it returns and the
    server afterwards. *)
Definition set (this : CacheService) (redis : gmap string Entry) (now : Z)
    (key : string) (v : json) (ttl : option Z) : bool * gmap string Entry :=
  let ttl := default (defaultTTL this) ttl in
  if negb (usable this) then (false, redis)
  else
    match redisSetex redis now (getKey this key) ttl v with
    | Some redis => (true, redis)
    | None => (false, redis)
    end.

(** [del(key)] *)
Definition del (this : CacheService) (redis : gmap string Entry) (key : string)
  : bool * gmap string Entry :=
  if negb (usable this) then (false, redis)
  else (true, delete (getKey this key) redis).

Section Pattern.

(** Redis glob matching of [KEYS pattern]: [glob pattern key]. *)
Variable glob : string → string → bool.

(** [delByPattern(pattern)]: [KEYS] then [DEL] of the keys found. *)
Definition delByPattern (this : CacheService) (redis : gmap string Entry)
    (now : Z) (pattern : string) : gmap string Entry :=
  if negb (usable this) then redis
  else
    filter (λ kv, ¬ (glob (getKey this pattern) kv.1 = true
                     ∧ now < expiresAt kv.2)) redis.

(** The domain events of event.service.js that have a cache listener.  The
    listener of [USER_REGISTERED] first sends the welcome email, inside the
    [try] block that also holds the cache call: [welcomeEmailSent] tells
    whether [sendWelcomeEmail] returned or threw. *)
Inductive Event :=
| USER_REGISTERED (userId : string) (welcomeEmailSent : bool)
| USER_LOGGED_OUT (userId : string)
| USER_UPDATED (userId : string) (updates : list string)
| USER_DELETED (userId : string).

(** The cache side of the listeners of user.events.js. *)
Definition onMutationEvent (this : CacheService) (redis : gmap string Entry)
    (now : Z) (ev : Event) : gmap string Entry :=
  match ev with
  | USER_REGISTERED _ welcomeEmailSent =>
      if welcomeEmailSent then delByPattern this redis now "users:*" else redis
  | USER_LOGGED_OUT userId =>
      delByPattern this redis now ("user:" +:+ userId +:+ ":*")
  | USER_UPDATED userId _ =>
      let redis := (del this redis ("user:" +:+ userId)).2 in
      delByPattern this redis now "users:*"
  | USER_DELETED userId =>
      let redis := (del this redis ("user:" +:+ userId)).2 in
      let redis := delByPattern this redis now ("user:" +:+ userId +:+ ":*") in
      delByPattern this redis now "users:*"
  end.

End Pattern.

(** [getOrSet(key, fetchFn, ttl = this.defaultTTL)].  The loader [fetchFn]
    is a call into the record store: it reads and may change a world [W],
    so its invocations show in the world handed back. *)
Definition getOrSet {W : Type} (this : CacheService) (redis : gmap string Entry)
    (now : Z) (key : string) (fetchFn : W → json * W) (ttl : option Z) (w : W)
  : json * gmap string Entry * W :=
  let cached := get this redis now key in
  if negb (isNull cached) then (cached, redis, w)
  else
    let '(data, w) := fetchFn w in
    let redis := (set this redis now key data ttl).2 in
    (data, redis, w).

(** [exists(key)]: Redis [EXISTS] counts a key that has not expired. *)
Definition exists_ (this : CacheService) (redis : gmap string Entry) (now : Z)
    (key : string) : bool :=
  if negb (usable this) then false
  else bool_decide (is_Some (redisGet redis now (getKey this key))).

(** [flush()]: Redis [FLUSHDB]. *)
Definition flush (this : CacheService) (redis : gmap string Entry)
  : bool * gmap string Entry :=
  if negb (usable this) then (false, redis) else (true, ∅).

(** JavaScript truthiness of a parsed value, for [if (cachedData)]. *)
Definition truthy (v : json) : bool :=
  match v with
  | JNull => false
  | JBool b => b
  | JNumber n => negb (bool_decide (n = 0))
  | JString s => negb (bool_decide (s = ""))
  | JArray _ => true
  | JObject _ => true
  end.

(** What [cacheMiddleware(ttl)] does with a request: it leaves a request
    that is no GET alone, answers a GET from the cache ([X-Cache: HIT]), or
    lets it through with [res.json] replaced ([MISS]). *)
Inductive Served :=
| PassThrough
| HIT (cachedData : json)
| MISS.

Definition cacheMiddleware (this : CacheService) (redis : gmap string Entry)
    (now : Z) (method originalUrl : string) : Served :=
  if negb (bool_decide (method = "GET")) then PassThrough
  else
    let cacheKey := "route:" +:+ originalUrl in
    let cachedData := get this redis now cacheKey in
    if truthy cachedData then HIT cachedData else MISS.

(** The [res.json] that [cacheMiddleware(ttl = 300)] installs on a miss:
    the server after the handler has answered [data] with [statusCode]. *)
Definition cacheMiddleware_json (ttl : option Z) (this : CacheService)
    (redis : gmap string Entry) (now : Z) (originalUrl : string)
    (statusCode : Z) (data : json) : gmap string Entry :=
  let cacheKey := "route:" +:+ originalUrl in
  if bool_decide (200 ≤ statusCode) && bool_decide (statusCode < 300) then
    (set this redis now cacheKey data (Some (default 300 ttl))).2
  else redis.

Section Evicts.

Variable glob : string → string → bool.

(** Whether the listeners of [ev], run at clock reading [now], remove the
    entry [e] stored under the server key [k]. *)
Definition evicts (this : CacheService) (now : Z) (ev : Event)
    (k : string) (e : Entry) : bool :=
  let byPattern pattern :=
    glob (getKey this pattern) k && bool_decide (now < expiresAt e) in
  usable this &&
  match ev with
  | USER_REGISTERED _ welcomeEmailSent => welcomeEmailSent && byPattern "users:*"
  | USER_LOGGED_OUT userId => byPattern ("user:" +:+ userId +:+ ":*")
  | USER_UPDATED userId _ =>
      bool_decide (k = getKey this ("user:" +:+ userId)) || byPattern "users:*"
  | USER_DELETED userId =>
      bool_decide (k = getKey this ("user:" +:+ userId)) ||
      byPattern ("user:" +:+ userId +:+ ":*") || byPattern "users:*"
  end.

End Evicts.

End Cache.

(** ** services/event.service.js

    [EventService] extends Node's [EventEmitter]: [emit] calls the listeners
    of the event in the order they were added and removes a [once] listener
    before calling it; [off] removes the listener added last among those that
    are the given function. *)

Module EventService.

(** Function values, by identity: a handler as passed to [subscribe], and
    the [wrappedHandler] closure that [subscribe] builds around it (the only
    function [subscribe] ever registers). *)
Inductive Fn :=
| Handler (id : nat)
| Wrapped (handler : nat).

#[global] Instance Fn_eq_dec : EqDecision Fn.
Proof. solve_decision. Defined.

Record Listener := mkListener { fn : Fn; once : bool }.

Record EventRecord := mkEventRecord {
  event : string;
  data : Cache.json;
  timestamp : Z;
  listenerCount : nat
}.

Record t := mkEventService {
  listeners : gmap string (list Listener);
  eventHistory : list EventRecord;
  maxHistorySize : Z
}.

(** The constructor. *)
Definition new : t := mkEventService ∅ [] 1000.

Definition listenersOf (this : t) (event : string) : list Listener :=
  default [] (listeners this !! event).

(** [subscribe(event, handler, { once })] *)
Definition subscribe (this : t) (event : string) (handler : nat) (once : bool) : t :=
  mkEventService
    (<[event := listenersOf this event ++ [mkListener (Wrapped handler) once]]>
       (listeners this))
    (eventHistory this) (maxHistorySize this).

(** [emitter.off(event, listener)]: the index of the listener to remove,
    searching from the end. *)
Fixpoint removeLast (listener : Fn) (l : list Listener) : list Listener :=
  match l with
  | [] => []
  | x :: l =>
      if bool_decide (Exists (λ y, fn y = listener) l) then x :: removeLast listener l
      else if bool_decide (fn x = listener) then l
      else x :: l
  end.

(** [unsubscribe(event, handler)]: [this.off(event, handler)]. *)
Definition unsubscribe (this : t) (event : string) (handler : Fn) : t :=
  match listeners this !! event with
  | Some l =>
      mkEventService (<[event := removeLast handler l]> (listeners this))
        (eventHistory this) (maxHistorySize this)
  | None => this
  end.

(** [publish(event, data)] at clock reading [now]: the functions it calls,
    in order, and the service afterwards.  An ["error"] event without a
    listener makes [emit] throw, after the history was written. *)
Definition publish (this : t) (event : string) (data : Cache.json) (now : Z)
  : result (list Fn) * t :=
  let eventRecord :=
    mkEventRecord event data now (length (listenersOf this event)) in
  let eventHistory := eventHistory this ++ [eventRecord] in
  let eventHistory :=
    if bool_decide (maxHistorySize this < Z.of_nat (length eventHistory))
    then tail eventHistory else eventHistory in
  let called := listenersOf this event in
  if bool_decide (event = "error") && bool_decide (called = []) then
    (Raise "ERR_UNHANDLED_ERROR",
     mkEventService (listeners this) eventHistory (maxHistorySize this))
  else
    (Ok (fn <$> called),
     mkEventService
       (match listeners this !! event with
        | Some l => <[event := filter (λ x, once x = false) l]> (listeners this)
        | None => listeners this
        end)
       eventHistory (maxHistorySize this)).

(** [getHistory(event = null)] *)
Definition getHistory (this : t) (event' : option string) : list EventRecord :=
  match event' with
  | Some e =>
      if bool_decide (e = "") then eventHistory this
      else filter (λ r, event r = e) (eventHistory this)
  | None => eventHistory this
  end.

(** [clearHistory()] *)
Definition clearHistory (this : t) : t :=
  mkEventService (listeners this) [] (maxHistorySize this).

(** Every registered listener is a [wrappedHandler]: the services that
    [new], [subscribe], [unsubscribe] and [publish] produce. *)
Definition allWrapped (this : t) : Prop :=
  map_Forall (λ _ l, Forall (λ x, ∃ h, fn x = Wrapped h) l) (listeners this).

End EventService.

(** ** utils/helpers.js (getPagination), utils/ApiResponse.js and the
       pagination of getAllUsers (user.controller.js) *)

Module Helpers.

Section Query.

(** The values of [req.query] and JavaScript's [parseInt(value, 10)] on
    them; [None] is [NaN]. *)
Variable QueryValue : Type.
Variable parseInt : option QueryValue → option Z.

(** [n || d] on a number: [NaN] and [0] are falsy. *)
Definition orElse (n : option Z) (d : Z) : Z :=
  match n with
  | Some n => if bool_decide (n = 0) then d else n
  | None => d
  end.

Record Pagination := mkPagination { page : Z; limit : Z; skip : Z }.

(** [Number.isSafeInteger(n)]: the integers JavaScript's numbers hold
    exactly. *)
Definition safeInteger (n : Z) : Prop :=
  -9007199254740991 ≤ n ≤ 9007199254740991.

(** [getPagination(query)].  [page], [limit] and [skip] are JavaScript
    numbers; they are the integers computed here as long as the parsed
    values are safe integers and [(page - 1) * limit], at most [page * 100],
    is one too.  Beyond that the product is rounded. *)
Definition getPagination (query_page query_limit : option QueryValue) : Pagination :=
  let page := Z.max 1 (orElse (parseInt query_page) 1) in
  let limit := Z.min 100 (Z.max 1 (orElse (parseInt query_limit) 10)) in
  let skip := (page - 1) * limit in
  mkPagination page limit skip.

End Query.

End Helpers.

Module ApiResponse.

Record PaginationMeta := mkPaginationMeta {
  currentPage : Z;
  totalPages : Z;
  totalItems : Z;
  itemsPerPage : Z;
  hasNextPage : bool;
  hasPrevPage : bool
}.

Record t := mkApiResponse {
  success : bool;
  statusCode : Z;
  message : string;
  data : Cache.json;
  meta : option PaginationMeta
}.

(** [new ApiResponse(statusCode, data, message, meta)] *)
Definition new (statusCode : Z) (data : Cache.json) (message : string)
    (meta : option PaginationMeta) : t :=
  mkApiResponse (bool_decide (statusCode < 400)) statusCode message data meta.

(** [ApiResponse.paginated(data, { page, limit, totalPages, totalItems }, message)] *)
Definition paginated (data : Cache.json) (page limit totalPages totalItems : Z)
    (message : string) : t :=
  let meta :=
    mkPaginationMeta page totalPages totalItems limit
      (bool_decide (page < totalPages)) (bool_decide (1 < page)) in
  new 200 data message (Some meta).

(** [Math.ceil(a / b)] for a count [a] and a positive [b] of at most 100:
    the double-precision quotient of such integers rounds up to the same
    integer as the exact one. *)
Definition ceilDiv (a b : Z) : Z := - ((- a) `div` b).

(** The response [getAllUsers] builds from the page of [users] and the
    [totalItems] its two queries return. *)
Definition getAllUsers_respond (pagination : Helpers.Pagination)
    (users : Cache.json) (totalItems : Z) : t :=
  let totalPages := ceilDiv totalItems (Helpers.limit pagination) in
  paginated users (Helpers.page pagination) (Helpers.limit pagination)
    totalPages totalItems "Users retrieved successfully".

End ApiResponse.

(** ** middlewares/error.middleware.js *)

Module ErrorMiddleware.

(** What can reach the handler, by class: an [ApiError] with its [errors]
    array, the errors of Mongoose, of the MongoDB driver ([code === 11000])
    and of jsonwebtoken that the handler names, each with its [message],
    and any other error with its [message] and the [statusCode] and
    [isOperational] properties it may carry. An [ApiError] has the own
    properties [statusCode], [errors], [data] and [success]; it has no
    [isOperational]. *)
Inductive Err :=
| ApiErr (e : ApiError.t) (errors : list (string * string))
| CastError (message path value : string)
| DuplicateKeyError (message field value : string)
| ValidationError (message : string) (errors : list (string * string))
| JsonWebTokenError (message : string)
| TokenExpiredError (message : string)
| OtherError (message : string) (statusCode : option Z) (isOperational : bool).

(** The local [error] of the handler: the spread copy [{ ...err }], a plain
    object that keeps the own properties of [err] and not its class, or the
    [ApiError] instance one of the [handle...] functions returns;
    [isApiError] is [error instanceof ApiError]. *)
Record Error := mkError {
  isApiError : bool;
  isOperational : bool;
  statusCode : Z;
  message : string;
  errors : list (string * string)
}.

Record Response := mkResponse {
  status : Z;
  body_statusCode : Z;
  body_message : string;
  body_errors : list (string * string)
}.

Definition err_statusCode (err : Err) : option Z :=
  match err with
  | ApiErr e _ => Some (ApiError.statusCode e)
  | OtherError _ statusCode _ => statusCode
  | _ => None
  end.

Definition err_message (err : Err) : string :=
  match err with
  | ApiErr e _ => ApiError.message e
  | CastError message _ _ => message
  | DuplicateKeyError message _ _ => message
  | ValidationError message _ => message
  | JsonWebTokenError message => message
  | TokenExpiredError message => message
  | OtherError message _ _ => message
  end.

Definition err_errors (err : Err) : list (string * string) :=
  match err with
  | ApiErr _ errors => errors
  | ValidationError _ errors => errors
  | _ => []
  end.

Definition err_isOperational (err : Err) : bool :=
  match err with
  | OtherError _ _ isOperational => isOperational
  | _ => false
  end.

(** An [ApiError] built by a factory of ApiError.js. *)
Definition instance (e : ApiError.t) (errors : list (string * string)) : Error :=
  mkError true false (ApiError.statusCode e) (ApiError.message e) errors.

Definition handleCastError (path value : string) : Error :=
  instance (ApiError.badRequest ("Invalid " +:+ path +:+ ": " +:+ value)) [].

Definition handleDuplicateKeyError (field value : string) : Error :=
  instance (ApiError.mk 409 (field +:+ " '" +:+ value +:+ "' already exists")) [].

Definition handleValidationError (errors : list (string * string)) : Error :=
  instance (ApiError.mk 422 "Validation failed") errors.

Definition handleJWTError : Error :=
  instance (ApiError.unauthorized "Invalid token. Please login again") [].

Definition handleJWTExpiredError : Error :=
  instance (ApiError.unauthorized "Token has expired. Please login again") [].

Definition sendDevError (error : Error) : Response :=
  mkResponse (statusCode error) (statusCode error) (message error) (errors error).

(** The answer of [sendProdError] that hides the error. *)
Definition genericResponse : Response :=
  mkResponse 500 500 "Something went wrong. Please try again later" [].

Definition sendProdError (error : Error) : Response :=
  if isOperational error || isApiError error then
    mkResponse (statusCode error) (statusCode error) (message error) (errors error)
  else
    genericResponse.

(** [errorHandler(err, req, res, next)]: the response it sends. *)
Definition errorHandler (isProduction : bool) (err : Err) : Response :=
  let error :=
    mkError false (err_isOperational err)
      (Helpers.orElse (err_statusCode err) 500) (err_message err) (err_errors err) in
  let error :=
    match err with CastError _ path value => handleCastError path value | _ => error end in
  let error :=
    match err with
    | DuplicateKeyError _ field value => handleDuplicateKeyError field value
    | _ => error
    end in
  let error :=
    match err with
    | ValidationError _ errors => handleValidationError errors
    | _ => error
    end in
  let error :=
    match err with JsonWebTokenError _ => handleJWTError | _ => error end in
  let error :=
    match err with TokenExpiredError _ => handleJWTExpiredError | _ => error end in
  if isProduction then sendProdError error else sendDevError error.

End ErrorMiddleware.

(** ** middlewares/security.middleware.js (xssSanitizer) *)

Module Security.

Import Stdlib.Strings.Ascii.
Import Cache.

(** [s.replace(/c/g, by)] for a one-character pattern. *)
Fixpoint replaceAll (c : Ascii.ascii) (by_ : string) (s : string) : string :=
  match s with
  | EmptyString => EmptyString
  | String a rest =>
      if Ascii.eqb a c then by_ +:+ replaceAll c by_ rest
      else String a (replaceAll c by_ rest)
  end.

(** The double quote. *)
Definition dquote : Ascii.ascii := "034"%char.

(** The string case of [sanitize]: its five replacements, in their order. *)
Definition escape (s : string) : string :=
  replaceAll "/" "&#x2F;"
    (replaceAll "'" "&#x27;"
       (replaceAll dquote "&quot;"
          (replaceAll ">" "&gt;"
             (replaceAll "<" "&lt;" s)))).

(** [sanitize(obj)]: strings are escaped, arrays and objects are rebuilt
    with their elements and values sanitized (the keys as they are), and
    every other value is returned.  An object is the list of its own
    members in the order of [Object.keys].  The assignment
    [sanitized[key] = ...] creates the member, except for the key
    [__proto__] (an own key of what [JSON.parse] returns): there it runs the
    setter of [Object.prototype], and the rebuilt object has no such
    member. *)
Fixpoint sanitize (obj : json) : json :=
  match obj with
  | JString s => JString (escape s)
  | JArray elements => JArray (sanitize <$> elements)
  | JObject members =>
      JObject
        (omap (λ kv, if bool_decide (kv.1 = "__proto__") then None
                     else Some (kv.1, sanitize kv.2)) members)
  | _ => obj
  end.

Definition passwordFields : list string :=
  ["password"; "currentPassword"; "newPassword"; "confirmPassword";
   "confirmNewPassword"].

(** [obj[field]] for a member list; an object has each key once. *)
Fixpoint lookupMember (field : string) (members : list (string * json)) : option json :=
  match members with
  | [] => None
  | (k, v) :: rest => if bool_decide (k = field) then Some v else lookupMember field rest
  end.

(** [req.body[field]] for one of the names of [passwordFields]: only an
    object has such a property. *)
Definition getField (body : json) (field : string) : option json :=
  match body with
  | JObject members => lookupMember field members
  | _ => None
  end.

(** The [preserved] object the [forEach] fills. *)
Definition preserve (body : json) : list (string * json) :=
  omap (λ field,
          match getField body field with
          | Some v => if truthy v then Some (field, v) else None
          | None => None
          end) passwordFields.

(** [obj[field] = v]: an existing key keeps its place, a new one comes
    last. *)
Fixpoint assignMember (members : list (string * json)) (field : string) (v : json)
    : list (string * json) :=
  match members with
  | [] => [(field, v)]
  | (k, x) :: rest =>
      if bool_decide (k = field) then (k, v) :: rest
      else (k, x) :: assignMember rest field v
  end.

(** [Object.assign(target, source)]; [source] is empty whenever [target] is
    no object. *)
Definition assign (target : json) (source : list (string * json)) : json :=
  match target with
  | JObject members => JObject (foldl (λ m kv, assignMember m kv.1 kv.2) members source)
  | _ => target
  end.

(** [xssSanitizer(req, res, next)]: the [req.body] it leaves. *)
Definition xssSanitizer (body : json) : json :=
  if truthy body then assign (sanitize body) (preserve body) else body.

(** Where one of the five characters occurs. *)
Fixpoint contains (c : Ascii.ascii) (s : string) : bool :=
  match s with
  | EmptyString => false
  | String a rest => Ascii.eqb a c || contains c rest
  end.

Definition special : list Ascii.ascii := ["<"; ">"; dquote; "'"; "/"]%char.

Definition cleanString (s : string) : bool :=
  forallb (λ c, negb (contains c s)) special.

(** No string value of the document, at any depth, has one of the five
    characters. *)
Fixpoint clean (obj : json) : bool :=
  match obj with
  | JString s => cleanString s
  | JArray elements => forallb clean elements
  | JObject members => forallb (λ kv, clean kv.2) members
  | _ => true
  end.

(** The members the rebuilding loop of [sanitize] creates: all but
    [__proto__]. *)
Definition rebuilt (members : list (string * json)) : list (string * json) :=
  filter (λ kv, kv.1 ≠ "__proto__") members.

(** No object of the document, at any depth, has a member named
    [__proto__]. *)
Fixpoint noProto (obj : json) : bool :=
  match obj with
  | JArray elements => forallb noProto elements
  | JObject members =>
      forallb (λ kv, negb (bool_decide (kv.1 = "__proto__")) && noProto kv.2) members
  | _ => true
  end.

(** A member under one of the names [fields] with a truthy value is kept,
    every other member has its value sanitized. *)
Definition keepOrSanitize (fields : list string) (kv : string * json) : string * json :=
  if bool_decide (kv.1 ∈ fields) && truthy kv.2 then kv
  else (kv.1, sanitize kv.2).

(** What the middleware does to one member of a body object. *)
Definition sanitizeMember (kv : string * json) : string * json :=
  keepOrSanitize passwordFields kv.

End Security.

(** ** Sample data of the concrete scenarios *)

Module Sample.

(** The defaults of config/index.js: '15m' and '7d'. *)
Definition config : Auth.Config :=
  Auth.mkConfig "default_access_secret_change_in_production_32chars" 900
                "default_refresh_secret_change_in_production_32chars" 604800.

Definition hash (password : string) : string := "$2b$12$" +:+ password.
Definition compare (candidate hashed : string) : bool :=
  bool_decide (hash candidate = hashed).

Definition alice : Auth.User :=
  Auth.mkUser "64b7f0c2a1" "alice@example.com" (Some (hash "Passw0rd!"))
    "user" true None None.

Definition root : Auth.User :=
  Auth.mkUser "64b7f0c2ff" "root@example.com" (Some (hash "T0p$ecret"))
    "admin" true None None.

Definition db : gmap string Auth.User :=
  {[ "64b7f0c2a1" := alice; "64b7f0c2ff" := root ]}.

(** [alice] logs in at 1 700 000 000 100 ms. *)
Definition aliceAccessToken : Jwt.Token :=
  Auth.generateAccessToken config alice 1700000000100.
Definition aliceRefreshToken : Jwt.Token :=
  Auth.generateRefreshToken config alice 1700000000100.
Definition loggedIn : gmap string Auth.User :=
  <["64b7f0c2a1" := Auth.set_refreshToken (Some aliceRefreshToken) alice]> db.

(** Two users under full 24-digit ObjectIds, [dana] an admin. *)
Definition dana : Auth.User :=
  Auth.mkUser "64b7f0c2a1d3e4f5a6b7c8ff" "dana@example.com" (Some (hash "T0p$ecret"))
    "admin" true None None.

Definition erin : Auth.User :=
  Auth.mkUser "64b7f0c2a1d3e4f5a6b7c8d9" "erin@example.com" (Some (hash "Passw0rd!"))
    "user" true None None.

Definition staff : gmap string Auth.User :=
  {[ "64b7f0c2a1d3e4f5a6b7c8ff" := dana; "64b7f0c2a1d3e4f5a6b7c8d9" := erin ]}.

End Sample.

(** * Properties *)

(** ** The sliding-window limiter *)

Section RateLimiterProperties.

Import RateLimiter.

Variable options : Options.

Lemma inWindow_elem_of now (l : list Z) time :
  time ∈ inWindow options now l ↔ time ∈ l ∧ now - windowMs options < time.
Proof.
  unfold inWindow. rewrite list_elem_of_filter. split; intros [? ?]; split; auto; lia.
Qed.

Lemma inWindow_all now (l : list Z) :
  Forall (λ time, now - time < windowMs options) l → inWindow options now l = l.
Proof.
  unfold inWindow. induction 1 as [|x l Hx _ IH]; [done|].
  by rewrite filter_cons_True, IH.
Qed.

Lemma inWindow_later t now (l : list Z) :
  t ≤ now → inWindow options now (inWindow options t l) = inWindow options now l.
Proof.
  intros Hle. unfold inWindow. apply list_filter_filter_l. intros x. lia.
Qed.

Lemma agedOut_Forall cutoff (v : list Z) :
  agedOut cutoff v = true ↔ Forall (λ time, time < cutoff) v.
Proof.
  unfold agedOut. induction v as [|x v IH]; simpl.
  - split; [constructor|done].
  - rewrite andb_true_iff, Forall_cons_iff, IH, Z.ltb_lt. done.
Qed.

Lemma agedOut_inWindow now (v : list Z) :
  agedOut (now - windowMs options) v = true → inWindow options now v = [].
Proof.
  rewrite agedOut_Forall. unfold inWindow. induction 1 as [|x l Hx _ IH]; [done|].
  rewrite filter_cons_False by lia. done.
Qed.

Lemma cleanup_lookup now (requests : gmap string (list Z)) k :
  cleanup options now requests !! k =
    match requests !! k with
    | Some v => if agedOut (now - windowMs options) v then None else Some v
    | None => None
    end.
Proof.
  unfold cleanup. rewrite map_lookup_filter.
  destruct (requests !! k) as [v|]; [|done]. simpl.
  case_guard as Hg; simpl; by destruct (agedOut _ v).
Qed.

(** What the clean-up leaves of a key, seen through the window filter of
    the same clock reading, is what was there before. *)
Lemma cleanup_inWindow now (requests : gmap string (list Z)) k :
  inWindow options now (default [] (cleanup options now requests !! k)) =
  inWindow options now (default [] (requests !! k)).
Proof.
  rewrite cleanup_lookup. destruct (requests !! k) as [v|]; [|done].
  destruct (agedOut _ v) eqn:E; [|done].
  simpl. by rewrite (agedOut_inWindow _ _ E).
Qed.

Lemma limiter_reject requests key now :
  maxRequests options ≤
    Z.of_nat (length (inWindow options now (default [] (requests !! key)))) →
  slidingWindowLimiter options requests key now = (Throw RateExceeded, requests).
Proof.
  intros H. unfold slidingWindowLimiter. by rewrite bool_decide_eq_true_2.
Qed.

Lemma limiter_accept requests key now :
  0 ≤ windowMs options →
  Z.of_nat (length (inWindow options now (default [] (requests !! key))))
    < maxRequests options →
  ∃ requests',
    slidingWindowLimiter options requests key now = (Ok tt, requests') ∧
    requests' !! key =
      Some (inWindow options now (default [] (requests !! key)) ++ [now]).
Proof.
  intros Hw H. unfold slidingWindowLimiter.
  rewrite bool_decide_eq_false_2 by lia.
  eexists; split; [reflexivity|].
  case_bool_decide; [|by rewrite lookup_insert_eq].
  rewrite cleanup_lookup, lookup_insert_eq.
  destruct (agedOut _ _) eqn:E; [|done].
  apply agedOut_Forall, Forall_app in E as [_ E].
  apply Forall_inv in E. lia.
Qed.

Lemma sameWindow_refl t m : sameWindow options t m m.
Proof. done. Qed.

Lemma sameWindow_later t now m1 m2 :
  t ≤ now → sameWindow options t m1 m2 → sameWindow options now m1 m2.
Proof.
  intros Hle H k.
  rewrite <- (inWindow_later t now (default [] (m1 !! k))) by done.
  rewrite <- (inWindow_later t now (default [] (m2 !! k))) by done.
  by rewrite H.
Qed.

Lemma sameWindow_cleanup now m : sameWindow options now (cleanup options now m) m.
Proof. intros k. apply cleanup_inWindow. Qed.

Lemma sameWindow_insert now m1 m2 key v :
  sameWindow options now m1 m2 → sameWindow options now (<[key := v]> m1) (<[key := v]> m2).
Proof.
  intros H k. destruct (decide (key = k)) as [->|Hne].
  - by rewrite !lookup_insert_eq.
  - rewrite !lookup_insert_ne by done. apply H.
Qed.

(** One call on indistinguishable states: the same decision, and
    indistinguishable states again, whether the clean-up runs or not. *)
Lemma limiter_simulation t now m1 m2 key :
  t ≤ now → sameWindow options t m1 m2 →
  (slidingWindowLimiter options m1 key now).1 =
    (slidingWindowLimiterNoCleanup options m2 key now).1 ∧
  sameWindow options now (slidingWindowLimiter options m1 key now).2
                 (slidingWindowLimiterNoCleanup options m2 key now).2.
Proof.
  intros Hle H. pose proof (sameWindow_later _ _ _ _ Hle H) as Hnow.
  unfold slidingWindowLimiter, slidingWindowLimiterNoCleanup.
  rewrite (Hnow key).
  case_bool_decide; simpl; [done|]. split; [done|].
  case_bool_decide.
  - intros k. rewrite cleanup_inWindow. by apply sameWindow_insert.
  - by apply sameWindow_insert.
Qed.

Lemma run_simulation calls : ∀ t m1 m2,
  sameWindow options t m1 m2 → monotoneFrom t calls →
  (run (slidingWindowLimiter options) m1 calls).1 =
  (run (slidingWindowLimiterNoCleanup options) m2 calls).1.
Proof.
  induction calls as [|[key now] calls IH]; intros t m1 m2 H Hmono; [done|].
  destruct Hmono as [Hle Hmono]. simpl.
  destruct (limiter_simulation t now m1 m2 key Hle H) as [Hd Hs].
  destruct (slidingWindowLimiter options m1 key now) as [r1 m1'].
  destruct (slidingWindowLimiterNoCleanup options m2 key now) as [r2 m2'].
  simpl in Hd, Hs. subst r2.
  specialize (IH now m1' m2' Hs Hmono).
  destruct (run (slidingWindowLimiter options) m1' calls).
  destruct (run (slidingWindowLimiterNoCleanup options) m2' calls).
  simpl in *. by rewrite IH.
Qed.

End RateLimiterProperties.

(** C3 (counterexample) -- the window of the code is half open.  With
    [maxRequests = 5] and [windowMs = 60000], five calls of a fresh key at
    clock reading 0 are admitted; at clock reading 60000 no recorded
    timestamp is older than [now - windowMs = 0], so the call as the
    specification words it counts five and rejects, while
    [slidingWindowLimiter] has dropped all five ([now - time < windowMs]
    fails for them) and admits. *)
Lemma slidingWindowLimiter_drops_the_boundary :
  (RateLimiter.run
     (RateLimiter.slidingWindowLimiter (RateLimiter.mkOptions (Some 60000) (Some 5)))
     ∅ [("k", 0); ("k", 0); ("k", 0); ("k", 0); ("k", 0); ("k", 60000)]).1
    = [Ok tt; Ok tt; Ok tt; Ok tt; Ok tt; Ok tt] ∧
  (RateLimiter.run
     (RateLimiter.spec_admit (RateLimiter.mkOptions (Some 60000) (Some 5)))
     ∅ [("k", 0); ("k", 0); ("k", 0); ("k", 0); ("k", 0); ("k", 60000)]).1
    = [Ok tt; Ok tt; Ok tt; Ok tt; Ok tt; Throw RateLimiter.RateExceeded] ∧
  ¬ (∀ options requests key now,
       (RateLimiter.slidingWindowLimiter options requests key now).1
       = (RateLimiter.spec_admit options requests key now).1).
Proof.
  split; [vm_compute; reflexivity|]. split; [vm_compute; reflexivity|].
  intros H.
  specialize (H (RateLimiter.mkOptions (Some 60000) (Some 5))
                {[ "k" := [0; 0; 0; 0; 0] ]} "k" 60000).
  vm_compute in H. discriminate.
Qed.

(** C3 -- [slidingWindowLimiter]: of the timestamps recorded for the key, the
    call keeps exactly those with [now - time < windowMs], so every timestamp
    older than [now - windowMs], and also one exactly [windowMs] old, is
    dropped.  If the remaining count reaches
    [maxRequests] the call throws [RateExceeded] and the key map is left as it
    was; otherwise (the window being no negative duration) [now] is appended
    to the remaining timestamps, stored under the key, and the call is
    admitted.  With [maxRequests = 5] and
    [windowMs = 60000], five calls for a fresh key within one window are
    admitted, the sixth is rejected, and a call made once the first timestamp
    is [windowMs] old or older is admitted again. *)
Theorem slidingWindowLimiter_decision
    (options : RateLimiter.Options) (requests : gmap string (list Z))
    (key : string) (now : Z) :
  let recorded := default [] (requests !! key) in
  let remaining := RateLimiter.inWindow options now recorded in
  (∀ time, time ∈ recorded → time < now - RateLimiter.windowMs options →
           time ∉ remaining) ∧
  (∀ time, time ∈ remaining ↔
           time ∈ recorded ∧ now - RateLimiter.windowMs options < time) ∧
  (RateLimiter.maxRequests options ≤ Z.of_nat (length remaining) →
   RateLimiter.slidingWindowLimiter options requests key now =
     (Throw RateLimiter.RateExceeded, requests)) ∧
  (Z.of_nat (length remaining) < RateLimiter.maxRequests options →
   (RateLimiter.slidingWindowLimiter options requests key now).1 = Ok tt) ∧
  (0 ≤ RateLimiter.windowMs options →
   Z.of_nat (length remaining) < RateLimiter.maxRequests options →
   ∃ requests',
     RateLimiter.slidingWindowLimiter options requests key now = (Ok tt, requests') ∧
     requests' !! key = Some (remaining ++ [now])) ∧
  (∀ (m : gmap string (list Z)) (k : string) (t1 t2 t3 t4 t5 t6 t7 : Z),
     m !! k = None →
     t1 ≤ t2 → t2 ≤ t3 → t3 ≤ t4 → t4 ≤ t5 → t5 ≤ t6 → t6 < t1 + 60000 →
     t1 + 60000 ≤ t7 → t6 ≤ t7 →
     (RateLimiter.run
        (RateLimiter.slidingWindowLimiter
           (RateLimiter.mkOptions (Some 60000) (Some 5))) m
        [(k, t1); (k, t2); (k, t3); (k, t4); (k, t5); (k, t6); (k, t7)]).1 =
     [Ok tt; Ok tt; Ok tt; Ok tt; Ok tt; Throw RateLimiter.RateExceeded; Ok tt]).
Proof.
  intros recorded remaining.
  split; [|split; [|split; [|split; [|split]]]].
  - intros time _ Hold Hin. apply inWindow_elem_of in Hin. lia.
  - intros time. apply inWindow_elem_of.
  - apply limiter_reject.
  - intros H. unfold RateLimiter.slidingWindowLimiter.
    fold recorded. fold remaining. by rewrite bool_decide_eq_false_2 by lia.
  - apply limiter_accept.
  - clear. intros m k t1 t2 t3 t4 t5 t6 t7 Hk H12 H23 H34 H45 H56 H61 H17 H67.
    set (o := RateLimiter.mkOptions (Some 60000) (Some 5)).
    assert (Hw : 0 ≤ RateLimiter.windowMs o) by done.
    assert (Hmax : RateLimiter.maxRequests o = 5) by done.
    assert (Hwin : RateLimiter.windowMs o = 60000) by done.
    simpl.
    destruct (limiter_accept o m k t1 Hw) as (m1 & -> & E1).
    { rewrite Hk. simpl. lia. }
    rewrite Hk in E1. simpl in E1.
    destruct (limiter_accept o m1 k t2 Hw) as (m2 & -> & E2).
    { rewrite E1, inWindow_all; [simpl; lia|]. repeat constructor; lia. }
    rewrite E1 in E2. simpl in E2. rewrite inWindow_all in E2
      by (repeat constructor; lia). simpl in E2.
    destruct (limiter_accept o m2 k t3 Hw) as (m3 & -> & E3).
    { rewrite E2, inWindow_all; [simpl; lia|]. repeat constructor; lia. }
    rewrite E2 in E3. simpl in E3. rewrite inWindow_all in E3
      by (repeat constructor; lia). simpl in E3.
    destruct (limiter_accept o m3 k t4 Hw) as (m4 & -> & E4).
    { rewrite E3, inWindow_all; [simpl; lia|]. repeat constructor; lia. }
    rewrite E3 in E4. simpl in E4. rewrite inWindow_all in E4
      by (repeat constructor; lia). simpl in E4.
    destruct (limiter_accept o m4 k t5 Hw) as (m5 & -> & E5).
    { rewrite E4, inWindow_all; [simpl; lia|]. repeat constructor; lia. }
    rewrite E4 in E5. simpl in E5. rewrite inWindow_all in E5
      by (repeat constructor; lia). simpl in E5.
    rewrite (limiter_reject o m5 k t6).
    2:{ rewrite E5, inWindow_all; [simpl; lia|]. repeat constructor; lia. }
    destruct (limiter_accept o m5 k t7 Hw) as (m7 & -> & E7); [|done].
    rewrite E5. simpl. unfold RateLimiter.inWindow.
    rewrite filter_cons_False by lia.
    pose proof (length_filter (λ time, t7 - time < RateLimiter.windowMs o)
                  [t2; t3; t4; t5]) as Hlen.
    simpl in Hlen. lia.
Qed.

(** Witness for the theorem above: a first call is admitted and
    recorded, and the five-per-minute scenario at explicit clock readings. *)
Lemma slidingWindowLimiter_decision_witness :
  0 ≤ RateLimiter.windowMs (RateLimiter.mkOptions (Some 60000) (Some 5)) ∧
  (∃ requests',
     RateLimiter.slidingWindowLimiter
       (RateLimiter.mkOptions (Some 60000) (Some 5)) ∅ "10.0.0.1" 1000
       = (Ok tt, requests') ∧
     requests' !! "10.0.0.1" = Some [1000]) ∧
  (RateLimiter.run
     (RateLimiter.slidingWindowLimiter
        (RateLimiter.mkOptions (Some 60000) (Some 5))) ∅
     [("10.0.0.1", 0); ("10.0.0.1", 10000); ("10.0.0.1", 20000);
      ("10.0.0.1", 30000); ("10.0.0.1", 40000); ("10.0.0.1", 50000);
      ("10.0.0.1", 60000)]).1 =
  [Ok tt; Ok tt; Ok tt; Ok tt; Ok tt; Throw RateLimiter.RateExceeded; Ok tt].
Proof.
  assert (Hw : 0 ≤ RateLimiter.windowMs (RateLimiter.mkOptions (Some 60000) (Some 5)))
    by (vm_compute; discriminate).
  pose proof (slidingWindowLimiter_decision
                (RateLimiter.mkOptions (Some 60000) (Some 5)) ∅ "10.0.0.1" 1000)
    as (_ & _ & _ & _ & Haccept & Hscenario).
  split; [exact Hw|]. split.
  - apply Haccept; [exact Hw|]. vm_compute. reflexivity.
  - apply Hscenario; [reflexivity|lia..].
Defined.

(** C9 -- the clean-up of [slidingWindowLimiter] deletes a key only when
    every timestamp recorded for it is older than [now - windowMs] (so none
    of them is in the window any more) and leaves the other keys as they
    are.  Hence, as long as the clock does not go back, the decision of every
    later call is the one that would have been taken had the clean-up not
    run: for one call after a clean-up, for any sequence of calls after a
    clean-up, and for the limiter compared with the same limiter without its
    clean-up block. *)
Theorem cleanup_never_changes_decisions
    (options : RateLimiter.Options) (requests : gmap string (list Z)) (now : Z) :
  (∀ k v, requests !! k = Some v →
          RateLimiter.cleanup options now requests !! k = None →
          Forall (λ time, time < now - RateLimiter.windowMs options) v ∧
          RateLimiter.inWindow options now v = []) ∧
  (∀ k v, requests !! k = Some v →
          ¬ Forall (λ time, time < now - RateLimiter.windowMs options) v →
          RateLimiter.cleanup options now requests !! k = Some v) ∧
  (∀ key now', now ≤ now' →
     (RateLimiter.slidingWindowLimiter options
        (RateLimiter.cleanup options now requests) key now').1 =
     (RateLimiter.slidingWindowLimiter options requests key now').1) ∧
  (∀ calls, RateLimiter.monotoneFrom now calls →
     (RateLimiter.run (RateLimiter.slidingWindowLimiter options)
        (RateLimiter.cleanup options now requests) calls).1 =
     (RateLimiter.run (RateLimiter.slidingWindowLimiter options) requests calls).1) ∧
  (∀ calls, RateLimiter.monotoneFrom now calls →
     (RateLimiter.run (RateLimiter.slidingWindowLimiter options) requests calls).1 =
     (RateLimiter.run (RateLimiter.slidingWindowLimiterNoCleanup options)
        requests calls).1).
Proof.
  split; [|split; [|split; [|split]]].
  - intros k v Hk Hc. rewrite cleanup_lookup, Hk in Hc.
    destruct (RateLimiter.agedOut _ v) eqn:E; [|done].
    split; [by apply agedOut_Forall|by apply agedOut_inWindow].
  - intros k v Hk Hn. rewrite cleanup_lookup, Hk.
    destruct (RateLimiter.agedOut _ v) eqn:E; [|done].
    by apply agedOut_Forall in E.
  - intros key now' Hle.
    pose proof (run_simulation options [(key, now')] now
                  (RateLimiter.cleanup options now requests) requests
                  (sameWindow_cleanup options now requests)
                  (conj Hle I)) as H1.
    pose proof (run_simulation options [(key, now')] now requests requests
                  (sameWindow_refl options now requests) (conj Hle I)) as H2.
    simpl in H1, H2.
    destruct (RateLimiter.slidingWindowLimiter options
                (RateLimiter.cleanup options now requests) key now').
    destruct (RateLimiter.slidingWindowLimiter options requests key now').
    destruct (RateLimiter.slidingWindowLimiterNoCleanup options requests key now').
    simpl in *. congruence.
  - intros calls Hmono.
    rewrite (run_simulation options calls now _ requests
               (sameWindow_cleanup options now requests) Hmono).
    symmetry. by apply (run_simulation options calls now).
  - intros calls Hmono. by apply (run_simulation options calls now).
Qed.

(** Witness for the theorem above: a key whose only timestamp
    has left the window is cleaned up, a live key is kept, and the next call
    for the cleaned-up key is admitted with or without the clean-up. *)
Lemma cleanup_never_changes_decisions_witness :
  RateLimiter.cleanup (RateLimiter.mkOptions (Some 60000) (Some 1)) 100000
    {[ "alice" := [1000]; "bob" := [99000] ]} !! "alice" = None ∧
  RateLimiter.cleanup (RateLimiter.mkOptions (Some 60000) (Some 1)) 100000
    {[ "alice" := [1000]; "bob" := [99000] ]} !! "bob" = Some [99000] ∧
  (RateLimiter.slidingWindowLimiter (RateLimiter.mkOptions (Some 60000) (Some 1))
     (RateLimiter.cleanup (RateLimiter.mkOptions (Some 60000) (Some 1)) 100000
        {[ "alice" := [1000]; "bob" := [99000] ]}) "alice" 100001).1 =
  (RateLimiter.slidingWindowLimiter (RateLimiter.mkOptions (Some 60000) (Some 1))
     {[ "alice" := [1000]; "bob" := [99000] ]} "alice" 100001).1.
Proof.
  pose proof (cleanup_never_changes_decisions
                (RateLimiter.mkOptions (Some 60000) (Some 1))
                {[ "alice" := [1000]; "bob" := [99000] ]} 100000)
    as (_ & Hkept & Hone & _).
  split; [vm_compute; reflexivity|]. split.
  - apply Hkept; [vm_compute; reflexivity|].
    intros H. apply Forall_inv in H. vm_compute in H. discriminate.
  - apply Hone. lia.
Defined.

(** ** Token verification *)

Section AuthProperties.

Import Auth.

Lemma findById_Some (db : gmap string User) id u :
  findById db id = Some u ↔ db !! id = Some u ∧ isActive u = true.
Proof.
  unfold findById, findOne, preFind. simpl.
  destruct (db !! id) as [r|]; [|split; [done|by intros [? _]]].
  destruct (isActive r) eqn:E; simpl.
  - split; [intros [= <-]; done|by intros [? _]].
  - split; [done|]. intros [[= <-] ?]. congruence.
Qed.

(** The query middleware hides a deactivated user from [findById]. *)
Lemma findById_inactive (db : gmap string User) id u :
  db !! id = Some u → isActive u = false → findById db id = None.
Proof.
  intros Hu Hi. destruct (findById db id) as [r|] eqn:E; [|done].
  apply findById_Some in E as [E1 E2]. congruence.
Qed.

Lemma verify_Decoded token secret now decoded :
  Jwt.verify token secret now = Jwt.Decoded decoded ↔
  token = Jwt.Signed secret decoded ∧ now `div` 1000 < Jwt.exp decoded.
Proof.
  unfold Jwt.verify. destruct token as [raw|secret' claims].
  - split; [done|by intros [? _]].
  - destruct (decide (secret' = secret)) as [->|Hne].
    + rewrite bool_decide_eq_true_2 by done.
      destruct (decide (Jwt.exp claims ≤ now `div` 1000)) as [Hle|Hgt].
      * rewrite bool_decide_eq_true_2 by done.
        split; [done|]. intros [[= ->] ?]. lia.
      * rewrite bool_decide_eq_false_2 by done.
        split; [intros [= ->]; split; [done|lia]|]. by intros [[= ->] _].
    + rewrite bool_decide_eq_false_2 by done.
      split; [done|]. intros [[= -> _] _]. done.
Qed.

Lemma verify_truthy token secret now decoded :
  Jwt.verify token secret now = Jwt.Decoded decoded → Jwt.truthy token = true.
Proof. intros [-> _]%verify_Decoded. done. Qed.

Lemma select_isActive wp wr u : isActive (select wp wr u) = isActive u.
Proof. by destruct wp, wr. Qed.
Lemma select_id wp wr u : _id (select wp wr u) = _id u.
Proof. by destruct wp, wr. Qed.
Lemma select_role wp wr u : role (select wp wr u) = role u.
Proof. by destruct wp, wr. Qed.
Lemma select_email wp wr u : email (select wp wr u) = email u.
Proof. by destruct wp, wr. Qed.
Lemma select_passwordChangedAt wp wr u :
  passwordChangedAt (select wp wr u) = passwordChangedAt u.
Proof. by destruct wp, wr. Qed.
Lemma select_refreshToken wp u :
  refreshToken (select wp true u) = refreshToken u.
Proof. by destruct wp. Qed.

Lemma changedPasswordAfter_select wp wr u iat :
  changedPasswordAfter (select wp wr u) iat = changedPasswordAfter u iat.
Proof. unfold changedPasswordAfter. by rewrite select_passwordChangedAt. Qed.

(** [authenticate] on a token that [jwt.verify] accepts, by the state of
    the subject's document. *)
Lemma authenticate_verified config db now token decoded :
  Jwt.verify token (accessTokenSecret config) now = Jwt.Decoded decoded →
  authenticate config db now (Some token) =
    match db !! Jwt._id decoded with
    | None => Throw UserNotFound
    | Some u =>
        if isActive u then
          if changedPasswordAfter u (Jwt.iat decoded) then Throw StaleCredential
          else Ok (select false false u)
        else Throw UserNotFound
    end.
Proof.
  intros Hv. unfold authenticate.
  rewrite (verify_truthy _ _ _ _ Hv), Hv. simpl.
  destruct (db !! Jwt._id decoded) as [u|] eqn:Hu.
  - destruct (isActive u) eqn:Ha.
    + rewrite (proj2 (findById_Some db _ u)) by done. simpl.
      rewrite Ha. reflexivity.
    + by rewrite (findById_inactive db _ u).
  - destruct (findById db (Jwt._id decoded)) as [r|] eqn:E; [|done].
    apply findById_Some in E as [E _]. congruence.
Qed.

(** The [isActive] test of [authenticate] is never the one that answers. *)
Lemma authenticate_never_AccountInactive config db now token :
  authenticate config db now token ≠ Throw AccountInactive.
Proof.
  unfold authenticate. destruct token as [token|]; [|done].
  destruct (Jwt.truthy token); simpl; [|done].
  destruct (Jwt.verify token _ now) as [decoded| |]; [|done..].
  destruct (findById db (Jwt._id decoded)) as [u|] eqn:E; simpl; [|done].
  apply findById_Some in E as [_ ->]. simpl.
  by destruct (changedPasswordAfter _ (Jwt.iat decoded)).
Qed.

(** [verifyRefreshToken] on a token that [jwt.verify] accepts. *)
Lemma verifyRefreshToken_verified config db now token decoded :
  Jwt.verify token (refreshTokenSecret config) now = Jwt.Decoded decoded →
  verifyRefreshToken config db now (Some token) =
    match db !! Jwt._id decoded with
    | None => Throw (ApiError.unauthorized "Invalid refresh token")
    | Some u =>
        if isActive u then
          if bool_decide (refreshToken u = Some token)
          then Ok (select false true u)
          else Throw RevokedCredential
        else Throw (ApiError.unauthorized "Invalid refresh token")
    end.
Proof.
  intros Hv. unfold verifyRefreshToken.
  rewrite (verify_truthy _ _ _ _ Hv), Hv. simpl.
  destruct (db !! Jwt._id decoded) as [u|] eqn:Hu.
  - destruct (isActive u) eqn:Ha.
    + rewrite (proj2 (findById_Some db _ u)) by done. simpl.
      rewrite Ha. simpl. rewrite select_refreshToken || idtac.
      destruct (decide (refreshToken u = Some token)) as [He|Hne].
      * rewrite bool_decide_eq_false_2 by (by intros ?).
        by rewrite bool_decide_eq_true_2.
      * rewrite bool_decide_eq_true_2 by done.
        by rewrite bool_decide_eq_false_2.
    + by rewrite (findById_inactive db _ u).
  - destruct (findById db (Jwt._id decoded)) as [r|] eqn:E; [|done].
    apply findById_Some in E as [E _]. congruence.
Qed.

Lemma generateTokens_stored config db user now stored :
  db !! _id user = Some stored →
  generateTokensAndSetCookies config db user now =
    Ok (generateAccessToken config user now,
        generateRefreshToken config user now,
        <[_id user := set_refreshToken
                        (Some (generateRefreshToken config user now)) stored]> db).
Proof.
  intros H. unfold generateTokensAndSetCookies, save. by rewrite H.
Qed.

Lemma verify_access_issued config user now now' :
  now' `div` 1000 < now `div` 1000 + accessTokenExpiry config →
  Jwt.verify (generateAccessToken config user now) (accessTokenSecret config) now' =
    Jwt.Decoded (Jwt.mkClaims (_id user) (Some (email user)) (Some (role user))
                   (now `div` 1000) (now `div` 1000 + accessTokenExpiry config)).
Proof. intros H. apply verify_Decoded. done. Qed.

Lemma verify_refresh_issued config user now now' :
  now' `div` 1000 < now `div` 1000 + refreshTokenExpiry config →
  Jwt.verify (generateRefreshToken config user now) (refreshTokenSecret config) now' =
    Jwt.Decoded (Jwt.mkClaims (_id user) None None
                   (now `div` 1000) (now `div` 1000 + refreshTokenExpiry config)).
Proof. intros H. apply verify_Decoded. done. Qed.

Lemma changedPasswordAfter_false u tokenIssuedAt getTime :
  passwordChangedAt u = Some getTime → 0 ≤ getTime →
  getTime `div` 1000 ≤ tokenIssuedAt →
  changedPasswordAfter u tokenIssuedAt = false.
Proof.
  intros Hp H0 Hle. unfold changedPasswordAfter. rewrite Hp.
  apply bool_decide_eq_false_2. rewrite Z.quot_div_nonneg by lia. lia.
Qed.

End AuthProperties.


(** C10 -- [changedPasswordAfter] truncates [passwordChangedAt] to whole
    seconds and compares with a strict less-than against the token's [iat]:
    with no [passwordChangedAt] the test is always false; otherwise it is
    [iat < trunc(passwordChangedAt / 1000)].  So a token whose [iat] is at
    least [floor(passwordChangedAt / 1000)] -- in particular one signed in
    the very second of the password change -- is not stale, and
    [authenticate] lets it through. *)
Theorem changedPasswordAfter_whole_seconds (this : Auth.User) (tokenIssuedAt : Z) :
  (Auth.passwordChangedAt this = None →
   Auth.changedPasswordAfter this tokenIssuedAt = false) ∧
  (∀ getTime, Auth.passwordChangedAt this = Some getTime →
     Auth.changedPasswordAfter this tokenIssuedAt =
       bool_decide (tokenIssuedAt < getTime `quot` 1000)) ∧
  (∀ getTime, Auth.passwordChangedAt this = Some getTime → 0 ≤ getTime →
     getTime `div` 1000 ≤ tokenIssuedAt →
     Auth.changedPasswordAfter this tokenIssuedAt = false) ∧
  (∀ getTime config signedAt,
     Auth.passwordChangedAt this = Some getTime → 0 ≤ getTime →
     signedAt `div` 1000 = getTime `div` 1000 →
     ∀ decoded,
       Jwt.verify (Auth.generateAccessToken config this signedAt)
         (Auth.accessTokenSecret config) signedAt = Jwt.Decoded decoded →
       Auth.changedPasswordAfter this (Jwt.iat decoded) = false) ∧
  (∀ config (db : gmap string Auth.User) now token decoded,
     Jwt.verify token (Auth.accessTokenSecret config) now = Jwt.Decoded decoded →
     db !! Jwt._id decoded = Some this →
     Auth.isActive this = true →
     (Auth.passwordChangedAt this = None ∨
      ∃ getTime, Auth.passwordChangedAt this = Some getTime ∧ 0 ≤ getTime ∧
                 getTime `div` 1000 ≤ Jwt.iat decoded) →
     Auth.authenticate config db now (Some token) =
       Ok (Auth.select false false this)).
Proof.
  split; [|split; [|split; [|split]]].
  - intros H. unfold Auth.changedPasswordAfter. by rewrite H.
  - intros getTime H. unfold Auth.changedPasswordAfter. by rewrite H.
  - intros getTime. apply changedPasswordAfter_false.
  - intros getTime config signedAt Hp H0 Hsame decoded Hv.
    apply verify_Decoded in Hv as [[= <-] _]. simpl.
    apply (changedPasswordAfter_false _ _ getTime); [done|done|lia].
  - intros config db now token decoded Hv Hdb Ha Hpc.
    rewrite (authenticate_verified _ _ _ _ _ Hv), Hdb, Ha.
    destruct Hpc as [Hn|(getTime & Hp & H0 & Hle)].
    + unfold Auth.changedPasswordAfter. by rewrite Hn.
    + by rewrite (changedPasswordAfter_false _ _ getTime).
Qed.

(** Witness for the theorem above: a password changed at
    1 700 000 000 900 ms and a token signed 400 ms earlier, in the same
    second. *)
Lemma changedPasswordAfter_whole_seconds_witness :
  Auth.changedPasswordAfter
    (Auth.set_passwordChangedAt (Some 1700000000900) Sample.alice) 1700000000 = false ∧
  Auth.authenticate Sample.config
    {[ "64b7f0c2a1" := Auth.set_passwordChangedAt (Some 1700000000900) Sample.alice ]}
    1700000001000
    (Some (Auth.generateAccessToken Sample.config Sample.alice 1700000000500)) =
  Ok (Auth.select false false
        (Auth.set_passwordChangedAt (Some 1700000000900) Sample.alice)).
Proof.
  pose proof (changedPasswordAfter_whole_seconds
                (Auth.set_passwordChangedAt (Some 1700000000900) Sample.alice)
                1700000000) as (_ & _ & Hfloor & _ & Hauth).
  split.
  - apply (Hfloor 1700000000900); [reflexivity|lia|vm_compute; discriminate].
  - eapply Hauth.
    + vm_compute. reflexivity.
    + vm_compute. reflexivity.
    + reflexivity.
    + right. exists 1700000000900.
      split; [reflexivity|]. split; [lia|vm_compute; discriminate].
Defined.

(** C4 (counterexample) -- the identity carries the role of the stored
    document, not the role the token was issued for.  [erin], a "user", is
    issued a token pair; the admin [dana] then changes her role with
    [updateUser] -- no revoke, no password change, no deactivation: her
    refresh token, [passwordChangedAt] and [isActive] are as the issuance
    left them.  A minute later [authenticate] accepts her access token and
    attaches an identity whose role is "moderator". *)
Lemma authenticate_attaches_the_stored_role :
  ∃ accessToken refreshToken db' db'' stored identity,
    Auth.generateTokensAndSetCookies Sample.config Sample.staff
      (Auth.select false false Sample.erin) 1700000000500
      = Ok (accessToken, refreshToken, db') ∧
    ObjectId.isValid "64b7f0c2a1d3e4f5a6b7c8d9" = true ∧
    Auth.updateUser db' Sample.dana "64b7f0c2a1d3e4f5a6b7c8d9" "moderator" = Ok db'' ∧
    db'' !! Auth._id Sample.erin = Some stored ∧
    Auth.refreshToken stored = Some refreshToken ∧
    Auth.passwordChangedAt stored = Auth.passwordChangedAt Sample.erin ∧
    Auth.isActive stored = true ∧
    Auth.authenticate Sample.config db'' 1700000060000 (Some accessToken)
      = Ok identity ∧
    Auth._id identity = Auth._id Sample.erin ∧
    Auth.role identity = "moderator" ∧
    Auth.role identity ≠ Auth.role Sample.erin.
Proof.
  do 6 eexists.
  split; [reflexivity|]. split; [vm_compute; reflexivity|].
  split; [vm_compute; reflexivity|].
  split; [vm_compute; reflexivity|].
  split; [reflexivity|]. split; [reflexivity|]. split; [reflexivity|].
  split; [vm_compute; reflexivity|].
  split; [reflexivity|]. split; [reflexivity|]. vm_compute. discriminate.
Qed.

(** C4 -- the access token that [generateTokensAndSetCookies] signs for an
    active user of the collection is accepted by [authenticate] at every
    clock reading within the token's lifetime, and the identity attached to
    the request has the subject's [_id] and [role]: on the collection as the
    issuance left it.  On any later collection in which the subject's
    document is still active with the same [passwordChangedAt] (no
    deactivation and no password change; a cleared refresh token does not
    matter) the token is accepted as well, and the identity has the
    subject's [_id] and the role the document holds then -- the role of the
    issuance when the role was not changed in between. *)
Theorem authenticate_issued_access_token
    (config : Auth.Config) (db : gmap string Auth.User) (stored : Auth.User)
    (withPassword withRefreshToken : bool) (now : Z) :
  db !! Auth._id stored = Some stored →
  Auth.isActive stored = true →
  (∀ getTime, Auth.passwordChangedAt stored = Some getTime → 0 ≤ getTime ≤ now) →
  ∃ accessToken refreshToken db',
    Auth.generateTokensAndSetCookies config db
      (Auth.select withPassword withRefreshToken stored) now
      = Ok (accessToken, refreshToken, db') ∧
    ∀ now', now' `div` 1000 < now `div` 1000 + Auth.accessTokenExpiry config →
      (∃ identity,
         Auth.authenticate config db' now' (Some accessToken) = Ok identity ∧
         Auth._id identity = Auth._id stored ∧
         Auth.role identity = Auth.role stored) ∧
      (∀ (db'' : gmap string Auth.User) r,
         db'' !! Auth._id stored = Some r →
         Auth._id r = Auth._id stored →
         Auth.isActive r = true →
         Auth.passwordChangedAt r = Auth.passwordChangedAt stored →
         ∃ identity,
           Auth.authenticate config db'' now' (Some accessToken) = Ok identity ∧
           Auth._id identity = Auth._id stored ∧
           Auth.role identity = Auth.role r ∧
           (Auth.role r = Auth.role stored →
            Auth.role identity = Auth.role stored)).
Proof.
  intros Hdb Ha Hpc.
  set (user := Auth.select withPassword withRefreshToken stored).
  assert (Hid : Auth._id user = Auth._id stored) by apply select_id.
  do 3 eexists. split.
  { apply generateTokens_stored. rewrite Hid. exact Hdb. }
  intros now' Hlife.
  assert (Hany : ∀ (db'' : gmap string Auth.User) r,
    db'' !! Auth._id stored = Some r →
    Auth._id r = Auth._id stored →
    Auth.isActive r = true →
    Auth.passwordChangedAt r = Auth.passwordChangedAt stored →
    ∃ identity,
      Auth.authenticate config db'' now'
        (Some (Auth.generateAccessToken config user now)) = Ok identity ∧
      Auth._id identity = Auth._id stored ∧
      Auth.role identity = Auth.role r ∧
      (Auth.role r = Auth.role stored → Auth.role identity = Auth.role stored)).
  { intros db'' r Hr Hrid Hract Hrpc.
    rewrite (authenticate_verified _ _ _ _ _
               (verify_access_issued config user now now' Hlife)).
    simpl. rewrite Hid, Hr, Hract.
    assert (Auth.changedPasswordAfter r (now `div` 1000) = false) as ->.
    { unfold Auth.changedPasswordAfter. rewrite Hrpc.
      destruct (Auth.passwordChangedAt stored) as [getTime|] eqn:E; [|done].
      apply bool_decide_eq_false_2. specialize (Hpc getTime eq_refl).
      rewrite Z.quot_div_nonneg by lia.
      pose proof (Z.div_le_mono getTime now 1000). lia. }
    eexists. split; [reflexivity|].
    split; [exact Hrid|]. split; [reflexivity|]. intros Hrole. exact Hrole. }
  split; [|exact Hany].
  destruct (Hany (<[Auth._id user :=
                     Auth.set_refreshToken
                       (Some (Auth.generateRefreshToken config user now)) stored]> db)
              (Auth.set_refreshToken
                 (Some (Auth.generateRefreshToken config user now)) stored))
    as (identity & Hauth & Hidentity & _ & Hrole).
  - rewrite Hid. apply lookup_insert_eq.
  - done.
  - done.
  - done.
  - exists identity. split; [exact Hauth|]. split; [exact Hidentity|]. by apply Hrole.
Qed.

(** Witness for the theorem above: a token pair issued to
    the sample user [alice]. *)
Lemma authenticate_issued_access_token_witness :
  ∃ accessToken refreshToken db',
    Auth.generateTokensAndSetCookies Sample.config Sample.db
      (Auth.select false true Sample.alice) 1700000000500
      = Ok (accessToken, refreshToken, db') ∧
    ∃ identity,
      Auth.authenticate Sample.config db' 1700000899999 (Some accessToken)
        = Ok identity ∧
      Auth._id identity = "64b7f0c2a1" ∧ Auth.role identity = "user".
Proof.
  destruct (authenticate_issued_access_token Sample.config Sample.db Sample.alice
              false true 1700000000500)
    as (accessToken & refreshToken & db' & Hissue & Hverify).
  - vm_compute. reflexivity.
  - reflexivity.
  - intros getTime H. vm_compute in H. discriminate.
  - exists accessToken, refreshToken, db'. split; [exact Hissue|].
    apply (Hverify 1700000899999). vm_compute. reflexivity.
Defined.

(** C5 -- what [authenticate] answers to an access token that [jwt.verify]
    accepts.  When the subject's document has [isActive = false] the answer
    is "User not found or has been deleted": the query middleware
    [pre(/^find/)] hides the document from [findById], so the [isActive]
    test of [authenticate], which would throw [AccountInactive], is never
    reached with a deactivated user -- no call of [authenticate] at all is
    answered [AccountInactive].  When the document is active and
    [changedPasswordAfter] holds of the token's [iat], the answer is
    [StaleCredential]. *)
Theorem authenticate_inactive_or_stale
    (config : Auth.Config) (db : gmap string Auth.User) (now : Z)
    (token : Jwt.Token) (decoded : Jwt.Claims) (u : Auth.User) :
  Jwt.verify token (Auth.accessTokenSecret config) now = Jwt.Decoded decoded →
  db !! Jwt._id decoded = Some u →
  (Auth.isActive u = false →
   Auth.authenticate config db now (Some token) = Throw Auth.UserNotFound ∧
   Auth.authenticate config db now (Some token) ≠ Throw Auth.AccountInactive) ∧
  (Auth.isActive u = true →
   Auth.changedPasswordAfter u (Jwt.iat decoded) = true →
   Auth.authenticate config db now (Some token) = Throw Auth.StaleCredential) ∧
  (∀ (db' : gmap string Auth.User) now' token',
     Auth.authenticate config db' now' token' ≠ Throw Auth.AccountInactive).
Proof.
  intros Hv Hu. split; [|split].
  - rewrite (authenticate_verified _ _ _ _ _ Hv), Hu.
    intros ->. split; [done|]. intros [= H].
  - rewrite (authenticate_verified _ _ _ _ _ Hv), Hu. intros -> ->. done.
  - intros db' now' token'. apply authenticate_never_AccountInactive.
Qed.

(** Witness for the theorem above: [alice] is issued a token
    pair, the token is accepted, the administrator deactivates her account
    ([deleteUser]) and the same token is then answered "User not found or has
    been deleted". *)
Lemma authenticate_inactive_or_stale_witness :
  ∃ accessToken refreshToken db1 db2,
    Auth.generateTokensAndSetCookies Sample.config Sample.db Sample.alice
      1700000000500 = Ok (accessToken, refreshToken, db1) ∧
    isOk (Auth.authenticate Sample.config db1 1700000001000 (Some accessToken))
      = true ∧
    Auth.deleteUser db1 Sample.root "64b7f0c2a1" = Ok db2 ∧
    Auth.authenticate Sample.config db2 1700000002000 (Some accessToken)
      = Throw Auth.UserNotFound ∧
    Auth.authenticate Sample.config db2 1700000002000 (Some accessToken)
      ≠ Throw Auth.AccountInactive.
Proof.
  do 4 eexists.
  split; [reflexivity|]. split; [vm_compute; reflexivity|].
  split; [reflexivity|].
  eapply (authenticate_inactive_or_stale Sample.config).
  - vm_compute. reflexivity.
  - vm_compute. reflexivity.
  - reflexivity.
Defined.


(** C1 -- [verifyRefreshToken] has no password-change test: a refresh token
    that [jwt.verify] accepts and that equals the stored one is accepted for
    an active user although [changedPasswordAfter] holds of its [iat], while
    [authenticate] throws [StaleCredential] for an access token of the same
    subject and the same [iat]. *)
Theorem verifyRefreshToken_ignores_password_change
    (config : Auth.Config) (db : gmap string Auth.User) (now : Z)
    (token : Jwt.Token) (decoded : Jwt.Claims) (u : Auth.User) :
  Jwt.verify token (Auth.refreshTokenSecret config) now = Jwt.Decoded decoded →
  db !! Jwt._id decoded = Some u →
  Auth.isActive u = true →
  Auth.refreshToken u = Some token →
  Auth.changedPasswordAfter u (Jwt.iat decoded) = true →
  Auth.verifyRefreshToken config db now (Some token) = Ok (Auth.select false true u) ∧
  Auth.verifyRefreshToken config db now (Some token) ≠ Throw Auth.StaleCredential ∧
  (∀ accessToken decodedA,
     Jwt.verify accessToken (Auth.accessTokenSecret config) now
       = Jwt.Decoded decodedA →
     Jwt._id decodedA = Jwt._id decoded →
     Jwt.iat decodedA = Jwt.iat decoded →
     Auth.authenticate config db now (Some accessToken) =
       Throw Auth.StaleCredential).
Proof.
  intros Hv Hu Ha Ht Hc.
  assert (Hr : Auth.verifyRefreshToken config db now (Some token) =
               Ok (Auth.select false true u)).
  { rewrite (verifyRefreshToken_verified _ _ _ _ _ Hv), Hu, Ha.
    by rewrite bool_decide_eq_true_2. }
  split; [exact Hr|]. split; [by rewrite Hr|].
  intros accessToken decodedA HvA Hid Hiat.
  rewrite (authenticate_verified _ _ _ _ _ HvA), Hid, Hu, Ha, Hiat, Hc. done.
Qed.

(** Witness for the theorem above: [alice] logs in,
    then changes her password a hundred seconds later; after the first
    [save] of [changePassword] (which sets [passwordChangedAt]) and before
    the second (which clears the stored refresh token), the old refresh token
    is still accepted, whereas the old access token is stale. *)
Lemma verifyRefreshToken_ignores_password_change_witness :
  ∃ accessToken refreshToken db1 db2 u,
    Auth.generateTokensAndSetCookies Sample.config Sample.db Sample.alice
      1700000000500 = Ok (accessToken, refreshToken, db1) ∧
    Auth.changePassword_savePassword Sample.hash Sample.compare db1 "64b7f0c2a1"
      "Passw0rd!" "N3wPassw0rd!" 1700000100000 = Ok db2 ∧
    db2 !! "64b7f0c2a1" = Some u ∧
    Auth.passwordChangedAt u = Some 1700000100000 ∧
    Auth.verifyRefreshToken Sample.config db2 1700000100500 (Some refreshToken)
      = Ok (Auth.select false true u) ∧
    Auth.authenticate Sample.config db2 1700000100500 (Some accessToken)
      = Throw Auth.StaleCredential.
Proof.
  do 5 eexists.
  split; [reflexivity|]. split; [vm_compute; reflexivity|].
  split; [vm_compute; reflexivity|]. split; [reflexivity|].
  edestruct (verifyRefreshToken_ignores_password_change Sample.config) as (H1 & _ & H2);
    [| | | | |split; [exact H1|eapply H2]].
  - vm_compute. reflexivity.
  - vm_compute. reflexivity.
  - reflexivity.
  - reflexivity.
  - vm_compute. reflexivity.
  - vm_compute. reflexivity.
  - reflexivity.
  - reflexivity.
Defined.

(** ** Rotation and revocation of the refresh token *)

Section RefreshProperties.

Import Auth.

Variable config : Config.

Lemma verifyRefreshToken_Ok db now token u :
  verifyRefreshToken config db now (Some token) = Ok u →
  ∃ decoded stored,
    Jwt.verify token (refreshTokenSecret config) now = Jwt.Decoded decoded ∧
    db !! Jwt._id decoded = Some stored ∧
    isActive stored = true ∧
    refreshToken stored = Some token ∧
    u = select false true stored.
Proof.
  unfold verifyRefreshToken.
  destruct (Jwt.truthy token); simpl; [|done].
  destruct (Jwt.verify token _ now) as [decoded| |] eqn:Hv; [|done..].
  destruct (findById db (Jwt._id decoded)) as [stored|] eqn:Hf; simpl; [|done].
  apply findById_Some in Hf as [Hs Ha].
  rewrite Ha. simpl.
  case_bool_decide as Hne; [done|]. intros [= <-].
  exists decoded, stored. repeat split; try done.
Qed.

Lemma verifyRefreshToken_mismatch db now token decoded u :
  Jwt.verify token (refreshTokenSecret config) now = Jwt.Decoded decoded →
  db !! Jwt._id decoded = Some u →
  isActive u = true →
  refreshToken u ≠ Some token →
  verifyRefreshToken config db now (Some token) = Throw RevokedCredential.
Proof.
  intros Hv Hu Ha Hne.
  rewrite (verifyRefreshToken_verified _ _ _ _ _ Hv), Hu, Ha.
  by rewrite bool_decide_eq_false_2.
Qed.

Lemma verifyRefreshToken_match db now token decoded u :
  Jwt.verify token (refreshTokenSecret config) now = Jwt.Decoded decoded →
  db !! Jwt._id decoded = Some u →
  isActive u = true →
  refreshToken u = Some token →
  verifyRefreshToken config db now (Some token) = Ok (select false true u).
Proof.
  intros Hv Hu Ha He.
  rewrite (verifyRefreshToken_verified _ _ _ _ _ Hv), Hu, Ha.
  by rewrite bool_decide_eq_true_2.
Qed.

Lemma logout_lookup db userId u :
  db !! userId = Some u → isActive u = true →
  logout db userId !! userId = Some (set_refreshToken None u).
Proof.
  intros Hu Ha. unfold logout. fold (findById db userId).
  rewrite (proj2 (findById_Some db userId u)) by done.
  apply lookup_insert_eq.
Qed.

End RefreshProperties.

(** C2 (counterexample) -- the refresh token is a function of the subject
    and of the second in which it is signed.  [alice] logs in at
    1 700 000 000 100 ms and redeems her refresh token 800 ms later, in the
    same second: the rotation stores the byte-identical token, so the token
    just redeemed is accepted again -- seconds later and once more. *)
Lemma refresh_token_redeemed_twice :
  ∃ accessToken refreshToken db1 accessToken' refreshToken' db2 u,
    Auth.generateTokensAndSetCookies Sample.config Sample.db Sample.alice
      1700000000100 = Ok (accessToken, refreshToken, db1) ∧
    Auth.refreshEndpoint Sample.config db1 1700000000900 (Some refreshToken)
      = Ok (accessToken', refreshToken', db2) ∧
    refreshToken' = refreshToken ∧
    Auth.verifyRefreshToken Sample.config db2 1700000005000 (Some refreshToken)
      = Ok u ∧
    Auth.verifyRefreshToken Sample.config db2 1700000005000 (Some refreshToken)
      ≠ Throw Auth.RevokedCredential ∧
    isOk (Auth.refreshEndpoint Sample.config db2 1700000005000 (Some refreshToken))
      = true.
Proof.
  do 7 eexists.
  split; [reflexivity|]. split; [vm_compute; reflexivity|].
  split; [reflexivity|]. split; [vm_compute; reflexivity|].
  split; [vm_compute; discriminate|]. vm_compute. reflexivity.
Qed.

(** C2 -- on a collection that stores every document under its [_id], for
    refresh tokens that [jwt.verify] accepts and subjects whose document is
    found (active):
    - [verifyRefreshToken] throws [RevokedCredential] when the presented
      token differs from the stored one and succeeds when it equals it, so
      at most one refresh token per subject is accepted;
    - [generateTokensAndSetCookies] overwrites the stored token of its user
      and touches no other document;
    - a stored token redeemed in a later second than it was signed is
      replaced by a different one, and every later [verifyRefreshToken] of
      the redeemed token, while it has not expired, throws
      [RevokedCredential]; redeemed within the second in which it was signed
      it is replaced by itself and stays accepted during its lifetime;
    - after [logout] every [verifyRefreshToken] for the subject throws
      [RevokedCredential], until the next issuance, whose refresh token is
      accepted during its lifetime. *)
Theorem refresh_token_rotation (config : Auth.Config) (db : gmap string Auth.User) :
  Auth.wellKeyed db →
  (∀ now token decoded u,
     Jwt.verify token (Auth.refreshTokenSecret config) now = Jwt.Decoded decoded →
     db !! Jwt._id decoded = Some u → Auth.isActive u = true →
     (Auth.refreshToken u ≠ Some token →
      Auth.verifyRefreshToken config db now (Some token)
        = Throw Auth.RevokedCredential) ∧
     (Auth.refreshToken u = Some token →
      Auth.verifyRefreshToken config db now (Some token)
        = Ok (Auth.select false true u))) ∧
  (∀ now t1 t2 d1 d2 u1 u2,
     Jwt.verify t1 (Auth.refreshTokenSecret config) now = Jwt.Decoded d1 →
     Jwt.verify t2 (Auth.refreshTokenSecret config) now = Jwt.Decoded d2 →
     Jwt._id d1 = Jwt._id d2 →
     Auth.verifyRefreshToken config db now (Some t1) = Ok u1 →
     Auth.verifyRefreshToken config db now (Some t2) = Ok u2 →
     t1 = t2) ∧
  (∀ user now stored,
     db !! Auth._id user = Some stored →
     ∃ accessToken refreshToken db',
       Auth.generateTokensAndSetCookies config db user now
         = Ok (accessToken, refreshToken, db') ∧
       db' !! Auth._id user
         = Some (Auth.set_refreshToken (Some refreshToken) stored) ∧
       ∀ id, id ≠ Auth._id user → db' !! id = db !! id) ∧
  (∀ now1 token decoded u,
     Jwt.verify token (Auth.refreshTokenSecret config) now1 = Jwt.Decoded decoded →
     db !! Jwt._id decoded = Some u → Auth.isActive u = true →
     Auth.refreshToken u = Some token →
     Jwt.iat decoded < now1 `div` 1000 →
     ∃ accessToken refreshToken db',
       Auth.refreshEndpoint config db now1 (Some token)
         = Ok (accessToken, refreshToken, db') ∧
       refreshToken ≠ token ∧
       ∀ now2,
         Jwt.verify token (Auth.refreshTokenSecret config) now2
           = Jwt.Decoded decoded →
         Auth.verifyRefreshToken config db' now2 (Some token)
           = Throw Auth.RevokedCredential) ∧
  (∀ userId u,
     db !! userId = Some u → Auth.isActive u = true →
     (∀ now token decoded,
        Jwt.verify token (Auth.refreshTokenSecret config) now = Jwt.Decoded decoded →
        Jwt._id decoded = userId →
        Auth.verifyRefreshToken config (Auth.logout db userId) now (Some token)
          = Throw Auth.RevokedCredential) ∧
     (∀ withPassword withRefreshToken now,
      ∃ accessToken refreshToken db',
        Auth.generateTokensAndSetCookies config (Auth.logout db userId)
          (Auth.select withPassword withRefreshToken u) now
          = Ok (accessToken, refreshToken, db') ∧
        ∀ now', now' `div` 1000 < now `div` 1000 + Auth.refreshTokenExpiry config →
          isOk (Auth.verifyRefreshToken config db' now' (Some refreshToken))
            = true)) ∧
  (∀ signedAt now1 u,
     db !! Auth._id u = Some u → Auth.isActive u = true →
     Auth.refreshToken u = Some (Auth.generateRefreshToken config u signedAt) →
     now1 `div` 1000 = signedAt `div` 1000 →
     0 < Auth.refreshTokenExpiry config →
     ∃ accessToken db',
       Auth.refreshEndpoint config db now1
         (Some (Auth.generateRefreshToken config u signedAt))
         = Ok (accessToken, Auth.generateRefreshToken config u signedAt, db') ∧
       ∀ now2,
         now2 `div` 1000 < signedAt `div` 1000 + Auth.refreshTokenExpiry config →
         isOk (Auth.verifyRefreshToken config db' now2
                 (Some (Auth.generateRefreshToken config u signedAt))) = true).
Proof.
  intros Hwk. split; [|split; [|split; [|split; [|split]]]].
  - intros now token decoded u Hv Hu Ha. split; intros H.
    + by apply (verifyRefreshToken_mismatch config db now token decoded u).
    + by apply (verifyRefreshToken_match config db now token decoded u).
  - intros now t1 t2 d1 d2 u1 u2 Hv1 Hv2 Hid H1 H2.
    apply verifyRefreshToken_Ok in H1 as (d1' & s1 & Hv1' & Hs1 & _ & Ht1 & _).
    apply verifyRefreshToken_Ok in H2 as (d2' & s2 & Hv2' & Hs2 & _ & Ht2 & _).
    rewrite Hv1 in Hv1'. rewrite Hv2 in Hv2'.
    injection Hv1' as <-. injection Hv2' as <-.
    rewrite Hid in Hs1. congruence.
  - intros user now stored Hs. do 3 eexists.
    split; [by apply generateTokens_stored|].
    split; [apply lookup_insert_eq|].
    intros id Hne. by apply lookup_insert_ne.
  - intros now1 token decoded u Hv Hu Ha Ht Hiat.
    pose proof (Hwk _ _ Hu) as Hkey.
    unfold Auth.refreshEndpoint, Auth.refreshAccessToken.
    rewrite (verifyRefreshToken_match config db now1 token decoded u) by done.
    assert (Hsel : Auth._id (Auth.select false true u) = Jwt._id decoded)
      by (by rewrite select_id).
    do 3 eexists. split.
    { apply (generateTokens_stored config db _ now1 u). by rewrite Hsel. }
    apply verify_Decoded in Hv as Hv'. destruct Hv' as [-> _].
    assert (Hne : Auth.generateRefreshToken config (Auth.select false true u) now1
                  ≠ Jwt.Signed (Auth.refreshTokenSecret config) decoded).
    { unfold Auth.generateRefreshToken, Jwt.sign. intros [= H].
      rewrite <- H in Hiat. simpl in Hiat. lia. }
    split; [exact Hne|].
    intros now2 Hv2.
    apply (verifyRefreshToken_mismatch config _ now2 _ decoded
             (Auth.set_refreshToken
                (Some (Auth.generateRefreshToken config
                         (Auth.select false true u) now1)) u)).
    + done.
    + rewrite Hsel. apply lookup_insert_eq.
    + done.
    + cbn [Auth.refreshToken Auth.set_refreshToken]. intros H. apply Hne. congruence.
  - intros userId u Hu Ha. split.
    + intros now token decoded Hv Hid.
      apply (verifyRefreshToken_mismatch config _ now token decoded
               (Auth.set_refreshToken None u)).
      * done.
      * rewrite Hid. by apply logout_lookup.
      * done.
      * done.
    + intros wp wr now.
      pose proof (Hwk _ _ Hu) as Hkey.
      assert (Hsel : Auth._id (Auth.select wp wr u) = userId)
        by (by rewrite select_id).
      do 3 eexists. split.
      { apply (generateTokens_stored config _ _ now (Auth.set_refreshToken None u)).
        rewrite Hsel. by apply logout_lookup. }
      intros now' Hlife.
      rewrite (verifyRefreshToken_match config _ now' _ _
                 (Auth.set_refreshToken
                    (Some (Auth.generateRefreshToken config
                             (Auth.select wp wr u) now))
                    (Auth.set_refreshToken None u))
                 (verify_refresh_issued config _ now now' Hlife));
        [done| |done|done].
      simpl. rewrite Hsel. apply lookup_insert_eq.
  - intros signedAt now1 u Hu Ha Ht Hsame Hexp.
    set (token := Auth.generateRefreshToken config u signedAt).
    assert (Hv : ∀ now2,
              now2 `div` 1000 < signedAt `div` 1000 + Auth.refreshTokenExpiry config →
              Jwt.verify token (Auth.refreshTokenSecret config) now2 =
                Jwt.Decoded (Jwt.mkClaims (Auth._id u) None None
                               (signedAt `div` 1000)
                               (signedAt `div` 1000 + Auth.refreshTokenExpiry config)))
      by (intros now2 H; by apply verify_refresh_issued).
    assert (Hnew : Auth.generateRefreshToken config (Auth.select false true u) now1
                   = token).
    { unfold token, Auth.generateRefreshToken, Jwt.sign.
      rewrite Hsame. reflexivity. }
    unfold Auth.refreshEndpoint, Auth.refreshAccessToken.
    rewrite (verifyRefreshToken_match config db now1 token _ u (Hv now1 ltac:(lia)))
      by done.
    do 2 eexists. split.
    { rewrite (generateTokens_stored config db _ now1 u)
        by (by rewrite select_id).
      rewrite Hnew. reflexivity. }
    intros now2 Hlife.
    rewrite (verifyRefreshToken_match config _ now2 token _
               (Auth.set_refreshToken (Some token) u) (Hv now2 Hlife));
      [done| |done|done].
    simpl. apply lookup_insert_eq.
Qed.

(** Witness for the theorem above: [alice] logs in, redeems her refresh
    token a minute later and presents the redeemed token once more. *)
Lemma refresh_token_rotation_witness :
  Auth.generateTokensAndSetCookies Sample.config Sample.db Sample.alice
    1700000000100
    = Ok (Sample.aliceAccessToken, Sample.aliceRefreshToken, Sample.loggedIn) ∧
  Auth.wellKeyed Sample.loggedIn ∧
  ∃ accessToken refreshToken db',
    Auth.refreshEndpoint Sample.config Sample.loggedIn 1700000060000
      (Some Sample.aliceRefreshToken) = Ok (accessToken, refreshToken, db') ∧
    refreshToken ≠ Sample.aliceRefreshToken ∧
    Auth.verifyRefreshToken Sample.config db' 1700000061000
      (Some Sample.aliceRefreshToken) = Throw Auth.RevokedCredential.
Proof.
  assert (Hwk : Auth.wellKeyed Sample.loggedIn)
    by (apply (bool_decide_unpack _); vm_compute; exact I).
  split; [reflexivity|]. split; [exact Hwk|].
  destruct (refresh_token_rotation Sample.config Sample.loggedIn Hwk)
    as (_ & _ & _ & Hreplay & _).
  edestruct (Hreplay 1700000060000 Sample.aliceRefreshToken)
    as (accessToken & refreshToken & db' & H1 & H2 & H3).
  - vm_compute. reflexivity.
  - vm_compute. reflexivity.
  - reflexivity.
  - reflexivity.
  - vm_compute. reflexivity.
  - exists accessToken, refreshToken, db'. split; [exact H1|]. split; [exact H2|].
    apply H3. vm_compute. reflexivity.
Defined.

(** C6 (counterexample) -- two refresh requests present [alice]'s stored
    refresh token.  Each request is [verifyRefreshToken] (a read of the
    collection), then [refreshAccessToken] (a [save]); requests interleave at
    these points.  When both reads come first, both requests pass the
    middleware and both are then answered with a token pair whose access
    token [authenticate] accepts. *)
Lemma concurrent_refresh_both_succeed :
  ∃ userA userB accessA refreshA dbA accessB refreshB dbB,
    Auth.verifyRefreshToken Sample.config Sample.loggedIn 1700000060000
      (Some Sample.aliceRefreshToken) = Ok userA ∧
    Auth.verifyRefreshToken Sample.config Sample.loggedIn 1700000060001
      (Some Sample.aliceRefreshToken) = Ok userB ∧
    Auth.refreshAccessToken Sample.config Sample.loggedIn userA 1700000060002
      = Ok (accessA, refreshA, dbA) ∧
    Auth.refreshAccessToken Sample.config dbA userB 1700000061003
      = Ok (accessB, refreshB, dbB) ∧
    isOk (Auth.authenticate Sample.config dbB 1700000062000 (Some accessA)) = true ∧
    isOk (Auth.authenticate Sample.config dbB 1700000062000 (Some accessB)) = true.
Proof.
  do 8 eexists.
  split; [vm_compute; reflexivity|]. split; [vm_compute; reflexivity|].
  split; [vm_compute; reflexivity|]. split; [vm_compute; reflexivity|].
  split; vm_compute; reflexivity.
Qed.

(** C6 -- [logout] clears the stored refresh token in one update operation
    of the store.  The refresh endpoint, however, writes the new token by
    saving a document that [verifyRefreshToken] read earlier, with no
    comparison against the stored value at the time of the write: whenever
    two requests have both passed [verifyRefreshToken] with the same token on
    the same collection, both [refreshAccessToken] calls succeed, in either
    order of the clock readings, and the second [save] decides the stored
    token.  Only a request whose [verifyRefreshToken] runs after the other
    request's [save] of a different token is rejected with
    [RevokedCredential]. *)
Theorem refresh_is_read_then_write
    (config : Auth.Config) (db : gmap string Auth.User) (token : Jwt.Token)
    (nowA nowB : Z) (userA userB : Auth.User) :
  Auth.wellKeyed db →
  Auth.verifyRefreshToken config db nowA (Some token) = Ok userA →
  Auth.verifyRefreshToken config db nowB (Some token) = Ok userB →
  (∀ nowA' nowB',
   ∃ accessA refreshA dbA accessB refreshB dbB,
     Auth.refreshAccessToken config db userA nowA' = Ok (accessA, refreshA, dbA) ∧
     Auth.refreshAccessToken config dbA userB nowB' = Ok (accessB, refreshB, dbB) ∧
     Auth.refreshToken <$> dbB !! Auth._id userB = Some (Some refreshB) ∧
     (refreshA ≠ token →
      Auth.verifyRefreshToken config dbA nowB (Some token)
        = Throw Auth.RevokedCredential)) ∧
  (∀ userId u, db !! userId = Some u → Auth.isActive u = true →
     Auth.logout db userId = <[userId := Auth.set_refreshToken None u]> db).
Proof.
  intros Hwk HA HB.
  apply verifyRefreshToken_Ok in HA as (dA & sA & HvA & HsA & HaA & HtA & ->).
  apply verifyRefreshToken_Ok in HB as (dB & sB & HvB & HsB & HaB & HtB & ->).
  apply verify_Decoded in HvA as HvA'. destruct HvA' as [Htok _].
  apply verify_Decoded in HvB as HvB'. destruct HvB' as [Htok' _].
  assert (dB = dA) as -> by congruence.
  assert (sB = sA) as -> by congruence.
  pose proof (Hwk _ _ HsA) as Hkey. simpl in Hkey.
  split.
  - intros nowA' nowB'.
    assert (Hsel : Auth._id (Auth.select false true sA) = Jwt._id dA)
      by (by rewrite select_id).
    do 6 eexists. split.
    { apply (generateTokens_stored config db _ nowA' sA). by rewrite Hsel. }
    split.
    { apply (generateTokens_stored config _ _ nowB').
      rewrite Hsel. apply lookup_insert_eq. }
    split.
    { rewrite Hsel, lookup_insert_eq. reflexivity. }
    intros Hne.
    apply (verifyRefreshToken_mismatch config _ nowB token dA
             (Auth.set_refreshToken
                (Some (Auth.generateRefreshToken config
                         (Auth.select false true sA) nowA')) sA)).
    + done.
    + rewrite Hsel. apply lookup_insert_eq.
    + done.
    + cbn [Auth.refreshToken Auth.set_refreshToken]. intros H. apply Hne. congruence.
  - intros userId u Hu Ha. unfold Auth.logout. fold (Auth.findById db userId).
    by rewrite (proj2 (findById_Some db userId u)).
Qed.

(** Witness for the theorem above: the two interleaved requests of
    [alice]. *)
Lemma refresh_is_read_then_write_witness :
  ∃ accessA refreshA dbA accessB refreshB dbB,
    Auth.refreshAccessToken Sample.config Sample.loggedIn
      (Auth.select false true
         (Auth.set_refreshToken (Some Sample.aliceRefreshToken) Sample.alice))
      1700000060002 = Ok (accessA, refreshA, dbA) ∧
    Auth.refreshAccessToken Sample.config dbA
      (Auth.select false true
         (Auth.set_refreshToken (Some Sample.aliceRefreshToken) Sample.alice))
      1700000061003 = Ok (accessB, refreshB, dbB) ∧
    Auth.refreshToken <$> dbB !! "64b7f0c2a1" = Some (Some refreshB).
Proof.
  edestruct (refresh_is_read_then_write Sample.config Sample.loggedIn
               Sample.aliceRefreshToken 1700000060000 1700000060001)
    as [Hrace _].
  - apply (bool_decide_unpack _). vm_compute. exact I.
  - vm_compute. reflexivity.
  - vm_compute. reflexivity.
  - destruct (Hrace 1700000060002 1700000061003)
      as (accessA & refreshA & dbA & accessB & refreshB & dbB & H1 & H2 & H3 & _).
    exists accessA, refreshA, dbA, accessB, refreshB, dbB.
    split; [exact H1|]. split; [exact H2|exact H3].
Defined.

(** ** Authorization *)

(** C8 (counterexample) -- [isOwnerOrAdmin] has no required-role set: the
    only role it lets through is "admin".  A moderator who is not the owner
    is refused although "moderator" is in the required set, so the decision
    is not "owner or role in the required set" for every set. *)
Lemma isOwnerOrAdmin_ignores_required_roles :
  ¬ (∀ (identity : Auth.User) (resourceOwnerId : string) (requiredRoles : list string),
       Auth.isOwnerOrAdmin "id"
         (Auth.mkRequest (Some identity) {[ "id" := resourceOwnerId ]}) = Ok tt
       ↔ Auth._id identity = resourceOwnerId ∨ Auth.role identity ∈ requiredRoles).
Proof.
  intros H.
  specialize (H (Auth.mkUser "64b7f0c2b2" "mod@example.com" None "moderator"
                   true None None)
                "64b7f0c2a1" ["moderator"]).
  destruct H as [_ H].
  assert (Hok : Auth.isOwnerOrAdmin "id"
            (Auth.mkRequest
               (Some (Auth.mkUser "64b7f0c2b2" "mod@example.com" None "moderator"
                        true None None))
               {[ "id" := "64b7f0c2a1" ]}) = Ok tt).
  { apply H. right. simpl. apply list_elem_of_singleton. reflexivity. }
  vm_compute in Hok. discriminate.
Qed.

(** C8 -- [isOwnerOrAdmin paramName] lets an authenticated request through
    exactly when the user's [_id] equals the route parameter or the user's
    role is "admin", that is, owner or [authorize('admin')]; otherwise it
    throws [Forbidden].  It reads [req.user] and [req.params] only: without
    an attached user it throws "Authentication required".  [authorize] lets
    through exactly the users whose role is one of the allowed roles. *)
Theorem isOwnerOrAdmin_owner_or_admin (paramName : string) (req : Auth.Request) :
  (Auth.isOwnerOrAdmin paramName req = Ok tt ↔
   ∃ identity, Auth.user req = Some identity ∧
     (Auth.params req !! paramName = Some (Auth._id identity) ∨
      Auth.role identity = "admin")) ∧
  (∀ identity, Auth.user req = Some identity →
     (Auth.isOwnerOrAdmin paramName req = Ok tt ↔
      Auth.params req !! paramName = Some (Auth._id identity) ∨
      Auth.authorize ["admin"] req = Ok tt) ∧
     (Auth.isOwnerOrAdmin paramName req ≠ Ok tt →
      Auth.isOwnerOrAdmin paramName req = Throw Auth.Forbidden) ∧
     (∀ allowedRoles,
        Auth.authorize allowedRoles req = Ok tt ↔
        Auth.role identity ∈ allowedRoles)) ∧
  (Auth.user req = None →
   Auth.isOwnerOrAdmin paramName req =
     Throw (ApiError.unauthorized "Authentication required")).
Proof.
  assert (Hauth : ∀ identity allowedRoles, Auth.user req = Some identity →
            (Auth.authorize allowedRoles req = Ok tt ↔
             Auth.role identity ∈ allowedRoles)).
  { intros identity allowedRoles Hu. unfold Auth.authorize. rewrite Hu.
    case_bool_decide; simpl; split; (done || by intros ?). }
  assert (Hown : ∀ identity, Auth.user req = Some identity →
            (Auth.isOwnerOrAdmin paramName req = Ok tt ↔
             Auth.params req !! paramName = Some (Auth._id identity) ∨
             Auth.role identity = "admin")).
  { intros identity Hu. unfold Auth.isOwnerOrAdmin. rewrite Hu.
    repeat case_bool_decide; simpl; split; try done; try (by intros ?);
      try (by intros; left); try (by intros; right).
    intros [?|?]; congruence. }
  split; [|split].
  - split.
    + intros H. destruct (Auth.user req) as [identity|] eqn:Hu.
      * exists identity. split; [done|]. by apply Hown.
      * unfold Auth.isOwnerOrAdmin in H. by rewrite Hu in H.
    + intros (identity & Hu & H). by apply (Hown identity).
  - intros identity Hu. split; [|split].
    + rewrite (Hown identity Hu), (Hauth identity ["admin"] Hu).
      by rewrite list_elem_of_singleton.
    + unfold Auth.isOwnerOrAdmin. rewrite Hu.
      by destruct (negb _ && negb _).
    + intros allowedRoles. by apply Hauth.
  - intros Hu. unfold Auth.isOwnerOrAdmin. by rewrite Hu.
Qed.

(** Witness for the theorem above: [alice] may read her own
    resource, and [root] may read it as administrator. *)
Lemma isOwnerOrAdmin_owner_or_admin_witness :
  Auth.isOwnerOrAdmin "id"
    (Auth.mkRequest (Some Sample.alice) {[ "id" := "64b7f0c2a1" ]}) = Ok tt ∧
  Auth.isOwnerOrAdmin "id"
    (Auth.mkRequest (Some Sample.root) {[ "id" := "64b7f0c2a1" ]}) = Ok tt.
Proof.
  split.
  - apply (isOwnerOrAdmin_owner_or_admin "id"
             (Auth.mkRequest (Some Sample.alice) {[ "id" := "64b7f0c2a1" ]})).
    exists Sample.alice. split; [reflexivity|]. left. vm_compute. reflexivity.
  - apply (isOwnerOrAdmin_owner_or_admin "id"
             (Auth.mkRequest (Some Sample.root) {[ "id" := "64b7f0c2a1" ]})).
    exists Sample.root. split; [reflexivity|]. right. reflexivity.
Defined.

(** ** The read-through cache *)

Section CacheProperties.

Import Cache.


Lemma get_miss this redis now key :
  usable this = false ∨ redisGet redis now (getKey this key) = None →
  get this redis now key = JNull.
Proof.
  intros [Hu|Hg]; unfold get.
  - by rewrite Hu.
  - rewrite Hg. by destruct (negb (usable this)).
Qed.

Lemma redisGet_delete redis now key : redisGet (delete key redis) now key = None.
Proof. unfold redisGet. by rewrite lookup_delete_eq. Qed.

Section Pattern.

Variable glob : string → string → bool.




End Pattern.

End CacheProperties.




(** * Further properties of the code *)

(** ** auth.middleware.js *)

Section MoreAuthProperties.

Import Auth.

Variable config : Config.

Lemma authenticate_Ok db now tok u :
  authenticate config db now tok = Ok u ↔
  ∃ token decoded stored,
    tok = Some token ∧
    Jwt.verify token (accessTokenSecret config) now = Jwt.Decoded decoded ∧
    db !! Jwt._id decoded = Some stored ∧
    isActive stored = true ∧
    changedPasswordAfter stored (Jwt.iat decoded) = false ∧
    u = select false false stored.
Proof.
  split.
  - unfold authenticate. destruct tok as [token|]; [|done].
    destruct (Jwt.truthy token); simpl; [|done].
    destruct (Jwt.verify token _ now) as [decoded| |] eqn:Hv; [|done..].
    destruct (findById db (Jwt._id decoded)) as [stored|] eqn:Hf; simpl; [|done].
    apply findById_Some in Hf as [Hs Ha]. rewrite Ha. simpl.
    destruct (changedPasswordAfter _ (Jwt.iat decoded)) eqn:Hc; [done|].
    intros [= <-]. by exists token, decoded, stored.
  - intros (token & decoded & stored & -> & Hv & Hs & Ha & Hc & ->).
    by rewrite (authenticate_verified _ _ _ _ _ Hv), Hs, Ha, Hc.
Qed.

Lemma optionalAuth_Some db now tok u :
  optionalAuth config db now tok = Some u ↔
  ∃ token decoded stored,
    tok = Some token ∧
    Jwt.verify token (accessTokenSecret config) now = Jwt.Decoded decoded ∧
    db !! Jwt._id decoded = Some stored ∧
    isActive stored = true ∧
    u = select false false stored.
Proof.
  split.
  - unfold optionalAuth. destruct tok as [token|]; [|done].
    destruct (Jwt.truthy token); simpl; [|done].
    destruct (Jwt.verify token _ now) as [decoded| |] eqn:Hv; [|done..].
    destruct (findById db (Jwt._id decoded)) as [stored|] eqn:Hf; simpl; [|done].
    apply findById_Some in Hf as [Hs Ha]. rewrite Ha.
    intros [= <-]. by exists token, decoded, stored.
  - intros (token & decoded & stored & -> & Hv & Hs & Ha & ->).
    unfold optionalAuth. rewrite (verify_truthy _ _ _ _ Hv), Hv. simpl.
    rewrite (proj2 (findById_Some db _ stored)) by done. simpl. by rewrite Ha.
Qed.

(** [authenticate] reads of a document only what [select false false]
    leaves: two collections that agree on that view get the same answer. *)
Lemma authenticate_ext db1 db2 now tok :
  (∀ id, select false false <$> db1 !! id = select false false <$> db2 !! id) →
  authenticate config db1 now tok = authenticate config db2 now tok.
Proof.
  intros H. unfold authenticate. destruct tok as [token|]; [|done].
  destruct (Jwt.truthy token); simpl; [|done].
  destruct (Jwt.verify token _ now) as [decoded| |] eqn:Hv; [|done..].
  assert (Hf : select false false <$> findById db1 (Jwt._id decoded) =
               select false false <$> findById db2 (Jwt._id decoded)).
  { specialize (H (Jwt._id decoded)).
    unfold findById, findOne, preFind. simpl.
    destruct (db1 !! Jwt._id decoded) as [u1|], (db2 !! Jwt._id decoded) as [u2|];
      try done.
    assert (Hsel : select false false u1 = select false false u2)
      by (apply (inj Some); exact H).
    assert (isActive u1 = isActive u2) as ->
      by (rewrite <- (select_isActive false false u1), Hsel; apply select_isActive).
    destruct (isActive u2); [|done].
    change (Some (select false false u1) = Some (select false false u2)).
    by rewrite Hsel. }
  by rewrite Hf.
Qed.

End MoreAuthProperties.

(** X1 -- [optionalAuth] attaches a user exactly when the token passes
    [jwt.verify] with the access secret and the subject's document is found
    and active; the user it attaches is that document without [password] and
    [refreshToken].  Whatever [authenticate] accepts, [optionalAuth]
    attaches, the same user.  It does not look at [passwordChangedAt]: a
    user whose password changed after the token was signed is attached,
    while [authenticate] answers the same token with [StaleCredential]; and
    these are the only users it attaches beyond those of [authenticate]. *)
Theorem optionalAuth_attaches
    (config : Auth.Config) (db : gmap string Auth.User) (now : Z)
    (token : option Jwt.Token) :
  (∀ u, Auth.optionalAuth config db now token = Some u ↔
        ∃ tok decoded stored,
          token = Some tok ∧
          Jwt.verify tok (Auth.accessTokenSecret config) now = Jwt.Decoded decoded ∧
          db !! Jwt._id decoded = Some stored ∧
          Auth.isActive stored = true ∧
          u = Auth.select false false stored) ∧
  (∀ u, Auth.authenticate config db now token = Ok u →
        Auth.optionalAuth config db now token = Some u) ∧
  (∀ tok decoded stored,
     token = Some tok →
     Jwt.verify tok (Auth.accessTokenSecret config) now = Jwt.Decoded decoded →
     db !! Jwt._id decoded = Some stored →
     Auth.isActive stored = true →
     Auth.changedPasswordAfter stored (Jwt.iat decoded) = true →
     Auth.optionalAuth config db now token = Some (Auth.select false false stored) ∧
     Auth.authenticate config db now token = Throw Auth.StaleCredential) ∧
  (∀ u, Auth.optionalAuth config db now token = Some u →
        Auth.authenticate config db now token = Ok u ∨
        Auth.authenticate config db now token = Throw Auth.StaleCredential).
Proof.
  split; [|split; [|split]].
  - intros u. apply optionalAuth_Some.
  - intros u (tok & decoded & stored & -> & Hv & Hs & Ha & Hc & ->)%authenticate_Ok.
    apply optionalAuth_Some. by exists tok, decoded, stored.
  - intros tok decoded stored -> Hv Hs Ha Hc. split.
    + apply optionalAuth_Some. by exists tok, decoded, stored.
    + by rewrite (authenticate_verified _ _ _ _ _ Hv), Hs, Ha, Hc.
  - intros u (tok & decoded & stored & -> & Hv & Hs & Ha & ->)%optionalAuth_Some.
    rewrite (authenticate_verified _ _ _ _ _ Hv), Hs, Ha.
    destruct (Auth.changedPasswordAfter stored (Jwt.iat decoded)); [by right|by left].
Qed.

(** Witness for the theorem above: a login token of [alice] presented after
    her password changed a hundred seconds later. *)
Lemma optionalAuth_attaches_witness :
  Auth.optionalAuth Sample.config
    {[ "64b7f0c2a1" := Auth.set_passwordChangedAt (Some 1700000100100) Sample.alice ]}
    1700000101000 (Some Sample.aliceAccessToken)
  = Some (Auth.select false false
            (Auth.set_passwordChangedAt (Some 1700000100100) Sample.alice)) ∧
  Auth.authenticate Sample.config
    {[ "64b7f0c2a1" := Auth.set_passwordChangedAt (Some 1700000100100) Sample.alice ]}
    1700000101000 (Some Sample.aliceAccessToken) = Throw Auth.StaleCredential.
Proof.
  destruct (optionalAuth_attaches Sample.config
              {[ "64b7f0c2a1" :=
                   Auth.set_passwordChangedAt (Some 1700000100100) Sample.alice ]}
              1700000101000 (Some Sample.aliceAccessToken)) as (_ & _ & H & _).
  eapply (H Sample.aliceAccessToken).
  - reflexivity.
  - vm_compute. reflexivity.
  - vm_compute. reflexivity.
  - reflexivity.
  - vm_compute. reflexivity.
Defined.

(** X2 -- a token is accepted only by the middleware whose secret signed it.
    When the two secrets differ, [authenticate] answers every refresh token
    of [generateRefreshToken] with "Invalid access token" and
    [verifyRefreshToken] answers every access token of [generateAccessToken]
    with "Invalid refresh token", whatever the collection and the clock.
    When the secrets are equal, [authenticate] accepts the refresh token of
    an active user of the collection during the refresh lifetime. *)
Theorem tokens_are_bound_to_their_secret
    (config : Auth.Config) (db : gmap string Auth.User) (user : Auth.User)
    (now now' : Z) :
  (Auth.accessTokenSecret config ≠ Auth.refreshTokenSecret config →
   Auth.authenticate config db now'
     (Some (Auth.generateRefreshToken config user now))
     = Throw (ApiError.unauthorized "Invalid access token") ∧
   Auth.verifyRefreshToken config db now'
     (Some (Auth.generateAccessToken config user now))
     = Throw (ApiError.unauthorized "Invalid refresh token")) ∧
  (Auth.accessTokenSecret config = Auth.refreshTokenSecret config →
   db !! Auth._id user = Some user → Auth.isActive user = true →
   Auth.passwordChangedAt user = None →
   now' `div` 1000 < now `div` 1000 + Auth.refreshTokenExpiry config →
   Auth.authenticate config db now'
     (Some (Auth.generateRefreshToken config user now))
     = Ok (Auth.select false false user)).
Proof.
  split.
  - intros Hne. split.
    + unfold Auth.authenticate, Auth.generateRefreshToken, Jwt.sign, Jwt.verify.
      simpl. by rewrite bool_decide_eq_false_2 by congruence.
    + unfold Auth.verifyRefreshToken, Auth.generateAccessToken, Jwt.sign, Jwt.verify.
      simpl. by rewrite bool_decide_eq_false_2.
  - intros Heq Hu Ha Hp Hlife.
    apply authenticate_Ok.
    exists (Auth.generateRefreshToken config user now),
           (Jwt.mkClaims (Auth._id user) None None (now `div` 1000)
              (now `div` 1000 + Auth.refreshTokenExpiry config)), user.
    split; [done|]. split.
    { rewrite Heq. by apply verify_refresh_issued. }
    split; [done|]. split; [done|]. split; [|done].
    unfold Auth.changedPasswordAfter. by rewrite Hp.
Qed.

(** Witness for the theorem above: the sample configuration has two
    secrets. *)
Lemma tokens_are_bound_to_their_secret_witness :
  (Auth.authenticate Sample.config Sample.loggedIn 1700000001000
     (Some Sample.aliceRefreshToken)
     = Throw (ApiError.unauthorized "Invalid access token") ∧
   Auth.verifyRefreshToken Sample.config Sample.loggedIn 1700000001000
     (Some Sample.aliceAccessToken)
     = Throw (ApiError.unauthorized "Invalid refresh token")) ∧
  Auth.authenticate (Auth.mkConfig "one-secret" 900 "one-secret" 604800)
    Sample.db 1700000001000
    (Some (Auth.generateRefreshToken
             (Auth.mkConfig "one-secret" 900 "one-secret" 604800)
             Sample.alice 1700000000100))
    = Ok (Auth.select false false Sample.alice).
Proof.
  split.
  - apply (tokens_are_bound_to_their_secret Sample.config Sample.loggedIn
             Sample.alice 1700000000100 1700000001000).
    vm_compute. discriminate.
  - apply (tokens_are_bound_to_their_secret
             (Auth.mkConfig "one-secret" 900 "one-secret" 604800) Sample.db
             Sample.alice 1700000000100 1700000001000).
    + reflexivity.
    + vm_compute. reflexivity.
    + reflexivity.
    + reflexivity.
    + vm_compute. reflexivity.
Defined.

(** X3 -- expiry is decided on the token alone, before the collection is
    consulted, and in whole seconds: the access token signed at [now] is
    answered "Access token has expired" exactly from the second
    [floor(now / 1000) + accessTokenExpiry] on, and the refresh token
    "Refresh token has expired. Please login again" exactly from
    [floor(now / 1000) + refreshTokenExpiry] on, whatever the collection
    holds. *)
Theorem expiry_is_checked_first
    (config : Auth.Config) (db : gmap string Auth.User) (user : Auth.User)
    (now now' : Z) :
  (Auth.authenticate config db now'
     (Some (Auth.generateAccessToken config user now))
     = Throw (ApiError.unauthorized "Access token has expired")
   ↔ now `div` 1000 + Auth.accessTokenExpiry config ≤ now' `div` 1000) ∧
  (Auth.verifyRefreshToken config db now'
     (Some (Auth.generateRefreshToken config user now))
     = Throw (ApiError.unauthorized "Refresh token has expired. Please login again")
   ↔ now `div` 1000 + Auth.refreshTokenExpiry config ≤ now' `div` 1000).
Proof.
  split.
  - destruct (decide (now `div` 1000 + Auth.accessTokenExpiry config
                      ≤ now' `div` 1000)) as [Hle|Hgt].
    + split; [done|]. intros _.
      unfold Auth.authenticate, Auth.generateAccessToken, Jwt.sign, Jwt.verify.
      simpl. rewrite bool_decide_eq_true_2 by done.
      by rewrite bool_decide_eq_true_2.
    + split; [|done]. intros H. exfalso.
      rewrite (authenticate_verified config db now' _ _
                 (verify_access_issued config user now now' ltac:(lia))) in H.
      destruct (db !! _) as [u|]; [|done].
      destruct (Auth.isActive u); [|done].
      by destruct (Auth.changedPasswordAfter u _).
  - destruct (decide (now `div` 1000 + Auth.refreshTokenExpiry config
                      ≤ now' `div` 1000)) as [Hle|Hgt].
    + split; [done|]. intros _.
      unfold Auth.verifyRefreshToken, Auth.generateRefreshToken, Jwt.sign, Jwt.verify.
      simpl. rewrite bool_decide_eq_true_2 by done.
      by rewrite bool_decide_eq_true_2.
    + split; [|done]. intros H. exfalso.
      rewrite (verifyRefreshToken_verified config db now' _ _
                 (verify_refresh_issued config user now now' ltac:(lia))) in H.
      destruct (db !! _) as [u|]; [|done].
      destruct (Auth.isActive u); [|done].
      by case_bool_decide.
Qed.

(** X4 -- [authenticate] fails closed.  It accepts exactly the tokens that
    [jwt.verify] accepts under the access secret and whose subject's document
    is in the collection, active and without a password change after the
    token's [iat]; the user it attaches is that document without [password]
    and [refreshToken]; and every [ApiError] it throws has status 401.
    [verifyRefreshToken] likewise accepts exactly the stored refresh token of
    an active user, attaches the document without [password], and throws no
    [ApiError] but a 401. *)
Theorem authentication_fails_closed
    (config : Auth.Config) (db : gmap string Auth.User) (now : Z)
    (token : option Jwt.Token) :
  (∀ u, Auth.authenticate config db now token = Ok u ↔
     ∃ tok decoded stored,
       token = Some tok ∧
       Jwt.verify tok (Auth.accessTokenSecret config) now = Jwt.Decoded decoded ∧
       db !! Jwt._id decoded = Some stored ∧
       Auth.isActive stored = true ∧
       Auth.changedPasswordAfter stored (Jwt.iat decoded) = false ∧
       u = Auth.select false false stored) ∧
  (∀ u, Auth.authenticate config db now token = Ok u →
     Auth.password u = None ∧ Auth.refreshToken u = None) ∧
  (∀ e, Auth.authenticate config db now token = Throw e →
     ApiError.statusCode e = 401) ∧
  (∀ u, Auth.verifyRefreshToken config db now token = Ok u ↔
     ∃ tok decoded stored,
       token = Some tok ∧
       Jwt.verify tok (Auth.refreshTokenSecret config) now = Jwt.Decoded decoded ∧
       db !! Jwt._id decoded = Some stored ∧
       Auth.isActive stored = true ∧
       Auth.refreshToken stored = Some tok ∧
       u = Auth.select false true stored) ∧
  (∀ u, Auth.verifyRefreshToken config db now token = Ok u →
     Auth.password u = None) ∧
  (∀ e, Auth.verifyRefreshToken config db now token = Throw e →
     ApiError.statusCode e = 401).
Proof.
  split; [|split; [|split; [|split; [|split]]]].
  - intros u. apply authenticate_Ok.
  - by intros u (tok & decoded & stored & -> & Hv & Hs & Ha & Hc & ->)%authenticate_Ok.
  - intros e. unfold Auth.authenticate. destruct token as [tok|]; [|by intros [= <-]].
    destruct (Jwt.truthy tok); simpl; [|by intros [= <-]].
    destruct (Jwt.verify tok _ now) as [decoded| |]; [|by intros [= <-]..].
    destruct (Auth.findById db _) as [stored|]; simpl; [|by intros [= <-]].
    destruct (Auth.isActive stored); simpl; [|by intros [= <-]].
    destruct (Auth.changedPasswordAfter _ _); [by intros [= <-]|done].
  - intros u. split.
    + destruct token as [tok|]; [|done].
      intros (decoded & stored & Hv & Hs & Ha & Ht & ->)%verifyRefreshToken_Ok.
      by exists tok, decoded, stored.
    + intros (tok & decoded & stored & -> & Hv & Hs & Ha & Ht & ->).
      by apply (verifyRefreshToken_match config db now tok decoded stored).
  - destruct token as [tok|]; [|done].
    by intros u (decoded & stored & Hv & Hs & Ha & Ht & ->)%verifyRefreshToken_Ok.
  - intros e. unfold Auth.verifyRefreshToken.
    destruct token as [tok|]; [|by intros [= <-]].
    destruct (Jwt.truthy tok); simpl; [|by intros [= <-]].
    destruct (Jwt.verify tok _ now) as [decoded| |]; [|by intros [= <-]..].
    destruct (Auth.findById db _) as [stored|]; simpl; [|by intros [= <-]].
    case_bool_decide; [by intros [= <-]|].
    destruct (Auth.isActive stored); simpl; [done|by intros [= <-]].
Qed.

(** Witness for the theorem above: the login of [alice]. *)
Lemma authentication_fails_closed_witness :
  ∃ decoded stored,
    Jwt.verify Sample.aliceAccessToken (Auth.accessTokenSecret Sample.config)
      1700000001000 = Jwt.Decoded decoded ∧
    Sample.loggedIn !! Jwt._id decoded = Some stored ∧
    Auth.isActive stored = true.
Proof.
  destruct (authentication_fails_closed Sample.config Sample.loggedIn
              1700000001000 (Some Sample.aliceAccessToken)) as (H & _).
  destruct (proj1 (H (Auth.select false false Sample.alice)))
    as (tok & decoded & stored & Htok & Hv & Hs & Ha & _).
  - vm_compute. reflexivity.
  - injection Htok as <-. by exists decoded, stored.
Defined.

(** ** auth.controller.js and user.controller.js *)

Section ControllerProperties.

Import Auth.

Lemma save_Ok db id update db' :
  save db id update = Ok db' ↔
  ∃ stored, db !! id = Some stored ∧ db' = <[id := update stored]> db.
Proof.
  unfold save. destruct (db !! id) as [stored|]; split.
  - intros [= <-]. by exists stored.
  - intros (s & [= <-] & ->). done.
  - done.
  - by intros (s & ? & _).
Qed.

Lemma save_wellKeyed db id update db' :
  (∀ u, _id (update u) = _id u) →
  wellKeyed db → save db id update = Ok db' → wellKeyed db'.
Proof.
  intros Hid Hwk (stored & Hs & ->)%save_Ok.
  apply map_Forall_insert_2; [|done].
  rewrite Hid. by apply (Hwk id stored).
Qed.

Lemma findOne_includeInactive db id :
  findOne db (mkQuery id None true) = db !! id.
Proof. unfold findOne, preFind. simpl. by destruct (db !! id). Qed.

Lemma logout_spec db userId :
  logout db userId =
    match db !! userId with
    | Some u => if isActive u then <[userId := set_refreshToken None u]> db else db
    | None => db
    end.
Proof.
  unfold logout. fold (findById db userId).
  destruct (db !! userId) as [u|] eqn:Hu.
  - destruct (isActive u) eqn:Ha.
    + by rewrite (proj2 (findById_Some db userId u)).
    + by rewrite (findById_inactive db userId u).
  - destruct (findById db userId) as [r|] eqn:E; [|done].
    apply findById_Some in E as [E _]. congruence.
Qed.

Section WithBcrypt.

Variable hash : string → string.
Variable compare : string → string → bool.

Lemma changePassword_Ok db userId currentPassword newPassword now db' :
  changePassword hash compare db userId currentPassword newPassword now = Ok db' ↔
  ∃ stored,
    db !! userId = Some stored ∧ isActive stored = true ∧
    isPasswordCorrect compare stored currentPassword = true ∧
    isPasswordCorrect compare stored newPassword = false ∧
    (8 ≤ String.length newPassword)%nat ∧
    db' = <[userId := set_refreshToken None
                        (set_passwordChangedAt (Some now)
                           (set_password (Some (hash newPassword)) stored))]> db.
Proof.
  unfold changePassword, changePassword_savePassword, changePassword_clearSessions.
  destruct (findById db userId) as [stored|] eqn:Hf; simpl.
  - apply findById_Some in Hf as [Hs Ha].
    change (isPasswordCorrect compare (set_refreshToken None stored) currentPassword)
      with (isPasswordCorrect compare stored currentPassword).
    change (isPasswordCorrect compare (set_refreshToken None stored) newPassword)
      with (isPasswordCorrect compare stored newPassword).
    destruct (isPasswordCorrect compare stored currentPassword) eqn:Hc; simpl.
    + destruct (isPasswordCorrect compare stored newPassword) eqn:Hn; simpl.
      * split; [done|]. intros (s & Hs' & _ & _ & Hn' & _).
        rewrite Hs in Hs'. injection Hs' as <-. congruence.
      * case_bool_decide as Hlen.
        -- split; [done|]. intros (s & _ & _ & _ & _ & Hlen' & _). lia.
        -- unfold save. rewrite Hs, lookup_insert_eq, insert_insert_eq.
           split.
           ++ intros [= <-]. exists stored. repeat split; try done. lia.
           ++ intros (s & [= <-] & _ & _ & _ & _ & ->). done.
    + split; [done|]. intros (s & Hs' & _ & Hc' & _).
      rewrite Hs in Hs'. injection Hs' as <-. congruence.
  - split; [done|]. intros (s & Hs & Ha & _).
    rewrite (proj2 (findById_Some db userId s)) in Hf; done.
Qed.

End WithBcrypt.

End ControllerProperties.

(** X5 -- [logout] clears the stored refresh token of an active user and
    nothing else: no other document changes, a second [logout] changes
    nothing more, an unknown or deactivated user is left as it is, and
    [authenticate] gives the same answer to every token before and after --
    access tokens issued before the logout stay valid until they expire. *)
Theorem logout_only_clears_the_refresh_token
    (db : gmap string Auth.User) (userId : string) :
  (∀ u, db !! userId = Some u → Auth.isActive u = true →
        Auth.logout db userId !! userId = Some (Auth.set_refreshToken None u)) ∧
  (∀ id, id ≠ userId → Auth.logout db userId !! id = db !! id) ∧
  (db !! userId = None → Auth.logout db userId = db) ∧
  (∀ u, db !! userId = Some u → Auth.isActive u = false →
        Auth.logout db userId = db) ∧
  Auth.logout (Auth.logout db userId) userId = Auth.logout db userId ∧
  (∀ config now token,
     Auth.authenticate config (Auth.logout db userId) now token =
     Auth.authenticate config db now token).
Proof.
  split; [|split; [|split; [|split; [|split]]]].
  - intros u Hu Ha. by apply logout_lookup.
  - intros id Hne. rewrite logout_spec.
    destruct (db !! userId) as [u|]; [|done].
    destruct (Auth.isActive u); [|done]. by rewrite lookup_insert_ne.
  - intros Hn. by rewrite logout_spec, Hn.
  - intros u Hu Ha. by rewrite logout_spec, Hu, Ha.
  - rewrite (logout_spec (Auth.logout db userId)), logout_spec.
    destruct (db !! userId) as [u|] eqn:Hu.
    + destruct (Auth.isActive u) eqn:Ha.
      * rewrite lookup_insert_eq. simpl. rewrite Ha.
        by rewrite insert_insert_eq.
      * by rewrite Hu, Ha.
    + by rewrite Hu.
  - intros config now token. apply authenticate_ext. intros id.
    rewrite logout_spec.
    destruct (db !! userId) as [u|] eqn:Hu; [|done].
    destruct (Auth.isActive u); [|done].
    destruct (decide (userId = id)) as [<-|Hne].
    + by rewrite lookup_insert_eq, Hu.
    + by rewrite lookup_insert_ne.
Qed.

(** Witness for the theorem above: [alice] logs out; her access token is
    still accepted afterwards. *)
Lemma logout_only_clears_the_refresh_token_witness :
  Auth.logout Sample.loggedIn "64b7f0c2a1" !! "64b7f0c2a1" = Some Sample.alice ∧
  isOk (Auth.authenticate Sample.config (Auth.logout Sample.loggedIn "64b7f0c2a1")
          1700000001000 (Some Sample.aliceAccessToken)) = true.
Proof.
  destruct (logout_only_clears_the_refresh_token Sample.loggedIn "64b7f0c2a1")
    as (H1 & _ & _ & _ & _ & H2).
  split.
  - apply (H1 (Auth.set_refreshToken (Some Sample.aliceRefreshToken) Sample.alice)).
    + vm_compute. reflexivity.
    + reflexivity.
  - rewrite H2. vm_compute. reflexivity.
Defined.

(** X6 -- a successful [changePassword] needs the current password to
    compare equal and the new one to differ from it (and to have eight
    characters).  It stores the hash of the new password, sets
    [passwordChangedAt] to the clock reading and clears the refresh token.
    From then on [authenticate] answers [StaleCredential] to every access
    token of that user signed in an earlier second, [verifyRefreshToken]
    answers [RevokedCredential] to every refresh token of that user, and the
    new password is the one [isPasswordCorrect] accepts, as far as
    [bcrypt.compare] accepts a password against its own hash. *)
Theorem changePassword_invalidates_sessions
    (hash : string → string) (compare : string → string → bool)
    (config : Auth.Config) (db : gmap string Auth.User) (userId : string)
    (currentPassword newPassword : string) (now : Z) (db' : gmap string Auth.User) :
  Auth.changePassword hash compare db userId currentPassword newPassword now
    = Ok db' →
  ∃ stored after,
    db !! userId = Some stored ∧ Auth.isActive stored = true ∧
    Auth.isPasswordCorrect compare stored currentPassword = true ∧
    Auth.isPasswordCorrect compare stored newPassword = false ∧
    db' !! userId = Some after ∧
    Auth.password after = Some (hash newPassword) ∧
    Auth.passwordChangedAt after = Some now ∧
    Auth.refreshToken after = None ∧
    (∀ id, id ≠ userId → db' !! id = db !! id) ∧
    (compare newPassword (hash newPassword) = true →
     Auth.isPasswordCorrect compare after newPassword = true) ∧
    (∀ now' token decoded,
       Jwt.verify token (Auth.accessTokenSecret config) now' = Jwt.Decoded decoded →
       Jwt._id decoded = userId →
       Jwt.iat decoded < now `quot` 1000 →
       Auth.authenticate config db' now' (Some token) = Throw Auth.StaleCredential) ∧
    (∀ now' token decoded,
       Jwt.verify token (Auth.refreshTokenSecret config) now' = Jwt.Decoded decoded →
       Jwt._id decoded = userId →
       Auth.verifyRefreshToken config db' now' (Some token)
         = Throw Auth.RevokedCredential).
Proof.
  intros (stored & Hs & Ha & Hc & Hn & Hlen & ->)%changePassword_Ok.
  eexists stored, _. split; [done|]. split; [done|]. split; [done|].
  split; [done|]. split; [apply lookup_insert_eq|].
  split; [done|]. split; [done|]. split; [done|].
  split; [intros id Hne; by apply lookup_insert_ne|].
  split; [intros Hcmp; exact Hcmp|]. split.
  - intros now' token decoded Hv Hid Hiat.
    rewrite (authenticate_verified _ _ _ _ _ Hv), Hid, lookup_insert_eq. simpl.
    rewrite Ha. unfold Auth.changedPasswordAfter. simpl.
    by rewrite bool_decide_eq_true_2.
  - intros now' token decoded Hv Hid.
    apply (verifyRefreshToken_mismatch config _ now' token decoded
             (Auth.set_refreshToken None
                (Auth.set_passwordChangedAt (Some now)
                   (Auth.set_password (Some (hash newPassword)) stored)))).
    + done.
    + rewrite Hid. apply lookup_insert_eq.
    + done.
    + done.
Qed.

(** Witness for the theorem above: [alice], logged in, changes her password
    a hundred seconds later; her login tokens are refused from then on. *)
Lemma changePassword_invalidates_sessions_witness :
  ∃ db',
    Auth.changePassword Sample.hash Sample.compare Sample.loggedIn "64b7f0c2a1"
      "Passw0rd!" "N3wPassw0rd!" 1700000100000 = Ok db' ∧
    Auth.authenticate Sample.config db' 1700000101000 (Some Sample.aliceAccessToken)
      = Throw Auth.StaleCredential ∧
    Auth.verifyRefreshToken Sample.config db' 1700000101000
      (Some Sample.aliceRefreshToken) = Throw Auth.RevokedCredential.
Proof.
  eexists. split; [vm_compute; reflexivity|].
  edestruct (changePassword_invalidates_sessions Sample.hash Sample.compare
               Sample.config Sample.loggedIn "64b7f0c2a1" "Passw0rd!" "N3wPassw0rd!"
               1700000100000)
    as (stored & after & _ & _ & _ & _ & _ & _ & _ & _ & _ & _ & Hacc & Href).
  - vm_compute. reflexivity.
  - split.
    + eapply Hacc; [vm_compute; reflexivity|reflexivity|vm_compute; reflexivity].
    + eapply Href; [vm_compute; reflexivity|reflexivity].
Defined.

(** X7 -- soft delete and restore, for a route parameter [id] that passed
    the validator and whose cast names an active document.  [deleteUser]
    refuses exactly when [id] is, as a string, the caller's
    [_id.toString()]; for every other [id] it sets [isActive = false] and
    clears the refresh token of the document the cast names -- also when that
    document is the caller's own, its id written with an upper-case digit.
    The deactivated user is then hidden from every [findById]:
    [authenticate] answers "User not found or has been deleted",
    [verifyRefreshToken] "Invalid refresh token", and a second [deleteUser]
    "User not found".  [restoreUser] (which opts out of the filter) refuses an
    active user and brings a deactivated one back with its refresh token
    still cleared and its [passwordChangedAt] untouched, so that
    [authenticate] answers every token exactly as before the deletion. *)
Theorem deleteUser_then_restoreUser
    (config : Auth.Config) (db : gmap string Auth.User) (caller : Auth.User)
    (id : string) (stored : Auth.User) :
  ObjectId.isValid id = true →
  db !! ObjectId.cast id = Some stored →
  Auth.isActive stored = true →
  let deactivated := Auth.set_refreshToken None (Auth.set_isActive false stored) in
  let db' := <[ObjectId.cast id := deactivated]> db in
  (Auth._id caller = id →
   Auth.deleteUser db caller id
     = Throw (ApiError.badRequest "You cannot delete your own account")) ∧
  (Auth._id caller ≠ id → Auth.deleteUser db caller id = Ok db') ∧
  (Auth._id caller ≠ id → Auth._id caller = ObjectId.cast id →
   Auth.deleteUser db caller id = Ok db' ∧
   db' !! Auth._id caller = Some deactivated ∧
   Auth.isActive deactivated = false) ∧
  (∀ now token decoded,
     Jwt.verify token (Auth.accessTokenSecret config) now = Jwt.Decoded decoded →
     Jwt._id decoded = ObjectId.cast id →
     Auth.authenticate config db' now (Some token) = Throw Auth.UserNotFound) ∧
  (∀ now token decoded,
     Jwt.verify token (Auth.refreshTokenSecret config) now = Jwt.Decoded decoded →
     Jwt._id decoded = ObjectId.cast id →
     Auth.verifyRefreshToken config db' now (Some token)
       = Throw (ApiError.unauthorized "Invalid refresh token")) ∧
  (Auth._id caller ≠ id →
   Auth.deleteUser db' caller id
     = Throw (ApiError.notFound ("User not found with id: " +:+ id))) ∧
  Auth.restoreUser db id = Throw (ApiError.badRequest "User is already active") ∧
  Auth.restoreUser db' id
    = Ok (<[ObjectId.cast id := Auth.set_refreshToken None stored]> db) ∧
  (∀ now token,
     Auth.authenticate config
       (<[ObjectId.cast id := Auth.set_refreshToken None stored]> db) now token
     = Auth.authenticate config db now token).
Proof.
  intros _ Hs Ha deactivated db'.
  assert (Hf : Auth.findById db (ObjectId.cast id) = Some stored).
  { unfold Auth.findById, Auth.findOne. simpl. by rewrite Hs, Ha. }
  assert (Hdel : Auth._id caller ≠ id → Auth.deleteUser db caller id = Ok db').
  { intros Hne. unfold Auth.deleteUser.
    rewrite bool_decide_eq_false_2 by done. rewrite Hf.
    unfold Auth.save. by rewrite Hs. }
  split.
  { intros Hself. unfold Auth.deleteUser. by rewrite bool_decide_eq_true_2. }
  split; [exact Hdel|]. split.
  { intros Hne Hcast. split; [by apply Hdel|]. split; [|done].
    subst db'. rewrite Hcast. apply lookup_insert_eq. }
  split; [|split; [|split; [|split; [|split]]]].
  - intros now token decoded Hv Hid. subst db'.
    by rewrite (authenticate_verified _ _ _ _ _ Hv), Hid, lookup_insert_eq.
  - intros now token decoded Hv Hid. subst db'.
    by rewrite (verifyRefreshToken_verified _ _ _ _ _ Hv), Hid, lookup_insert_eq.
  - intros Hne. unfold Auth.deleteUser. rewrite bool_decide_eq_false_2 by done.
    subst db'.
    by rewrite (findById_inactive _ (ObjectId.cast id) deactivated)
      by (done || apply lookup_insert_eq).
  - unfold Auth.restoreUser. by rewrite findOne_includeInactive, Hs, Ha.
  - unfold Auth.restoreUser. subst db'.
    rewrite findOne_includeInactive, lookup_insert_eq.
    simpl. unfold Auth.save. rewrite lookup_insert_eq, insert_insert_eq.
    f_equal. f_equal. destruct stored. simpl in *. by subst.
  - intros now token. apply authenticate_ext. intros k.
    destruct (decide (ObjectId.cast id = k)) as [<-|Hne].
    + by rewrite lookup_insert_eq, Hs.
    + by rewrite lookup_insert_ne.
Qed.

(** Witness for the theorem above: the admin [dana] sends her own id with
    its hexadecimal letters in upper case, and deactivates herself. *)
Lemma deleteUser_then_restoreUser_witness :
  Auth._id Sample.dana ≠ "64B7F0C2A1D3E4F5A6B7C8FF" ∧
  ObjectId.isValid "64B7F0C2A1D3E4F5A6B7C8FF" = true ∧
  ∃ db',
    Auth.deleteUser Sample.staff Sample.dana "64B7F0C2A1D3E4F5A6B7C8FF" = Ok db' ∧
    Auth.isActive <$> db' !! Auth._id Sample.dana = Some false ∧
    Auth.deleteUser Sample.staff Sample.dana "64b7f0c2a1d3e4f5a6b7c8ff"
      = Throw (ApiError.badRequest "You cannot delete your own account").
Proof.
  destruct (deleteUser_then_restoreUser Sample.config Sample.staff Sample.dana
              "64B7F0C2A1D3E4F5A6B7C8FF" Sample.dana)
    as (_ & _ & Hself & _).
  - vm_compute. reflexivity.
  - vm_compute. reflexivity.
  - reflexivity.
  - destruct Hself as (Hdel & Hlook & Hinactive).
    + discriminate.
    + vm_compute. reflexivity.
    + split; [discriminate|]. split; [vm_compute; reflexivity|].
      eexists. split; [exact Hdel|]. split.
      * rewrite Hlook. simpl. reflexivity.
      * vm_compute. reflexivity.
Defined.

(** X8 -- no writer moves a document: when every document of the collection
    is stored under its own [_id], it still is after
    [generateTokensAndSetCookies], [logout], [changePassword], [deleteUser]
    and [restoreUser], and these never add or remove a document. *)
Theorem writers_keep_the_collection_keyed (db : gmap string Auth.User) :
  Auth.wellKeyed db →
  (∀ config user now accessToken refreshToken db',
     Auth.generateTokensAndSetCookies config db user now
       = Ok (accessToken, refreshToken, db') →
     Auth.wellKeyed db' ∧ dom db' = dom db) ∧
  (∀ userId,
     Auth.wellKeyed (Auth.logout db userId) ∧ dom (Auth.logout db userId) = dom db) ∧
  (∀ hash compare userId currentPassword newPassword now db',
     Auth.changePassword hash compare db userId currentPassword newPassword now
       = Ok db' →
     Auth.wellKeyed db' ∧ dom db' = dom db) ∧
  (∀ caller id db',
     Auth.deleteUser db caller id = Ok db' →
     Auth.wellKeyed db' ∧ dom db' = dom db) ∧
  (∀ id db',
     Auth.restoreUser db id = Ok db' →
     Auth.wellKeyed db' ∧ dom db' = dom db).
Proof.
  intros Hwk.
  assert (Hupd : ∀ id (update : Auth.User → Auth.User) stored,
            (∀ u, Auth._id (update u) = Auth._id u) →
            db !! id = Some stored →
            Auth.wellKeyed (<[id := update stored]> db) ∧
            dom (<[id := update stored]> db) = dom db).
  { intros id update stored Hid Hs. split.
    - apply map_Forall_insert_2; [|done]. rewrite Hid. by apply (Hwk id stored).
    - apply dom_insert_lookup_L. by exists stored. }
  split; [|split; [|split; [|split]]].
  - intros config user now a r db'. unfold Auth.generateTokensAndSetCookies.
    destruct (Auth.save db _ _) as [d| |] eqn:Hsave; [|done..].
    intros [= _ _ <-]. apply save_Ok in Hsave as (stored & Hs & ->).
    by apply Hupd.
  - intros userId. rewrite logout_spec.
    destruct (db !! userId) as [u|] eqn:Hu; [|done].
    destruct (Auth.isActive u); [|done]. by apply Hupd.
  - intros hash compare userId cur new now db'
      (stored & Hs & _ & _ & _ & _ & ->)%changePassword_Ok.
    by apply (Hupd userId
                (λ u, Auth.set_refreshToken None
                        (Auth.set_passwordChangedAt (Some now)
                           (Auth.set_password (Some (hash new)) u)))).
  - intros caller id db'. unfold Auth.deleteUser.
    case_bool_decide; [done|].
    destruct (Auth.findById db (ObjectId.cast id)); [|done].
    intros (stored & Hs & ->)%save_Ok.
    by apply (Hupd (ObjectId.cast id)
                (λ u, Auth.set_refreshToken None (Auth.set_isActive false u))).
  - intros id db'. unfold Auth.restoreUser.
    destruct (Auth.findOne db _) as [u|]; [|done].
    destruct (Auth.isActive u); [done|].
    intros (stored & Hs & ->)%save_Ok.
    by apply (Hupd (ObjectId.cast id) (Auth.set_isActive true)).
Qed.

(** Witness for the theorem above: the sample collection after [alice]'s
    logout. *)
Lemma writers_keep_the_collection_keyed_witness :
  Auth.wellKeyed (Auth.logout Sample.loggedIn "64b7f0c2a1").
Proof.
  apply (writers_keep_the_collection_keyed Sample.loggedIn).
  apply (bool_decide_unpack _). vm_compute. exact I.
Defined.

(** ** rateLimiter.middleware.js *)

Section MoreRateLimiterProperties.

Import RateLimiter.

Variable options : Options.

Lemma monotoneFrom_weaken t t' calls :
  t' ≤ t → monotoneFrom t calls → monotoneFrom t' calls.
Proof. destruct calls as [|[k now] calls]; [done|]. simpl. intros ? [? ?]. split; [lia|done]. Qed.

Lemma monotoneFrom_filter (P : string * Z → Prop) `{!∀ c, Decision (P c)} calls :
  ∀ t, monotoneFrom t calls → monotoneFrom t (filter P calls).
Proof.
  induction calls as [|[k now] calls IH]; intros t; [done|].
  intros [Hle Hm]. rewrite filter_cons. case_decide.
  - split; [done|]. by apply IH.
  - apply (monotoneFrom_weaken now); [done|]. by apply IH.
Qed.

Lemma noCleanup_lookup_other m key now k :
  k ≠ key → (slidingWindowLimiterNoCleanup options m key now).2 !! k = m !! k.
Proof.
  intros Hne. unfold slidingWindowLimiterNoCleanup.
  case_bool_decide; simpl; [done|]. by rewrite lookup_insert_ne.
Qed.

Lemma noCleanup_same_key m1 m2 key now :
  m1 !! key = m2 !! key →
  (slidingWindowLimiterNoCleanup options m1 key now).1 =
    (slidingWindowLimiterNoCleanup options m2 key now).1 ∧
  (slidingWindowLimiterNoCleanup options m1 key now).2 !! key =
    (slidingWindowLimiterNoCleanup options m2 key now).2 !! key.
Proof.
  intros H. unfold slidingWindowLimiterNoCleanup. rewrite H.
  case_bool_decide; simpl; [done|]. by rewrite !lookup_insert_eq.
Qed.

Lemma noCleanup_isolation key calls : ∀ m1 m2,
  m1 !! key = m2 !! key →
  decisionsFor key calls (run (slidingWindowLimiterNoCleanup options) m1 calls).1 =
  (run (slidingWindowLimiterNoCleanup options) m2
     (filter (λ c, c.1 = key) calls)).1.
Proof.
  induction calls as [|[k now] calls IH]; intros m1 m2 H; [done|].
  rewrite filter_cons. simpl.
  destruct (decide (k = key)) as [->|Hne].
  - destruct (noCleanup_same_key m1 m2 key now H) as [Hd Hl].
    simpl.
    destruct (slidingWindowLimiterNoCleanup options m1 key now) as [r1 m1'].
    destruct (slidingWindowLimiterNoCleanup options m2 key now) as [r2 m2'].
    simpl in Hd, Hl. subst r2. specialize (IH m1' m2' Hl).
    destruct (run _ m1' calls) as [rs1 ?].
    destruct (run _ m2' _) as [rs2 ?]. simpl in *.
    unfold decisionsFor in *. simpl. rewrite filter_cons. simpl.
    destruct (decide (key = key)); [|done]. simpl. f_equal. exact IH.
  - pose proof (noCleanup_lookup_other m1 k now key ltac:(done)) as Hl.
    destruct (slidingWindowLimiterNoCleanup options m1 k now) as [r1 m1'].
    simpl in Hl. rewrite <- Hl in H. specialize (IH m1' m2 H).
    destruct (run _ m1' calls) as [rs1 ?]. simpl in *.
    unfold decisionsFor in *. simpl. rewrite filter_cons. simpl.
    by destruct (decide (k = key)).
Qed.

Lemma decisionsFor_ext key calls rs1 rs2 :
  rs1 = rs2 → decisionsFor key calls rs1 = decisionsFor key calls rs2.
Proof. by intros ->. Qed.

Lemma limiter_bounded m key now :
  map_Forall (λ _ v, Z.of_nat (length v) ≤ maxRequests options) m →
  map_Forall (λ _ v, Z.of_nat (length v) ≤ maxRequests options)
    (slidingWindowLimiter options m key now).2.
Proof.
  intros Hb. unfold slidingWindowLimiter.
  case_bool_decide as Hfull; simpl; [done|].
  assert (Hi : map_Forall (λ _ v, Z.of_nat (length v) ≤ maxRequests options)
                 (<[key := inWindow options now (default [] (m !! key)) ++ [now]]> m)).
  { apply map_Forall_insert_2; [|done]. rewrite length_app. simpl. lia. }
  case_bool_decide; [|done].
  intros k v Hk. unfold cleanup in Hk.
  apply map_lookup_filter_Some in Hk as [Hk _]. by apply (Hi k v).
Qed.

Lemma run_bounded calls : ∀ m,
  map_Forall (λ _ v, Z.of_nat (length v) ≤ maxRequests options) m →
  map_Forall (λ _ v, Z.of_nat (length v) ≤ maxRequests options)
    (run (slidingWindowLimiter options) m calls).2.
Proof.
  induction calls as [|[key now] calls IH]; intros m Hb; [done|].
  simpl. pose proof (limiter_bounded m key now Hb) as Hb'.
  destruct (slidingWindowLimiter options m key now) as [r m'].
  specialize (IH m' Hb').
  by destruct (run (slidingWindowLimiter options) m' calls).
Qed.

End MoreRateLimiterProperties.

(** X9 -- the limiter never stores more than [maxRequests] timestamps under
    a key: if every list of the key map has at most [maxRequests] entries
    (as in the empty map the limiter starts with), this is still so after
    every call and after every sequence of calls, whatever the keys and the
    clock readings. *)
Theorem limiter_keeps_at_most_maxRequests
    (options : RateLimiter.Options) (requests : gmap string (list Z)) :
  map_Forall (λ _ v, Z.of_nat (length v) ≤ RateLimiter.maxRequests options)
    requests →
  (∀ key now,
     map_Forall (λ _ v, Z.of_nat (length v) ≤ RateLimiter.maxRequests options)
       (RateLimiter.slidingWindowLimiter options requests key now).2) ∧
  (∀ calls,
     map_Forall (λ _ v, Z.of_nat (length v) ≤ RateLimiter.maxRequests options)
       (RateLimiter.run (RateLimiter.slidingWindowLimiter options) requests calls).2).
Proof.
  intros Hb. split.
  - intros key now. by apply limiter_bounded.
  - intros calls. by apply run_bounded.
Qed.

(** Witness for the theorem above: seven calls of one client against a
    limit of five leave five timestamps. *)
Lemma limiter_keeps_at_most_maxRequests_witness :
  map_Forall (λ _ v, Z.of_nat (length v) ≤ 5)
    (RateLimiter.run
       (RateLimiter.slidingWindowLimiter
          (RateLimiter.mkOptions (Some 60000) (Some 5))) ∅
       [("10.0.0.1", 0); ("10.0.0.1", 1); ("10.0.0.1", 2); ("10.0.0.1", 3);
        ("10.0.0.1", 4); ("10.0.0.1", 5); ("10.0.0.1", 6)]).2.
Proof.
  apply (limiter_keeps_at_most_maxRequests
           (RateLimiter.mkOptions (Some 60000) (Some 5)) ∅).
  apply map_Forall_empty.
Defined.

(** X10 -- keys do not share a budget.  With a clock that does not go back,
    the decisions a key gets in any sequence of calls are the decisions it
    would get if the calls of all other keys had not been made: no client
    can use up, or free, another client's allowance. *)
Theorem limiter_keys_are_isolated
    (options : RateLimiter.Options) (requests : gmap string (list Z))
    (key : string) (calls : list (string * Z)) (t : Z) :
  RateLimiter.monotoneFrom t calls →
  RateLimiter.decisionsFor key calls
    (RateLimiter.run (RateLimiter.slidingWindowLimiter options) requests calls).1 =
  (RateLimiter.run (RateLimiter.slidingWindowLimiter options) requests
     (filter (λ c, c.1 = key) calls)).1.
Proof.
  intros Hmono.
  rewrite (run_simulation options calls t requests requests
             (sameWindow_refl options t requests) Hmono).
  rewrite (run_simulation options (filter (λ c, c.1 = key) calls) t requests requests
             (sameWindow_refl options t requests)
             (monotoneFrom_filter _ calls t Hmono)).
  by apply noCleanup_isolation.
Qed.

(** Witness for the theorem above: [mallory] exhausts her own allowance of
    two calls; [alice]'s two calls in between are admitted all the same. *)
Lemma limiter_keys_are_isolated_witness :
  RateLimiter.decisionsFor "alice"
    [("mallory", 0); ("mallory", 1); ("alice", 2); ("mallory", 3); ("alice", 4)]
    (RateLimiter.run
       (RateLimiter.slidingWindowLimiter (RateLimiter.mkOptions (Some 60000) (Some 2)))
       ∅
       [("mallory", 0); ("mallory", 1); ("alice", 2); ("mallory", 3); ("alice", 4)]).1
  = [Ok tt; Ok tt].
Proof.
  rewrite (limiter_keys_are_isolated
             (RateLimiter.mkOptions (Some 60000) (Some 2)) ∅ "alice" _ 0).
  - vm_compute. reflexivity.
  - simpl. lia.
Defined.

(** X11 -- a refusal never outlasts the window.  In a key map whose lists
    have at most [maxRequests] entries (the limiter keeps it so), a call is
    admitted as soon as one recorded timestamp of its key is [windowMs] old;
    and a key with nothing recorded is admitted whenever [maxRequests] is
    positive. *)
Theorem limiter_readmits_after_the_window
    (options : RateLimiter.Options) (requests : gmap string (list Z))
    (key : string) (now : Z) :
  map_Forall (λ _ v, Z.of_nat (length v) ≤ RateLimiter.maxRequests options)
    requests →
  (∀ time, time ∈ default [] (requests !! key) →
     RateLimiter.windowMs options ≤ now - time →
     (RateLimiter.slidingWindowLimiter options requests key now).1 = Ok tt) ∧
  (requests !! key = None → 0 < RateLimiter.maxRequests options →
   (RateLimiter.slidingWindowLimiter options requests key now).1 = Ok tt).
Proof.
  intros Hb. split.
  - intros time Hin Hold. unfold RateLimiter.slidingWindowLimiter.
    rewrite bool_decide_eq_false_2; [done|].
    destruct (requests !! key) as [v|] eqn:Hk; simpl in *.
    + pose proof (Hb key v Hk) as Hlen. simpl in Hlen.
      pose proof (length_filter_lt
                    (λ time0, now - time0 < RateLimiter.windowMs options)
                    v time Hin ltac:(simpl; lia)) as Hlt.
      unfold RateLimiter.inWindow. lia.
    + by apply elem_of_nil in Hin.
  - intros Hk Hpos. unfold RateLimiter.slidingWindowLimiter.
    rewrite Hk. simpl. by rewrite bool_decide_eq_false_2 by (simpl; lia).
Qed.

(** Witness for the theorem above: a client refused at the limit of two is
    admitted again once its first call is a minute old. *)
Lemma limiter_readmits_after_the_window_witness :
  (RateLimiter.slidingWindowLimiter (RateLimiter.mkOptions (Some 60000) (Some 2))
     {[ "10.0.0.1" := [1000; 50000] ]} "10.0.0.1" 59000).1
    = Throw RateLimiter.RateExceeded ∧
  (RateLimiter.slidingWindowLimiter (RateLimiter.mkOptions (Some 60000) (Some 2))
     {[ "10.0.0.1" := [1000; 50000] ]} "10.0.0.1" 61000).1 = Ok tt.
Proof.
  split; [vm_compute; reflexivity|].
  apply (limiter_readmits_after_the_window
           (RateLimiter.mkOptions (Some 60000) (Some 2))
           {[ "10.0.0.1" := [1000; 50000] ]} "10.0.0.1" 61000) with (time := 1000).
  - apply (bool_decide_unpack _). vm_compute. exact I.
  - vm_compute. apply list_elem_of_here.
  - vm_compute. discriminate.
Defined.

(** ** cache.service.js and user.events.js *)

Section MoreCacheProperties.

Import Cache.

Lemma getKey_inj this key key' : getKey this key = getKey this key' → key = key'.
Proof.
  unfold getKey. induction (prefix this) as [|c p IH]; simpl; [done|].
  intros [= H]. by apply IH.
Qed.

Lemma del_lookup this redis key k :
  (del this redis key).2 !! k =
    if usable this && bool_decide (k = getKey this key) then None else redis !! k.
Proof.
  unfold del. destruct (usable this); simpl; [|done].
  case_bool_decide as Hk.
  - subst k. apply lookup_delete_eq.
  - by apply lookup_delete_ne.
Qed.

Section Pattern.

Variable glob : string → string → bool.

Lemma delByPattern_lookup this redis now pattern k :
  delByPattern glob this redis now pattern !! k =
    match redis !! k with
    | Some e =>
        if usable this && (glob (getKey this pattern) k
                           && bool_decide (now < expiresAt e))
        then None else Some e
    | None => None
    end.
Proof.
  unfold delByPattern. destruct (usable this); simpl.
  - rewrite map_lookup_filter. destruct (redis !! k) as [e|]; [|done]. simpl.
    destruct (decide (glob (getKey this pattern) k = true ∧ now < expiresAt e))
      as [[Hg Hl]|Hno].
    + rewrite option_guard_False by (simpl; intros H; by apply H).
      rewrite Hg. simpl. by rewrite bool_decide_eq_true_2.
    + rewrite option_guard_True by done. simpl.
      destruct (glob (getKey this pattern) k) eqn:E; simpl; [|done].
      rewrite bool_decide_eq_false_2; [done|]. intros ?. by apply Hno.
  - by destruct (redis !! k).
Qed.

Lemma onMutationEvent_lookup this redis now ev k :
  onMutationEvent glob this redis now ev !! k =
    match redis !! k with
    | Some e => if evicts glob this now ev k e then None else Some e
    | None => None
    end.
Proof.
  unfold evicts. destruct ev as [userId sent|userId|userId updates|userId]; simpl.
  - destruct sent; simpl.
    + apply delByPattern_lookup.
    + destruct (redis !! k); [|done]. by rewrite andb_false_r.
  - apply delByPattern_lookup.
  - rewrite delByPattern_lookup, del_lookup.
    destruct (usable this); simpl; [|by destruct (redis !! k)].
    case_bool_decide; simpl; [by destruct (redis !! k)|done].
  - rewrite !delByPattern_lookup, del_lookup.
    destruct (usable this); simpl; [|by destruct (redis !! k)].
    case_bool_decide; simpl; [by destruct (redis !! k)|].
    destruct (redis !! k) as [e|]; [|done].
    destruct (glob (getKey this ("user:" +:+ userId +:+ ":*")) k
              && bool_decide (now < expiresAt e)); simpl; [done|].
    done.
Qed.

Lemma evicts_later this now now' ev k e :
  now ≤ now' → evicts glob this now' ev k e = true → evicts glob this now ev k e = true.
Proof.
  intros Hle. unfold evicts.
  assert (Hb : ∀ p, glob (getKey this p) k && bool_decide (now' < expiresAt e) = true →
                    glob (getKey this p) k && bool_decide (now < expiresAt e) = true).
  { intros p [Hg Hl]%andb_true_iff. rewrite Hg. simpl.
    apply bool_decide_eq_true_1 in Hl. apply bool_decide_eq_true_2. lia. }
  destruct (usable this); simpl; [|done].
  destruct ev as [userId sent|userId|userId updates|userId].
  - destruct sent; simpl; [apply Hb|done].
  - apply Hb.
  - intros [H|H]%orb_true_iff; apply orb_true_iff; [by left|right; by apply Hb].
  - intros [[H|H]%orb_true_iff|H]%orb_true_iff; apply orb_true_iff.
    + left. apply orb_true_iff. by left.
    + left. apply orb_true_iff. right. by apply Hb.
    + right. by apply Hb.
Qed.

End Pattern.

End MoreCacheProperties.

(** X12 -- [set] then [get].  On a connected service a value stored with a
    positive time to live (3600 s when none is given) is what [get] returns,
    and [exists] holds, until [ttl] seconds have passed; from then on [get]
    returns [null] and [exists] is false.  No other key is affected.  With a
    time to live that is not positive nothing is stored and [set] returns
    [false]. *)
Theorem set_then_get
    (this : Cache.CacheService) (redis : gmap string Cache.Entry) (now : Z)
    (key : string) (v : Cache.json) (ttl : option Z) :
  Cache.usable this = true →
  (0 < default (Cache.defaultTTL this) ttl →
   (Cache.set this redis now key v ttl).1 = true ∧
   (∀ now', now' < now + default (Cache.defaultTTL this) ttl * 1000 →
      Cache.get this (Cache.set this redis now key v ttl).2 now' key = v ∧
      Cache.exists_ this (Cache.set this redis now key v ttl).2 now' key = true) ∧
   (∀ now', now + default (Cache.defaultTTL this) ttl * 1000 ≤ now' →
      Cache.get this (Cache.set this redis now key v ttl).2 now' key = Cache.JNull ∧
      Cache.exists_ this (Cache.set this redis now key v ttl).2 now' key = false) ∧
   (∀ key' now', key' ≠ key →
      Cache.get this (Cache.set this redis now key v ttl).2 now' key' =
      Cache.get this redis now' key')) ∧
  (default (Cache.defaultTTL this) ttl ≤ 0 →
   Cache.set this redis now key v ttl = (false, redis)).
Proof.
  intros Hu. unfold Cache.set, Cache.redisSetex. rewrite Hu. simpl. split.
  - intros Hpos. rewrite bool_decide_eq_true_2 by done. simpl.
    split; [done|]. split; [|split].
    + intros now' Hlive. unfold Cache.get, Cache.exists_, Cache.redisGet.
      rewrite Hu, lookup_insert_eq. simpl.
      rewrite bool_decide_eq_true_2 by done. split; [done|].
      by apply bool_decide_eq_true_2.
    + intros now' Hdead. unfold Cache.get, Cache.exists_, Cache.redisGet.
      rewrite Hu, lookup_insert_eq. simpl.
      rewrite bool_decide_eq_false_2 by lia. split; [done|].
      apply bool_decide_eq_false_2. by intros [? ?].
    + intros key' now' Hne. unfold Cache.get, Cache.redisGet.
      rewrite lookup_insert_ne; [done|].
      intros H. apply getKey_inj in H. done.
  - intros Hle. by rewrite bool_decide_eq_false_2 by lia.
Qed.

(** Witness for the theorem above: a user document cached for five minutes. *)
Lemma set_then_get_witness :
  Cache.get Cache.connected
    (Cache.set Cache.connected ∅ 1000 "user:64b7f0c2a1" (Cache.JString "alice")
       (Some 300)).2 300999 "user:64b7f0c2a1" = Cache.JString "alice" ∧
  Cache.get Cache.connected
    (Cache.set Cache.connected ∅ 1000 "user:64b7f0c2a1" (Cache.JString "alice")
       (Some 300)).2 301000 "user:64b7f0c2a1" = Cache.JNull.
Proof.
  destruct (set_then_get Cache.connected ∅ 1000 "user:64b7f0c2a1"
              (Cache.JString "alice") (Some 300) eq_refl) as [H _].
  destruct (H ltac:(simpl; lia)) as (_ & Hlive & Hdead & _).
  split.
  - apply Hlive. simpl. lia.
  - apply Hdead. simpl. lia.
Defined.

(** X13 -- [del] on a connected service: it returns [true] whether or not
    the key is there, afterwards [get] of the key is a miss at every clock
    reading, no other key is affected, deleting an absent key leaves the
    server as it is, and deleting twice is deleting once. *)
Theorem del_is_idempotent
    (this : Cache.CacheService) (redis : gmap string Cache.Entry) (key : string) :
  Cache.usable this = true →
  (Cache.del this redis key).1 = true ∧
  (∀ now, Cache.get this (Cache.del this redis key).2 now key = Cache.JNull) ∧
  (∀ key' now, key' ≠ key →
     Cache.get this (Cache.del this redis key).2 now key' =
     Cache.get this redis now key') ∧
  (redis !! Cache.getKey this key = None → (Cache.del this redis key).2 = redis) ∧
  Cache.del this (Cache.del this redis key).2 key = Cache.del this redis key.
Proof.
  intros Hu. unfold Cache.del. rewrite Hu. simpl.
  split; [done|]. split; [|split; [|split]].
  - intros now. apply get_miss. right. apply redisGet_delete.
  - intros key' now Hne. unfold Cache.get, Cache.redisGet.
    rewrite lookup_delete_ne; [done|]. intros H. by apply getKey_inj in H.
  - intros Hn. by apply delete_id.
  - by rewrite delete_delete_eq.
Qed.

(** Witness for the theorem above: evicting a key that was never cached. *)
Lemma del_is_idempotent_witness :
  Cache.del Cache.connected ∅ "user:64b7f0c2a1" = (true, ∅).
Proof.
  destruct (del_is_idempotent Cache.connected ∅ "user:64b7f0c2a1" eq_refl)
    as (H1 & _ & _ & H2 & _).
  rewrite (surjective_pairing (Cache.del Cache.connected ∅ "user:64b7f0c2a1")).
  rewrite H1, H2; [done|]. apply lookup_empty.
Defined.

(** X14 -- the cache listeners only evict.  What the listeners of an event
    leave under a server key is the entry that was there, unless the event
    evicts it ([evicts]): nothing is added or changed.  Hence the listeners
    of any two events, run at any two clock readings, give the same cache in
    either order, and running the listeners of an event again, then or
    later, changes nothing more. *)
Theorem eviction_commutes_and_is_idempotent
    (glob : string → string → bool) (this : Cache.CacheService)
    (redis : gmap string Cache.Entry) :
  (∀ now ev k,
     Cache.onMutationEvent glob this redis now ev !! k =
       match redis !! k with
       | Some e => if Cache.evicts glob this now ev k e then None else Some e
       | None => None
       end) ∧
  (∀ now1 now2 ev1 ev2,
     Cache.onMutationEvent glob this
       (Cache.onMutationEvent glob this redis now1 ev1) now2 ev2 =
     Cache.onMutationEvent glob this
       (Cache.onMutationEvent glob this redis now2 ev2) now1 ev1) ∧
  (∀ now now' ev, now ≤ now' →
     Cache.onMutationEvent glob this
       (Cache.onMutationEvent glob this redis now ev) now' ev =
     Cache.onMutationEvent glob this redis now ev).
Proof.
  split; [|split].
  - intros now ev k. apply onMutationEvent_lookup.
  - intros now1 now2 ev1 ev2. apply map_eq. intros k.
    rewrite !onMutationEvent_lookup.
    destruct (redis !! k) as [e|]; [|done].
    destruct (Cache.evicts glob this now1 ev1 k e) eqn:E1;
      destruct (Cache.evicts glob this now2 ev2 k e) eqn:E2;
      simpl; rewrite ?E1, ?E2; done.
  - intros now now' ev Hle. apply map_eq. intros k.
    rewrite !onMutationEvent_lookup.
    destruct (redis !! k) as [e|]; [|done].
    destruct (Cache.evicts glob this now ev k e) eqn:E1; [done|].
    destruct (Cache.evicts glob this now' ev k e) eqn:E2; [|done].
    apply (evicts_later glob this now now') in E2; [congruence|done].
Qed.

(** Witness for the theorem above: the [USER_UPDATED] event of a user
    delivered twice. *)
Lemma eviction_commutes_and_is_idempotent_witness :
  Cache.onMutationEvent (λ _ _, false) Cache.connected
    (Cache.onMutationEvent (λ _ _, false) Cache.connected
       {[ "app:user:64b7f0c2a1" := Cache.mkEntry (Cache.JString "alice") 3601000 ]}
       2000 (Cache.USER_UPDATED "64b7f0c2a1" ["name"]))
    2500 (Cache.USER_UPDATED "64b7f0c2a1" ["name"]) =
  Cache.onMutationEvent (λ _ _, false) Cache.connected
    {[ "app:user:64b7f0c2a1" := Cache.mkEntry (Cache.JString "alice") 3601000 ]}
    2000 (Cache.USER_UPDATED "64b7f0c2a1" ["name"]).
Proof.
  apply (eviction_commutes_and_is_idempotent (λ _ _, false) Cache.connected).
  lia.
Defined.

(** X15 -- without a connection the service is inert: [get] and [getOrSet]
    find nothing (the loader runs on every call), [exists] is false, and
    [set], [del], [delByPattern], [flush] and the event listeners leave the
    server as it is, [set], [del] and [flush] returning [false]. *)
Theorem disconnected_service_is_inert
    (glob : string → string → bool) (this : Cache.CacheService)
    (redis : gmap string Cache.Entry) (now : Z) :
  Cache.usable this = false →
  (∀ key, Cache.get this redis now key = Cache.JNull ∧
          Cache.exists_ this redis now key = false) ∧
  (∀ key v ttl, Cache.set this redis now key v ttl = (false, redis)) ∧
  (∀ key, Cache.del this redis key = (false, redis)) ∧
  (∀ pattern, Cache.delByPattern glob this redis now pattern = redis) ∧
  Cache.flush this redis = (false, redis) ∧
  (∀ ev, Cache.onMutationEvent glob this redis now ev = redis) ∧
  (∀ (W : Type) key (fetchFn : W → Cache.json * W) ttl (w : W),
     Cache.getOrSet this redis now key fetchFn ttl w =
       ((fetchFn w).1, redis, (fetchFn w).2)).
Proof.
  intros Hu.
  assert (Hp : ∀ r n pattern, Cache.delByPattern glob this r n pattern = r)
    by (intros; unfold Cache.delByPattern; by rewrite Hu).
  assert (Hd : ∀ r key, Cache.del this r key = (false, r))
    by (intros; unfold Cache.del; by rewrite Hu).
  split; [|split; [|split; [|split; [|split; [|split]]]]].
  - intros key. unfold Cache.get, Cache.exists_. by rewrite Hu.
  - intros key v ttl. unfold Cache.set. by rewrite Hu.
  - intros key. apply Hd.
  - intros pattern. apply Hp.
  - unfold Cache.flush. by rewrite Hu.
  - intros [userId sent|userId|userId updates|userId]; simpl;
      rewrite ?Hd; simpl; rewrite ?Hp; try done.
    by destruct sent.
  - intros W key fetchFn ttl w. unfold Cache.getOrSet, Cache.get, Cache.set.
    rewrite Hu. simpl. by destruct (fetchFn w).
Qed.

(** Witness for the theorem above: the service before [connect()]. *)
Lemma disconnected_service_is_inert_witness :
  Cache.set Cache.disconnected ∅ 1000 "user:64b7f0c2a1" (Cache.JString "alice") None
    = (false, ∅).
Proof.
  apply (disconnected_service_is_inert (λ _ _, false) Cache.disconnected ∅ 1000).
  reflexivity.
Defined.

(** X16 -- [cacheMiddleware(ttl)].  A request that is no GET is passed
    through untouched, whatever is cached.  The replaced [res.json] stores
    the response under [route:<originalUrl>] only when the status is 2xx.
    After that, on a connected service, a GET of the same URL within [ttl]
    seconds (300 by default) is answered from the cache with the stored
    data -- unless that data is falsy ([null], [false], [0] or the empty
    string), which counts as a miss -- and is a miss again once the entry has
    expired. *)
Theorem cacheMiddleware_caches_successful_GETs
    (ttl : option Z) (this : Cache.CacheService) (redis : gmap string Cache.Entry)
    (now : Z) (originalUrl : string) (statusCode : Z) (data : Cache.json) :
  (∀ method, method ≠ "GET" →
     Cache.cacheMiddleware this redis now method originalUrl = Cache.PassThrough) ∧
  (¬ (200 ≤ statusCode < 300) →
   Cache.cacheMiddleware_json ttl this redis now originalUrl statusCode data = redis) ∧
  (Cache.usable this = true → 200 ≤ statusCode < 300 → 0 < default 300 ttl →
   (∀ now', now' < now + default 300 ttl * 1000 →
      Cache.cacheMiddleware this
        (Cache.cacheMiddleware_json ttl this redis now originalUrl statusCode data)
        now' "GET" originalUrl =
      if Cache.truthy data then Cache.HIT data else Cache.MISS) ∧
   (∀ now', now + default 300 ttl * 1000 ≤ now' →
      Cache.cacheMiddleware this
        (Cache.cacheMiddleware_json ttl this redis now originalUrl statusCode data)
        now' "GET" originalUrl = Cache.MISS)).
Proof.
  split; [|split].
  - intros method Hne. unfold Cache.cacheMiddleware.
    by rewrite bool_decide_eq_false_2.
  - intros Hst. unfold Cache.cacheMiddleware_json.
    destruct (decide (200 ≤ statusCode)) as [H1|H1].
    + rewrite (bool_decide_eq_false_2 (statusCode < 300)) by lia.
      by rewrite andb_false_r.
    + by rewrite (bool_decide_eq_false_2 (200 ≤ statusCode)).
  - intros Hu [H1 H2] Hpos.
    destruct (set_then_get this redis now ("route:" +:+ originalUrl) data
                (Some (default 300 ttl)) Hu) as [Hset _].
    destruct (Hset Hpos) as (_ & Hlive & Hdead & _).
    unfold Cache.cacheMiddleware_json.
    rewrite !bool_decide_eq_true_2 by done. simpl.
    split; intros now' Hn; unfold Cache.cacheMiddleware; simpl.
    + by rewrite (proj1 (Hlive now' Hn)).
    + by rewrite (proj1 (Hdead now' Hn)).
Qed.

(** Witness for the theorem above: a successful GET is served from the
    cache a minute later. *)
Lemma cacheMiddleware_caches_successful_GETs_witness :
  Cache.cacheMiddleware Cache.connected
    (Cache.cacheMiddleware_json None Cache.connected ∅ 1000 "/api/v1/users/search?q=al"
       200 (Cache.JArray [Cache.JString "alice"]))
    61000 "GET" "/api/v1/users/search?q=al"
  = Cache.HIT (Cache.JArray [Cache.JString "alice"]).
Proof.
  destruct (cacheMiddleware_caches_successful_GETs None Cache.connected ∅ 1000
              "/api/v1/users/search?q=al" 200 (Cache.JArray [Cache.JString "alice"]))
    as (_ & _ & H).
  destruct (H eq_refl ltac:(lia) ltac:(simpl; lia)) as [Hhit _].
  apply Hhit. simpl. lia.
Defined.

(** ** event.service.js *)

Section EventServiceProperties.

Import EventService.

Lemma removeLast_no_match listener (l : list Listener) :
  Forall (λ x, fn x ≠ listener) l → removeLast listener l = l.
Proof.
  induction 1 as [|x l Hx Hl IH]; [done|]. simpl.
  rewrite bool_decide_eq_false_2.
  - by rewrite bool_decide_eq_false_2.
  - intros (y & Hy & Hfn)%Exists_exists. rewrite Forall_forall in Hl.
    by apply (Hl y).
Qed.

Lemma wrapped_not_handler (l : list Listener) id :
  Forall (λ x, ∃ h, fn x = Wrapped h) l → Forall (λ x, fn x ≠ Handler id) l.
Proof.
  apply Forall_impl. intros x [h Hx]. rewrite Hx. discriminate.
Qed.

Lemma subscribe_allWrapped this event handler once' :
  allWrapped this → allWrapped (subscribe this event handler once').
Proof.
  intros Hw. unfold allWrapped, subscribe. simpl.
  apply map_Forall_insert_2; [|done].
  apply Forall_app. split.
  - unfold listenersOf. destruct (listeners this !! event) as [l|] eqn:E; simpl.
    + by apply (Hw event l).
    + constructor.
  - repeat constructor. by exists handler.
Qed.

Lemma publish_allWrapped this event data now :
  allWrapped this → allWrapped (publish this event data now).2.
Proof.
  intros Hw. unfold publish.
  destruct (bool_decide (event = "error") && _); simpl; [done|].
  destruct (listeners this !! event) as [l|] eqn:E; [|done].
  apply map_Forall_insert_2; [|done].
  pose proof (Hw event l E) as Hl. simpl in Hl. clear E.
  induction Hl as [|x l Hx Hl IH]; [constructor|].
  rewrite filter_cons. case_decide; [constructor|]; done.
Qed.

End EventServiceProperties.

(** X17 -- the event history is a bounded log.  With at most
    [maxHistorySize] (1000) records before a [publish], there are at most
    that many after it; the record of the published event, with the clock
    reading and the number of listeners the event had, is the last one;
    the history is the old one with the record appended, less its oldest
    record when it was full; and [getHistory(event)] ends with that
    record. *)
Theorem publish_keeps_a_bounded_history
    (this : EventService.t) (event : string) (data : Cache.json) (now : Z) :
  1 ≤ EventService.maxHistorySize this →
  Z.of_nat (length (EventService.eventHistory this))
    ≤ EventService.maxHistorySize this →
  let record :=
    EventService.mkEventRecord event data now
      (length (EventService.listenersOf this event)) in
  let this' := (EventService.publish this event data now).2 in
  EventService.maxHistorySize this' = EventService.maxHistorySize this ∧
  Z.of_nat (length (EventService.eventHistory this'))
    ≤ EventService.maxHistorySize this ∧
  list.last (EventService.eventHistory this') = Some record ∧
  (Z.of_nat (length (EventService.eventHistory this))
     < EventService.maxHistorySize this →
   EventService.eventHistory this' = EventService.eventHistory this ++ [record]) ∧
  (Z.of_nat (length (EventService.eventHistory this))
     = EventService.maxHistorySize this →
   EventService.eventHistory this'
     = tail (EventService.eventHistory this) ++ [record]) ∧
  list.last (EventService.getHistory this' (Some event)) = Some record.
Proof.
  intros Hmax Hlen record this'.
  set (h := EventService.eventHistory this) in *.
  assert (Hh : EventService.eventHistory this' =
               if bool_decide (EventService.maxHistorySize this
                               < Z.of_nat (length (h ++ [record])))
               then tail (h ++ [record]) else h ++ [record]).
  { unfold this', EventService.publish. fold h. fold record.
    by destruct (bool_decide (event = "error") && _). }
  assert (Hm : EventService.maxHistorySize this' = EventService.maxHistorySize this).
  { unfold this', EventService.publish.
    by destruct (bool_decide (event = "error") && _). }
  assert (Htail : h ≠ [] → tail (h ++ [record]) = tail h ++ [record])
    by (by destruct h).
  assert (Hcases :
    (Z.of_nat (length h) < EventService.maxHistorySize this ∧
     EventService.eventHistory this' = h ++ [record]) ∨
    (Z.of_nat (length h) = EventService.maxHistorySize this ∧
     EventService.eventHistory this' = tail h ++ [record])).
  { rewrite Hh, length_app. simpl.
    destruct (decide (Z.of_nat (length h) < EventService.maxHistorySize this)).
    - left. split; [done|]. by rewrite bool_decide_eq_false_2 by lia.
    - right. split; [lia|]. rewrite bool_decide_eq_true_2 by lia.
      apply Htail. destruct h; [simpl in *; lia|done]. }
  assert (Hlast : list.last (EventService.eventHistory this') = Some record)
    by (destruct Hcases as [[_ ->]|[_ ->]]; apply list.last_snoc).
  split; [done|]. split.
  { destruct Hcases as [[? ->]|[? ->]]; rewrite length_app; simpl; [lia|].
    destruct h; simpl in *; lia. }
  split; [done|]. split.
  { intros Hlt. destruct Hcases as [[_ ->]|[? _]]; [done|lia]. }
  split.
  { intros Heq. destruct Hcases as [[? _]|[_ ->]]; [lia|done]. }
  unfold EventService.getHistory.
  destruct (decide (event = "")) as [He|He];
    [by rewrite bool_decide_eq_true_2 by done|].
  rewrite bool_decide_eq_false_2 by done.
  destruct Hcases as [[_ ->]|[_ ->]]; rewrite list.filter_app, filter_cons_True by done;
    apply list.last_snoc.
Qed.

(** Witness for the theorem above: the first event published on a new
    service. *)
Lemma publish_keeps_a_bounded_history_witness :
  EventService.eventHistory
    (EventService.publish EventService.new "user:updated" Cache.JNull 1000).2
  = [EventService.mkEventRecord "user:updated" Cache.JNull 1000 0].
Proof.
  destruct (publish_keeps_a_bounded_history EventService.new "user:updated"
              Cache.JNull 1000) as (_ & _ & _ & H & _).
  - vm_compute. discriminate.
  - vm_compute. discriminate.
  - apply H. vm_compute. reflexivity.
Defined.

(** X18 -- [unsubscribe] cannot remove what [subscribe] registered.
    [subscribe] registers its own [wrappedHandler], [unsubscribe] passes the
    bare handler to [off]: on a service whose listeners all come from
    [subscribe] (a new service, and every service obtained from it by
    [subscribe], [publish] and [unsubscribe]), [unsubscribe] of any handler
    leaves the listeners as they are, and the next [publish] still calls
    the handler's wrapper. *)
Theorem unsubscribe_removes_nothing
    (this : EventService.t) (event : string) (handler : nat) :
  EventService.allWrapped this →
  (∀ event' h once,
     EventService.allWrapped (EventService.subscribe this event' h once)) ∧
  (∀ event' data now,
     EventService.allWrapped (EventService.publish this event' data now).2) ∧
  EventService.listeners
    (EventService.unsubscribe this event (EventService.Handler handler))
    = EventService.listeners this ∧
  (∀ once data now,
     event ≠ "error" →
     ∃ called,
       (EventService.publish
          (EventService.unsubscribe
             (EventService.subscribe this event handler once)
             event (EventService.Handler handler))
          event data now).1 = Ok called ∧
       EventService.Wrapped handler ∈ called).
Proof.
  intros Hw.
  assert (Hun : ∀ s, EventService.allWrapped s →
            EventService.listeners
              (EventService.unsubscribe s event (EventService.Handler handler))
            = EventService.listeners s).
  { intros s Hs. unfold EventService.unsubscribe.
    destruct (EventService.listeners s !! event) as [l|] eqn:E; [|done]. simpl.
    rewrite removeLast_no_match.
    - by apply insert_id.
    - apply wrapped_not_handler. by apply (Hs event l). }
  split; [|split; [|split]].
  - intros event' h once. by apply subscribe_allWrapped.
  - intros event' data now. by apply publish_allWrapped.
  - by apply Hun.
  - intros once data now Hne.
    pose proof (Hun _ (subscribe_allWrapped this event handler once Hw)) as Hl.
    unfold EventService.publish, EventService.listenersOf. rewrite Hl.
    simpl. rewrite lookup_insert_eq. simpl.
    rewrite (bool_decide_eq_false_2 (event = "error")) by done. simpl.
    eexists. split; [reflexivity|].
    rewrite fmap_app. apply elem_of_app. right. simpl. apply list_elem_of_here.
Qed.

(** Witness for the theorem above: a handler subscribed and unsubscribed on
    a new service is still called. *)
Lemma unsubscribe_removes_nothing_witness :
  (EventService.publish
     (EventService.unsubscribe
        (EventService.subscribe EventService.new "user:updated" 7 false)
        "user:updated" (EventService.Handler 7))
     "user:updated" Cache.JNull 1000).1 = Ok [EventService.Wrapped 7].
Proof.
  destruct (unsubscribe_removes_nothing EventService.new "user:updated" 7)
    as (_ & _ & _ & H).
  - apply map_Forall_empty.
  - destruct (H false Cache.JNull 1000 ltac:(discriminate)) as (called & Hc & _).
    rewrite Hc. vm_compute in Hc. congruence.
Defined.

(** X19 -- [publish] calls every listener of the event, in subscription
    order, and keeps exactly the listeners that were not subscribed with
    [once]: a [once] subscription receives the next event of its kind and no
    later one (the event after that is delivered to the permanent listeners
    only).  Listeners of other events are neither called nor removed. *)
Theorem publish_delivers_once_listeners_once
    (this : EventService.t) (event : string) (data : Cache.json) (now : Z) :
  event ≠ "error" →
  (EventService.publish this event data now).1
    = Ok (EventService.fn <$> EventService.listenersOf this event) ∧
  EventService.listenersOf (EventService.publish this event data now).2 event
    = filter (λ x, EventService.once x = false)
        (EventService.listenersOf this event) ∧
  (∀ other, other ≠ event →
     EventService.listenersOf (EventService.publish this event data now).2 other
       = EventService.listenersOf this other) ∧
  (∀ data' now',
     (EventService.publish (EventService.publish this event data now).2
        event data' now').1
     = Ok (EventService.fn <$>
             filter (λ x, EventService.once x = false)
               (EventService.listenersOf this event))).
Proof.
  intros Hne.
  assert (H1 : ∀ s d n, (EventService.publish s event d n).1
               = Ok (EventService.fn <$> EventService.listenersOf s event)).
  { intros s d n. unfold EventService.publish.
    by rewrite (bool_decide_eq_false_2 (event = "error")) by done. }
  assert (H2 : EventService.listenersOf
                 (EventService.publish this event data now).2 event
               = filter (λ x, EventService.once x = false)
                   (EventService.listenersOf this event)).
  { unfold EventService.publish, EventService.listenersOf.
    rewrite (bool_decide_eq_false_2 (event = "error")) by done. simpl.
    destruct (EventService.listeners this !! event) as [l|] eqn:E; simpl.
    - by rewrite lookup_insert_eq.
    - by rewrite E. }
  split; [apply H1|]. split; [done|]. split.
  - intros other Hother. unfold EventService.publish, EventService.listenersOf.
    rewrite (bool_decide_eq_false_2 (event = "error")) by done. simpl.
    destruct (EventService.listeners this !! event) as [l|] eqn:E; simpl; [|done].
    by rewrite lookup_insert_ne.
  - intros data' now'. by rewrite H1, H2.
Qed.

(** Witness for the theorem above: a one-shot and a permanent listener of
    the same event. *)
Lemma publish_delivers_once_listeners_once_witness :
  (EventService.publish
     (EventService.subscribe (EventService.subscribe EventService.new "e" 1 true)
        "e" 2 false) "e" Cache.JNull 1000).1
    = Ok [EventService.Wrapped 1; EventService.Wrapped 2] ∧
  EventService.listenersOf
    (EventService.publish
       (EventService.subscribe (EventService.subscribe EventService.new "e" 1 true)
          "e" 2 false) "e" Cache.JNull 1000).2 "e"
    = [EventService.mkListener (EventService.Wrapped 2) false].
Proof.
  destruct (publish_delivers_once_listeners_once
              (EventService.subscribe
                 (EventService.subscribe EventService.new "e" 1 true) "e" 2 false)
              "e" Cache.JNull 1000 ltac:(discriminate)) as (H1 & H2 & _).
  split.
  - rewrite H1. vm_compute. reflexivity.
  - rewrite H2. vm_compute. reflexivity.
Defined.

Section PaginationProperties.

Lemma ceilDiv_gt (p a b : Z) :
  0 < b → p < ApiResponse.ceilDiv a b ↔ p * b < a.
Proof.
  intros Hb. unfold ApiResponse.ceilDiv.
  pose proof (Z.div_mod (- a) b ltac:(lia)) as Hdiv.
  pose proof (Z.mod_pos_bound (- a) b Hb) as Hmod.
  split; intros H; nia.
Qed.

Lemma getPagination_range {QueryValue : Type}
    (parseInt : option QueryValue → option Z) (query_page query_limit : option QueryValue) :
  let p := Helpers.getPagination QueryValue parseInt query_page query_limit in
  1 ≤ Helpers.page p ∧ 1 ≤ Helpers.limit p ≤ 100
  ∧ Helpers.skip p = (Helpers.page p - 1) * Helpers.limit p.
Proof. simpl. lia. Qed.

End PaginationProperties.

(** X20 -- getPagination (helpers.js) answers a usable page for every query
    whose parsed page and limit, when they are numbers, are safe integers
    with [page * 100] a safe integer too (so that the arithmetic of the code
    is exact): the page is at least 1, the limit lies in 1..100 and skip is
    the non-negative offset (page - 1) * limit.  A page that parses to a
    positive integer and a limit that parses to 1..100 are taken as they
    are; a missing, non-numeric or zero value gives the defaults 1 and 10; a
    negative page gives 1, a negative limit gives 1 (not the default 10) and
    a limit above 100 gives 100. *)
Theorem getPagination_clamps {QueryValue : Type}
    (parseInt : option QueryValue → option Z) (query_page query_limit : option QueryValue) :
  (∀ n, parseInt query_page = Some n → Helpers.safeInteger (n * 100)) →
  (∀ n, parseInt query_limit = Some n → Helpers.safeInteger n) →
  let p := Helpers.getPagination QueryValue parseInt query_page query_limit in
  (1 ≤ Helpers.page p ∧ 1 ≤ Helpers.limit p ≤ 100
   ∧ 0 ≤ Helpers.skip p ∧ Helpers.skip p = (Helpers.page p - 1) * Helpers.limit p
   ∧ Helpers.safeInteger (Helpers.page p) ∧ Helpers.safeInteger (Helpers.skip p)) ∧
  (∀ n, parseInt query_page = Some n → 1 ≤ n → Helpers.page p = n) ∧
  (∀ n, parseInt query_limit = Some n → 1 ≤ n ≤ 100 → Helpers.limit p = n) ∧
  (parseInt query_page = None ∨ parseInt query_page = Some 0 → Helpers.page p = 1) ∧
  (parseInt query_limit = None ∨ parseInt query_limit = Some 0 → Helpers.limit p = 10) ∧
  (∀ n, parseInt query_page = Some n → n < 0 → Helpers.page p = 1) ∧
  (∀ n, parseInt query_limit = Some n → n < 0 → Helpers.limit p = 1) ∧
  (∀ n, parseInt query_limit = Some n → 100 < n → Helpers.limit p = 100).
Proof.
  intros Hpage Hlimit p. subst p. unfold Helpers.getPagination.
  cbn [Helpers.page Helpers.limit Helpers.skip].
  split.
  { assert (Hp : 1 ≤ Z.max 1 (Helpers.orElse (parseInt query_page) 1)
                 ∧ Z.max 1 (Helpers.orElse (parseInt query_page) 1) * 100
                   ≤ 9007199254740991).
    { destruct (parseInt query_page) as [n|] eqn:E; simpl; [|lia].
      specialize (Hpage n eq_refl). unfold Helpers.safeInteger in Hpage.
      case_bool_decide; lia. }
    unfold Helpers.safeInteger. nia. }
  split; [intros n -> Hn; unfold Helpers.orElse; case_bool_decide; lia|].
  split; [intros n -> Hn; unfold Helpers.orElse; case_bool_decide; lia|].
  split; [intros [-> | ->]; reflexivity|].
  split; [intros [-> | ->]; reflexivity|].
  split; [intros n -> Hn; unfold Helpers.orElse; case_bool_decide; lia|].
  split; intros n -> Hn; unfold Helpers.orElse; case_bool_decide; lia.
Qed.

(** Witness for the theorem above: with the query values already numbers,
    page 3 with limit 250 is served as page 3 with limit 100 from offset
    200. *)
Lemma getPagination_clamps_witness :
  Helpers.page (Helpers.getPagination Z id (Some 3) (Some 250)) = 3 ∧
  Helpers.limit (Helpers.getPagination Z id (Some 3) (Some 250)) = 100 ∧
  Helpers.skip (Helpers.getPagination Z id (Some 3) (Some 250)) = 200.
Proof.
  destruct (getPagination_clamps (QueryValue := Z) id (Some 3) (Some 250))
    as ((_ & _ & _ & Hskip & _) & Hpage & _ & _ & _ & _ & _ & Hlimit).
  - intros n [= <-]. unfold Helpers.safeInteger. lia.
  - intros n [= <-]. unfold Helpers.safeInteger. lia.
  - rewrite Hskip.
    rewrite (Hpage 3 eq_refl ltac:(lia)), (Hlimit 250 eq_refl ltac:(lia)).
    repeat split; reflexivity.
Defined.

(** X21 -- The pagination metadata getAllUsers (user.controller.js) builds
    with ApiResponse.paginated from the result of getPagination and a
    non-negative document count: the response is a success with status 200;
    totalPages is the least number of pages of [limit] items that hold
    totalItems; hasNextPage is true exactly when documents remain after this
    page (skip + limit < totalItems) and hasPrevPage exactly when documents
    were skipped; an empty result has 0 pages and no next page. *)
Theorem getAllUsers_pagination_meta {QueryValue : Type}
    (parseInt : option QueryValue → option Z) (query_page query_limit : option QueryValue)
    (users : Cache.json) (totalItems : Z) :
  0 ≤ totalItems →
  let p := Helpers.getPagination QueryValue parseInt query_page query_limit in
  let response := ApiResponse.getAllUsers_respond p users totalItems in
  ApiResponse.success response = true ∧
  ApiResponse.statusCode response = 200 ∧
  ApiResponse.data response = users ∧
  ∃ meta,
    ApiResponse.meta response = Some meta ∧
    ApiResponse.currentPage meta = Helpers.page p ∧
    ApiResponse.itemsPerPage meta = Helpers.limit p ∧
    ApiResponse.totalItems meta = totalItems ∧
    (ApiResponse.totalPages meta - 1) * Helpers.limit p < totalItems
      ≤ ApiResponse.totalPages meta * Helpers.limit p ∧
    (ApiResponse.hasNextPage meta = true
       ↔ Helpers.skip p + Helpers.limit p < totalItems) ∧
    (ApiResponse.hasPrevPage meta = true ↔ 0 < Helpers.skip p) ∧
    (totalItems = 0 →
       ApiResponse.totalPages meta = 0 ∧ ApiResponse.hasNextPage meta = false).
Proof.
  intros Htotal p response.
  destruct (getPagination_range parseInt query_page query_limit)
    as (Hpage & Hlimit & Hskip).
  fold p in Hpage, Hlimit, Hskip.
  split; [reflexivity|]. split; [reflexivity|]. split; [reflexivity|].
  eexists. split; [reflexivity|].
  cbn [ApiResponse.currentPage ApiResponse.itemsPerPage ApiResponse.totalItems
       ApiResponse.totalPages ApiResponse.hasNextPage ApiResponse.hasPrevPage].
  split; [reflexivity|]. split; [reflexivity|]. split; [reflexivity|].
  assert (Hceil : ∀ q, q < ApiResponse.ceilDiv totalItems (Helpers.limit p)
                       ↔ q * Helpers.limit p < totalItems).
  { intros q. apply ceilDiv_gt. lia. }
  split.
  { split.
    - apply Hceil. lia.
    - destruct (decide (totalItems
                        ≤ ApiResponse.ceilDiv totalItems (Helpers.limit p)
                          * Helpers.limit p)) as [|Hn]; [done|].
      exfalso. apply Z.nle_gt in Hn. apply Hceil in Hn. lia. }
  split.
  { rewrite bool_decide_eq_true, Hceil, Hskip. split; intros; nia. }
  split.
  { rewrite bool_decide_eq_true, Hskip. split; intros; nia. }
  intros ->. split.
  - unfold ApiResponse.ceilDiv. simpl. rewrite Z.div_0_l by lia. reflexivity.
  - apply bool_decide_eq_false. rewrite Hceil. nia.
Qed.

(** Witness for the theorem above: page 2 of 25 users, 10 per page. *)
Lemma getAllUsers_pagination_meta_witness :
  ApiResponse.meta
    (ApiResponse.getAllUsers_respond
       (Helpers.getPagination Z id (Some 2) (Some 10)) (Cache.JArray []) 25)
  = Some (ApiResponse.mkPaginationMeta 2 3 25 10 true true).
Proof.
  destruct (getAllUsers_pagination_meta (QueryValue := Z) id (Some 2) (Some 10)
              (Cache.JArray []) 25 ltac:(lia)) as (_ & _ & _ & meta & Hmeta & _).
  vm_compute. reflexivity.
Defined.

(** X22 -- errorHandler (error.middleware.js) in production answers every
    ApiError thrown by the application (401 of authenticate, 403 of
    authorize and isOwnerOrAdmin, 404, 429 of the limiter, ...) with status
    500 and the generic message: the handler works on the copy [{ ...err }],
    which is no instance of ApiError and has no isOperational, and
    sendProdError lets only those through. Outside production the same
    error is answered with its own status code, message and errors. The
    library errors the handler converts keep their status in production:
    CastError 400, duplicate key 409, ValidationError 422 with its errors,
    JsonWebTokenError and TokenExpiredError 401; any other error is answered
    with its own status only when it carries isOperational. *)
Theorem errorHandler_production_hides_ApiErrors
    (e : ApiError.t) (errors : list (string * string)) :
  ApiError.statusCode e ≠ 0 →
  ErrorMiddleware.errorHandler true (ErrorMiddleware.ApiErr e errors) = ErrorMiddleware.genericResponse ∧
  ErrorMiddleware.errorHandler false (ErrorMiddleware.ApiErr e errors)
    = ErrorMiddleware.mkResponse (ApiError.statusCode e) (ApiError.statusCode e)
        (ApiError.message e) errors ∧
  (∀ isProduction message path value,
     ErrorMiddleware.errorHandler isProduction (ErrorMiddleware.CastError message path value)
       = ErrorMiddleware.mkResponse 400 400 ("Invalid " +:+ path +:+ ": " +:+ value) []) ∧
  (∀ isProduction message field value,
     ErrorMiddleware.status
       (ErrorMiddleware.errorHandler isProduction
          (ErrorMiddleware.DuplicateKeyError message field value)) = 409) ∧
  (∀ isProduction message errors',
     ErrorMiddleware.errorHandler isProduction (ErrorMiddleware.ValidationError message errors')
       = ErrorMiddleware.mkResponse 422 422 "Validation failed" errors') ∧
  (∀ isProduction message,
     ErrorMiddleware.errorHandler isProduction (ErrorMiddleware.JsonWebTokenError message)
       = ErrorMiddleware.mkResponse 401 401 "Invalid token. Please login again" []) ∧
  (∀ isProduction message,
     ErrorMiddleware.errorHandler isProduction (ErrorMiddleware.TokenExpiredError message)
       = ErrorMiddleware.mkResponse 401 401 "Token has expired. Please login again" []) ∧
  (∀ message statusCode isOperational,
     ErrorMiddleware.errorHandler true
       (ErrorMiddleware.OtherError message statusCode isOperational)
     = if isOperational
       then ErrorMiddleware.mkResponse (Helpers.orElse statusCode 500)
              (Helpers.orElse statusCode 500) message []
       else ErrorMiddleware.genericResponse).
Proof.
  intros Hstatus. split; [reflexivity|]. split.
  { unfold ErrorMiddleware.errorHandler, ErrorMiddleware.sendDevError. simpl.
    by rewrite (bool_decide_eq_false_2 (ApiError.statusCode e = 0)) by done. }
  split; [by intros []|]. split; [by intros []|]. split; [by intros []|].
  split; [by intros []|]. split; [by intros []|].
  by intros message statusCode [].
Qed.

(** Witness for the theorem above: the 401 of a request without an access
    token, in production and outside it. *)
Lemma errorHandler_production_hides_ApiErrors_witness :
  ∃ e,
    Auth.authenticate Sample.config Sample.db 1700000000500 None = Throw e ∧
    ErrorMiddleware.status
      (ErrorMiddleware.errorHandler true (ErrorMiddleware.ApiErr e [])) = 500 ∧
    ErrorMiddleware.status
      (ErrorMiddleware.errorHandler false (ErrorMiddleware.ApiErr e [])) = 401.
Proof.
  exists (ApiError.unauthorized "Access token is required").
  destruct (errorHandler_production_hides_ApiErrors
              (ApiError.unauthorized "Access token is required") []
              ltac:(discriminate)) as (Hprod & Hdev & _).
  split; [reflexivity|]. rewrite Hprod, Hdev. split; reflexivity.
Defined.

Section SecurityProperties.

Import Stdlib.Strings.Ascii.

Lemma json_nested_ind (P : Cache.json → Prop) :
  P Cache.JNull →
  (∀ b, P (Cache.JBool b)) →
  (∀ n, P (Cache.JNumber n)) →
  (∀ s, P (Cache.JString s)) →
  (∀ elements, Forall P elements → P (Cache.JArray elements)) →
  (∀ members, Forall (λ kv, P kv.2) members → P (Cache.JObject members)) →
  ∀ v, P v.
Proof.
  intros Hnull Hbool Hnum Hstr Harr Hobj.
  fix IH 1. intros [| b | n | s | elements | members].
  - exact Hnull.
  - apply Hbool.
  - apply Hnum.
  - apply Hstr.
  - apply Harr. revert elements. fix IHl 1. intros [|x l].
    + constructor.
    + constructor; [apply IH | apply IHl].
  - apply Hobj. revert members. fix IHl 1. intros [|[k x] l].
    + constructor.
    + constructor; [apply IH | apply IHl].
Qed.

Lemma contains_app (c : Ascii.ascii) (a b : string) :
  Security.contains c (a +:+ b) = Security.contains c a || Security.contains c b.
Proof.
  induction a as [|x a IH]; simpl; [done|]. by rewrite IH, orb_assoc.
Qed.

Lemma contains_replaceAll (d c : Ascii.ascii) (by_ s : string) :
  Security.contains d by_ = false →
  d = c ∨ Security.contains d s = false →
  Security.contains d (Security.replaceAll c by_ s) = false.
Proof.
  intros Hby. induction s as [|a s IH]; simpl; intros Hd; [done|].
  destruct (Ascii.eqb a c) eqn:E.
  - rewrite contains_app, Hby. simpl. apply IH.
    destruct Hd as [->|H]; [by left|]. right.
    by apply orb_false_elim in H as [_ ?].
  - simpl. destruct Hd as [->|H].
    + rewrite E. simpl. apply IH. by left.
    + apply orb_false_elim in H as [H1 H2]. rewrite H1. simpl. apply IH. by right.
Qed.

Lemma replaceAll_absent (c : Ascii.ascii) (by_ s : string) :
  Security.contains c s = false → Security.replaceAll c by_ s = s.
Proof.
  induction s as [|a s IH]; simpl; intros H; [done|].
  apply orb_false_elim in H as [H1 H2]. rewrite H1. by rewrite IH.
Qed.

Ltac special_mem :=
  unfold Security.special;
  repeat first [apply list_elem_of_here | apply list_elem_of_further].

Lemma escape_contains (c : Ascii.ascii) (s : string) :
  c ∈ Security.special → Security.contains c (Security.escape s) = false.
Proof.
  unfold Security.special. rewrite !elem_of_cons, elem_of_nil.
  unfold Security.escape.
  intros [-> | [-> | [-> | [-> | [-> | []]]]]];
    repeat (apply contains_replaceAll;
            [reflexivity | first [left; reflexivity | right]]).
Qed.

Lemma escape_cleanString (s : string) :
  Security.cleanString (Security.escape s) = true.
Proof.
  unfold Security.cleanString, Security.special. cbn [forallb].
  by rewrite !escape_contains by special_mem.
Qed.

Lemma escape_idem (s : string) :
  Security.escape (Security.escape s) = Security.escape s.
Proof.
  unfold Security.escape at 1.
  rewrite (replaceAll_absent "<"%char) by (apply escape_contains; special_mem).
  rewrite (replaceAll_absent ">"%char) by (apply escape_contains; special_mem).
  rewrite (replaceAll_absent Security.dquote) by (apply escape_contains; special_mem).
  rewrite (replaceAll_absent "'"%char) by (apply escape_contains; special_mem).
  by rewrite (replaceAll_absent "/"%char) by (apply escape_contains; special_mem).
Qed.

Lemma sanitize_object (members : list (string * Cache.json)) :
  Security.sanitize (Cache.JObject members)
  = Cache.JObject (prod_map id Security.sanitize <$> Security.rebuilt members).
Proof.
  cbn [Security.sanitize]. f_equal. unfold Security.rebuilt.
  induction members as [|[k v] l IH]; [done|].
  rewrite filter_cons. csimpl.
  destruct (decide (k = "__proto__")) as [->|Hne].
  - rewrite bool_decide_eq_true_2 by done.
    rewrite decide_False by (intros H; by apply H). exact IH.
  - rewrite bool_decide_eq_false_2 by done.
    rewrite decide_True by done. csimpl. by rewrite IH.
Qed.

Lemma rebuilt_elem (members : list (string * Cache.json)) (kv : string * Cache.json) :
  kv ∈ Security.rebuilt members ↔ kv ∈ members ∧ kv.1 ≠ "__proto__".
Proof. unfold Security.rebuilt. rewrite list_elem_of_filter. tauto. Qed.

Lemma rebuilt_Forall (P : string * Cache.json → Prop) (members : list (string * Cache.json)) :
  Forall P members → Forall P (Security.rebuilt members).
Proof.
  rewrite !list.Forall_forall. intros H kv [Hin _]%rebuilt_elem. by apply H.
Qed.

Lemma sanitize_clean (v : Cache.json) : Security.clean (Security.sanitize v) = true.
Proof.
  induction v as [| b | n | s | elements IH | members IH] using json_nested_ind;
    try reflexivity.
  - apply escape_cleanString.
  - simpl. induction IH as [|x l Hx _ IHl]; csimpl; [done|]. by rewrite Hx, IHl.
  - rewrite sanitize_object. apply (rebuilt_Forall _ _) in IH. cbn [Security.clean].
    induction IH as [|[k x] l Hx _ IHl]; csimpl; [done|].
    simpl in Hx. by rewrite Hx, IHl.
Qed.

Lemma sanitize_noProto (v : Cache.json) : Security.noProto (Security.sanitize v) = true.
Proof.
  induction v as [| b | n | s | elements IH | members IH] using json_nested_ind;
    try reflexivity.
  - simpl. induction IH as [|x l Hx _ IHl]; csimpl; [done|]. by rewrite Hx, IHl.
  - rewrite sanitize_object. cbn [Security.noProto].
    assert (H : Forall (λ kv, Security.noProto (Security.sanitize kv.2) = true
                              ∧ kv.1 ≠ "__proto__") (Security.rebuilt members)).
    { apply list.Forall_forall. intros kv [Hin Hne]%rebuilt_elem. split; [|done].
      by apply (proj1 (list.Forall_forall _ _) IH). }
    induction H as [|[k x] l [Hx Hk] _ IHl]; csimpl; [done|].
    simpl in Hx, Hk. rewrite Hx, IHl. by rewrite bool_decide_eq_false_2.
Qed.

Lemma rebuilt_noProto (members : list (string * Cache.json)) :
  Forall (λ kv, kv.1 ≠ "__proto__") members → Security.rebuilt members = members.
Proof.
  unfold Security.rebuilt. induction 1 as [|[k x] l Hk _ IHl]; [done|].
  rewrite filter_cons, decide_True by done. by rewrite IHl.
Qed.

Lemma rebuilt_idem (members : list (string * Cache.json)) :
  Security.rebuilt (Security.rebuilt members) = Security.rebuilt members.
Proof.
  apply rebuilt_noProto, list.Forall_forall. by intros kv [_ Hne]%rebuilt_elem.
Qed.

Lemma rebuilt_fmap (h : string * Cache.json → string * Cache.json)
    (members : list (string * Cache.json)) :
  (∀ kv, (h kv).1 = kv.1) →
  Security.rebuilt (h <$> Security.rebuilt members) = h <$> Security.rebuilt members.
Proof.
  intros Hh. apply rebuilt_noProto, Forall_fmap, list.Forall_forall.
  intros kv [_ Hne]%rebuilt_elem. simpl. by rewrite Hh.
Qed.

Lemma sanitize_idem (v : Cache.json) :
  Security.sanitize (Security.sanitize v) = Security.sanitize v.
Proof.
  induction v as [| b | n | s | elements IH | members IH] using json_nested_ind;
    try reflexivity.
  - simpl. by rewrite escape_idem.
  - simpl. f_equal. induction IH as [|x l Hx _ IHl]; csimpl; [done|].
    by rewrite Hx, IHl.
  - rewrite !sanitize_object. f_equal.
    rewrite rebuilt_fmap by done. rewrite <- list_fmap_compose.
    apply Forall_fmap_ext, list.Forall_forall. intros [k x] [Hin _]%rebuilt_elem.
    pose proof (proj1 (list.Forall_forall _ _) IH _ Hin) as Hx. simpl in Hx.
    unfold prod_map. simpl. by rewrite Hx.
Qed.

Lemma lookupMember_elem (members : list (string * Cache.json)) (k : string) (v : Cache.json) :
  NoDup members.*1 → (k, v) ∈ members → Security.lookupMember k members = Some v.
Proof.
  induction members as [|[k' v'] l IH]; csimpl; intros Hnd Hin.
  - by apply elem_of_nil in Hin.
  - apply list.NoDup_cons in Hnd as [Hk' Hnd].
    apply elem_of_cons in Hin as [[= <- <-]|Hin].
    + by rewrite bool_decide_eq_true_2.
    + rewrite bool_decide_eq_false_2; [by apply IH|].
      intros ->. apply Hk'. apply list_elem_of_fmap. by exists (k, v).
Qed.

Lemma lookupMember_None (members : list (string * Cache.json)) (k : string) (v : Cache.json) :
  Security.lookupMember k members = None → (k, v) ∉ members.
Proof.
  induction members as [|[k' v'] l IH]; simpl; intros Hl Hin.
  - by apply elem_of_nil in Hin.
  - destruct (decide (k' = k)) as [->|Hne].
    + by rewrite bool_decide_eq_true_2 in Hl.
    + rewrite bool_decide_eq_false_2 in Hl by done.
      apply elem_of_cons in Hin as [[= -> ->]|Hin]; [done|]. by apply IH.
Qed.

Lemma assignMember_fmap (h : string * Cache.json → string * Cache.json)
    (members : list (string * Cache.json)) (x : string) (v : Cache.json) :
  (∀ kv, (h kv).1 = kv.1) →
  NoDup members.*1 →
  Security.lookupMember x members = Some v →
  Security.assignMember (h <$> members) x v
  = (λ kv, if bool_decide (kv.1 = x) then (x, v) else h kv) <$> members.
Proof.
  intros Hh. induction members as [|[k' v'] l IH]; csimpl; intros Hnd Hl; [done|].
  apply list.NoDup_cons in Hnd as [Hk' Hnd].
  pose proof (Hh (k', v')) as Hk. destruct (h (k', v')) as [k'' w] eqn:E.
  simpl in Hk. subst k''.
  destruct (decide (k' = x)) as [->|Hne].
  - rewrite !bool_decide_eq_true_2 by done. f_equal.
    apply Forall_fmap_ext, list.Forall_forall. intros [k1 v1] Hin. simpl.
    rewrite bool_decide_eq_false_2; [done|].
    intros ->. apply Hk'. apply list_elem_of_fmap. by exists (x, v1).
  - rewrite !bool_decide_eq_false_2 in * by done. f_equal. by apply IH.
Qed.

Lemma elem_of_snoc_ne (fields : list string) (k x : string) :
  k ≠ x → bool_decide (k ∈ fields) = bool_decide (k ∈ fields ++ [x]).
Proof.
  intros Hne. apply bool_decide_ext.
  rewrite elem_of_app, list_elem_of_singleton. intuition congruence.
Qed.

Lemma keepOrSanitize_fst (fields : list string) (kv : string * Cache.json) :
  (Security.keepOrSanitize fields kv).1 = kv.1.
Proof.
  unfold Security.keepOrSanitize.
  by destruct (bool_decide (kv.1 ∈ fields) && Cache.truthy kv.2).
Qed.

Lemma preserve_assign (members : list (string * Cache.json)) (fields done_ : list string) :
  NoDup members.*1 →
  foldl (λ m kv, Security.assignMember m kv.1 kv.2)
    (Security.keepOrSanitize done_ <$> members)
    (omap (λ field,
             match Security.lookupMember field members with
             | Some v => if Cache.truthy v then Some (field, v) else None
             | None => None
             end) fields)
  = Security.keepOrSanitize (done_ ++ fields) <$> members.
Proof.
  intros Hnd. revert done_. induction fields as [|x fields IH]; intros done_; csimpl.
  - by rewrite app_nil_r.
  - assert (Hstep : ∀ acc,
              acc = Security.keepOrSanitize (done_ ++ [x]) <$> members →
              foldl (λ m kv, Security.assignMember m kv.1 kv.2) acc
                (omap (λ field,
                         match Security.lookupMember field members with
                         | Some v => if Cache.truthy v then Some (field, v) else None
                         | None => None
                         end) fields)
              = Security.keepOrSanitize (done_ ++ x :: fields) <$> members).
    { intros acc ->. rewrite IH. by rewrite <- app_assoc. }
    destruct (Security.lookupMember x members) as [v|] eqn:El;
      [destruct (Cache.truthy v) eqn:Ev|]; csimpl; apply Hstep.
    + rewrite (assignMember_fmap (Security.keepOrSanitize done_) members x v
                 (keepOrSanitize_fst done_) Hnd El).
      apply Forall_fmap_ext, list.Forall_forall. intros [k1 v1] Hin. simpl.
      unfold Security.keepOrSanitize. simpl.
      destruct (decide (k1 = x)) as [->|Hne].
      * rewrite (lookupMember_elem _ _ _ Hnd Hin) in El. injection El as ->.
        rewrite bool_decide_eq_true_2 by done.
        rewrite (bool_decide_eq_true_2 (x ∈ done_ ++ [x]))
          by (apply elem_of_app; right; apply list_elem_of_singleton; reflexivity).
        by rewrite Ev.
      * rewrite bool_decide_eq_false_2 by done.
        by rewrite (elem_of_snoc_ne done_ k1 x Hne).
    + apply Forall_fmap_ext, list.Forall_forall. intros [k1 v1] Hin.
      unfold Security.keepOrSanitize. simpl.
      destruct (decide (k1 = x)) as [->|Hne].
      * rewrite (lookupMember_elem _ _ _ Hnd Hin) in El. injection El as ->.
        by rewrite Ev, !andb_false_r.
      * by rewrite (elem_of_snoc_ne done_ k1 x Hne).
    + apply Forall_fmap_ext, list.Forall_forall. intros [k1 v1] Hin.
      unfold Security.keepOrSanitize. simpl.
      destruct (decide (k1 = x)) as [->|Hne].
      * by apply lookupMember_None with (v := v1) in El.
      * by rewrite (elem_of_snoc_ne done_ k1 x Hne).
Qed.

Lemma keepOrSanitize_nil (members : list (string * Cache.json)) :
  prod_map id Security.sanitize <$> members = Security.keepOrSanitize [] <$> members.
Proof.
  apply Forall_fmap_ext, list.Forall_forall. intros [k v] _.
  unfold Security.keepOrSanitize. cbn [fst snd].
  rewrite (bool_decide_eq_false_2 (k ∈ [])); [done|]. apply not_elem_of_nil.
Qed.

Lemma lookupMember_rebuilt (members : list (string * Cache.json)) (field : string) :
  field ≠ "__proto__" →
  Security.lookupMember field (Security.rebuilt members)
  = Security.lookupMember field members.
Proof.
  intros Hf. unfold Security.rebuilt.
  induction members as [|[k v] l IH]; [done|].
  rewrite filter_cons. simpl.
  destruct (decide (k = "__proto__")) as [->|Hne].
  - rewrite decide_False by (intros H; by apply H).
    rewrite (bool_decide_eq_false_2 ("__proto__" = field)) by done. exact IH.
  - rewrite decide_True by done. simpl. by rewrite IH.
Qed.

Lemma preserve_rebuilt (members : list (string * Cache.json)) :
  Security.preserve (Cache.JObject members)
  = Security.preserve (Cache.JObject (Security.rebuilt members)).
Proof.
  unfold Security.preserve, Security.passwordFields.
  cbn [Security.getField omap list_omap].
  by rewrite !lookupMember_rebuilt by discriminate.
Qed.

Lemma rebuilt_NoDup (members : list (string * Cache.json)) :
  NoDup members.*1 → NoDup (Security.rebuilt members).*1.
Proof.
  unfold Security.rebuilt. induction members as [|[k v] l IH]; [done|].
  csimpl. intros [Hk Hnd]%list.NoDup_cons. rewrite filter_cons.
  destruct (decide ((k, v).1 ≠ "__proto__")); [|by apply IH].
  csimpl. apply list.NoDup_cons. split; [|by apply IH].
  intros ((k' & v') & Hk' & [_ Hin]%list_elem_of_filter)%list_elem_of_fmap.
  simpl in Hk'. subst k'. apply Hk. apply list_elem_of_fmap. by exists (k, v').
Qed.

Lemma xssSanitizer_object (members : list (string * Cache.json)) :
  NoDup members.*1 →
  Security.xssSanitizer (Cache.JObject members)
  = Cache.JObject (Security.sanitizeMember <$> Security.rebuilt members).
Proof.
  intros Hnd. unfold Security.xssSanitizer.
  cbn [Cache.truthy]. rewrite sanitize_object, preserve_rebuilt.
  unfold Security.preserve, Security.assign.
  cbn [Security.getField].
  rewrite keepOrSanitize_nil. f_equal.
  exact (preserve_assign (Security.rebuilt members) Security.passwordFields []
           (rebuilt_NoDup members Hnd)).
Qed.

Lemma xssSanitizer_not_object (body : Cache.json) :
  (∀ members, body ≠ Cache.JObject members) →
  Security.xssSanitizer body = Security.sanitize body.
Proof.
  intros Hno. destruct body as [| b | n | s | elements | members]; try reflexivity.
  - by destruct b.
  - unfold Security.xssSanitizer. simpl. by destruct (bool_decide (n = 0)).
  - unfold Security.xssSanitizer. simpl. case_bool_decide as Hs; [by subst|done].
  - by destruct (Hno members).
Qed.

Lemma sanitizeMember_idem (kv : string * Cache.json) :
  Security.sanitizeMember (Security.sanitizeMember kv) = Security.sanitizeMember kv.
Proof.
  destruct kv as [k v]. unfold Security.sanitizeMember, Security.keepOrSanitize.
  cbn [fst snd].
  destruct (bool_decide (k ∈ Security.passwordFields) && Cache.truthy v) eqn:E.
  - cbn [fst snd]. by rewrite E.
  - cbn [fst snd]. rewrite sanitize_idem.
    by destruct (bool_decide (k ∈ Security.passwordFields)
                 && Cache.truthy (Security.sanitize v)).
Qed.

Lemma sanitizeMember_keys (members : list (string * Cache.json)) :
  (Security.sanitizeMember <$> members).*1 = members.*1.
Proof.
  rewrite <- list_fmap_compose. apply Forall_fmap_ext, list.Forall_forall.
  intros kv _. apply keepOrSanitize_fst.
Qed.

Lemma cleanString_contains (c : Ascii.ascii) (s : string) :
  Security.cleanString s = true → c ∈ Security.special → Security.contains c s = false.
Proof.
  unfold Security.cleanString, Security.special. cbn [forallb].
  rewrite !andb_true_iff, !negb_true_iff, !elem_of_cons, elem_of_nil.
  intros (H1 & H2 & H3 & H4 & H5 & _) [-> | [-> | [-> | [-> | [-> | []]]]]]; done.
Qed.

Lemma escape_clean_id (s : string) :
  Security.cleanString s = true → Security.escape s = s.
Proof.
  intros Hs. unfold Security.escape.
  rewrite (replaceAll_absent "<"%char) by (apply cleanString_contains; [done|special_mem]).
  rewrite (replaceAll_absent ">"%char) by (apply cleanString_contains; [done|special_mem]).
  rewrite (replaceAll_absent Security.dquote)
    by (apply cleanString_contains; [done|special_mem]).
  rewrite (replaceAll_absent "'"%char) by (apply cleanString_contains; [done|special_mem]).
  by rewrite (replaceAll_absent "/"%char)
    by (apply cleanString_contains; [done|special_mem]).
Qed.

Lemma sanitize_clean_id (v : Cache.json) :
  Security.clean v = true → Security.noProto v = true → Security.sanitize v = v.
Proof.
  induction v as [| b | n | s | elements IH | members IH] using json_nested_ind;
    try reflexivity.
  - simpl. intros Hs _. by rewrite escape_clean_id.
  - simpl. intros Hc Hp. f_equal.
    induction IH as [|x l Hx _ IHl]; csimpl; [done|].
    simpl in Hc, Hp. apply andb_true_iff in Hc as [Hc1 Hc2].
    apply andb_true_iff in Hp as [Hp1 Hp2]. by rewrite Hx, IHl.
  - cbn [Security.sanitize Security.clean Security.noProto]. intros Hc Hp. f_equal.
    induction IH as [|[k x] l Hx _ IHl]; csimpl; [done|].
    simpl in Hc, Hp, Hx. apply andb_true_iff in Hc as [Hc1 Hc2].
    apply andb_true_iff in Hp as [[Hk Hp1]%andb_true_iff Hp2].
    apply negb_true_iff, bool_decide_eq_false in Hk.
    rewrite bool_decide_eq_false_2 by done. csimpl. by rewrite Hx, IHl.
Qed.

End SecurityProperties.

(** X23 -- What xssSanitizer (security.middleware.js) leaves in req.body
    when the body is an object (its keys distinct): its members are those of
    the request in their order, less a member named __proto__, which the
    rebuilding loop does not create; a member under one of the five password
    names whose value is truthy is kept verbatim, whatever it holds; the
    value of every other member is sanitized, so that no string in it, at any
    depth, has one of the characters < > double quote ' /.  On a body
    without a __proto__ member at any depth, running the middleware a second
    time changes nothing. *)
Theorem xssSanitizer_spares_only_password_fields
    (members : list (string * Cache.json)) :
  NoDup members.*1 →
  Security.xssSanitizer (Cache.JObject members)
    = Cache.JObject (Security.sanitizeMember <$> Security.rebuilt members) ∧
  (Security.sanitizeMember <$> Security.rebuilt members).*1
    = filter (λ k, k ≠ "__proto__") members.*1 ∧
  (∀ k v, (k, v) ∈ members → k ∈ Security.passwordFields → Cache.truthy v = true →
     (k, v) ∈ Security.sanitizeMember <$> Security.rebuilt members) ∧
  (∀ k v, (k, v) ∈ Security.sanitizeMember <$> Security.rebuilt members →
     (k, v) ∈ members ∧ k ∈ Security.passwordFields ∧ Cache.truthy v = true
     ∨ Security.clean v = true ∧ Security.noProto v = true ∧
       ∃ v', (k, v') ∈ members ∧ v = Security.sanitize v') ∧
  (Security.noProto (Cache.JObject members) = true →
   Security.xssSanitizer (Security.xssSanitizer (Cache.JObject members))
     = Security.xssSanitizer (Cache.JObject members)).
Proof.
  intros Hnd. split; [by apply xssSanitizer_object|].
  split; [|split; [|split]].
  - rewrite sanitizeMember_keys. unfold Security.rebuilt.
    clear Hnd. induction members as [|[k v] l IH]; [done|].
    csimpl. rewrite !filter_cons. simpl.
    destruct (decide (k ≠ "__proto__")); csimpl; by rewrite IH.
  - intros k v Hin Hk Hv. apply list_elem_of_fmap. exists (k, v). split.
    + unfold Security.sanitizeMember, Security.keepOrSanitize. cbn [fst snd].
      by rewrite bool_decide_eq_true_2, Hv.
    + apply rebuilt_elem. split; [done|]. simpl. intros ->.
      revert Hk. unfold Security.passwordFields.
      rewrite !elem_of_cons, elem_of_nil. intuition discriminate.
  - intros k v ([k' v'] & Heq & [Hin _]%rebuilt_elem)%list_elem_of_fmap.
    unfold Security.sanitizeMember, Security.keepOrSanitize in Heq.
    cbn [fst snd] in Heq.
    destruct (bool_decide (k' ∈ Security.passwordFields) && Cache.truthy v') eqn:E.
    + injection Heq as -> ->. left.
      apply andb_true_iff in E as [Hk%bool_decide_eq_true Hv]. done.
    + injection Heq as -> ->. right.
      split; [apply sanitize_clean|]. split; [apply sanitize_noProto|]. by exists v'.
  - intros _. rewrite (xssSanitizer_object members Hnd).
    rewrite xssSanitizer_object
      by (rewrite sanitizeMember_keys; by apply rebuilt_NoDup).
    f_equal. rewrite rebuilt_fmap by apply keepOrSanitize_fst.
    rewrite <- list_fmap_compose.
    apply Forall_fmap_ext, list.Forall_forall. intros kv _.
    apply sanitizeMember_idem.
Qed.

(** Witness for the theorem above: a registration body with markup in the
    name and in the password, and a __proto__ member. *)
Lemma xssSanitizer_spares_only_password_fields_witness :
  Security.xssSanitizer
    (Cache.JObject [("name", Cache.JString "<b>");
                    ("__proto__", Cache.JObject [("role", Cache.JString "admin")]);
                    ("password", Cache.JString "a<b")])
  = Cache.JObject
      [("name", Cache.JString "&lt;b&gt;"); ("password", Cache.JString "a<b")].
Proof.
  destruct (xssSanitizer_spares_only_password_fields
              [("name", Cache.JString "<b>");
               ("__proto__", Cache.JObject [("role", Cache.JString "admin")]);
               ("password", Cache.JString "a<b")])
    as (H & _).
  - apply (bool_decide_unpack _). vm_compute. exact I.
  - rewrite H. vm_compute. reflexivity.
Defined.

(** X24 -- sanitize, the recursive escape of xssSanitizer: in its result no
    string value, at any depth of arrays and objects, has one of the
    characters < > double quote ' /, and no object has a member named
    __proto__; for a value without __proto__ members, sanitizing twice is
    sanitizing once, and when it also has none of these characters it is
    returned unchanged.  A body that is no object is sanitized as a
    whole. *)
Theorem sanitize_escapes_every_string (v : Cache.json) :
  Security.clean (Security.sanitize v) = true ∧
  Security.noProto (Security.sanitize v) = true ∧
  (Security.noProto v = true →
   Security.sanitize (Security.sanitize v) = Security.sanitize v) ∧
  (Security.clean v = true → Security.noProto v = true → Security.sanitize v = v) ∧
  ((∀ members, v ≠ Cache.JObject members) →
     Security.xssSanitizer v = Security.sanitize v).
Proof.
  split; [apply sanitize_clean|]. split; [apply sanitize_noProto|].
  split; [intros _; apply sanitize_idem|].
  split; [apply sanitize_clean_id|]. apply xssSanitizer_not_object.
Qed.

(** Witness for the theorem above: an array body with one clean and one
    unclean string. *)
Lemma sanitize_escapes_every_string_witness :
  Security.xssSanitizer
    (Cache.JArray [Cache.JString "plain"; Cache.JString "it's"])
  = Cache.JArray [Cache.JString "plain"; Cache.JString "it&#x27;s"] ∧
  Security.sanitize (Cache.JArray [Cache.JString "plain"])
  = Cache.JArray [Cache.JString "plain"] ∧
  Security.sanitize
    (Security.sanitize (Cache.JArray [Cache.JString "plain"; Cache.JString "it's"]))
  = Security.sanitize (Cache.JArray [Cache.JString "plain"; Cache.JString "it's"]).
Proof.
  destruct (sanitize_escapes_every_string
              (Cache.JArray [Cache.JString "plain"; Cache.JString "it's"]))
    as (_ & _ & Htwice & _ & H).
  destruct (sanitize_escapes_every_string (Cache.JArray [Cache.JString "plain"]))
    as (_ & _ & _ & Hid & _).
  split; [|split].
  - rewrite H by discriminate. vm_compute. reflexivity.
  - apply Hid; vm_compute; reflexivity.
  - apply Htwice. vm_compute. reflexivity.
Defined.
